(** * Voice-detection demo: the scoring pipeline of [main.py] and [m.py]

    The development embeds the two [mock_ai_detection] functions, the
    validation in [decode_audio] and the handler [detect_voice], together
    with the parts of the Python runtime they call: IEEE-754 binary64
    arithmetic, [round], [hashlib.sha256], and the [random] module on top
    of the Mersenne Twister. *)

From Stdlib Require Import ZArith QArith Qpower Qround Qabs Qreduction.
From Stdlib Require Import Lia Lqa List Bool Permutation.
From Stdlib Require Import Strings.String Strings.Ascii Strings.Byte DecimalString.
Import ListNotations.

Local Open Scope Z_scope.

(** ** Binary64 floating point

    A Python [float] is modelled by the rational number it denotes.  Every
    arithmetic operation is the exact operation followed by rounding to the
    nearest value with a 53-bit significand, ties to even.  The exponent
    range of binary64 (from [2^-1074] to [2^1024]) is not modelled: the
    values the pipeline computes are zero or lie between [2^-56] (a draw of
    [2^-53] scaled by 0.23) and the payload length, where no operation
    overflows or underflows. *)

Module Float64.

Local Open Scope Q_scope.

Definition float : Type := Q.

(** Round half to even, to an integer. *)
Definition rne (q : Q) : Z :=
  let f := Qfloor q in
  match Qcompare (q - inject_Z f) (1 # 2) with
  | Lt => f
  | Gt => (f + 1)%Z
  | Eq => if Z.even f then f else (f + 1)%Z
  end.

(** [ilog2 x] is the integer [e] with [2^e <= x < 2^(e+1)], for [0 < x]. *)
Definition ilog2 (x : Q) : Z :=
  let e := (Z.log2 (Qnum x) - Z.log2 (Zpos (Qden x)))%Z in
  if Qle_bool (2 ^ e) x then e else (e - 1)%Z.

(** Round to nearest binary64, ties to even. *)
Definition RN (x : Q) : float :=
  if Qeq_bool x 0 then 0
  else
    let e := (ilog2 (Qabs x) - 52)%Z in
    Qred (inject_Z (rne (x / 2 ^ e)) * 2 ^ e).

(** A decimal literal of the program text, [n / 10^k]. *)
Definition lit (n : Z) (k : Z) : float := RN (inject_Z n / 10 ^ k).

Definition fadd (x y : float) : float := RN (x + y).
Definition fsub (x y : float) : float := RN (x - y).
Definition fmul (x y : float) : float := RN (x * y).
Definition fdiv (x y : float) : float := RN (x / y).
Definition flt (x y : float) : bool := negb (Qle_bool y x).

(** [float(n)] and [n / m] on Python integers: correctly rounded. *)
Definition of_int (n : Z) : float := RN (inject_Z n).
Definition int_truediv (n m : Z) : float := RN (inject_Z n / inject_Z m).

(** [round(x, ndigits)]: CPython rounds the exact value of [x] to
    [ndigits] decimals, half to even, and converts the decimal back to the
    nearest float. *)
Definition round (x : float) (ndigits : Z) : float :=
  RN (inject_Z (rne (x * 10 ^ ndigits)) / 10 ^ ndigits).

End Float64.

(** ** 32-bit words and byte strings *)

Definition u32 (x : Z) : Z := x mod 2 ^ 32.
Definition add32 (x y : Z) : Z := u32 (x + y).
Definition mul32 (x y : Z) : Z := u32 (x * y).
Definition sub32 (x y : Z) : Z := u32 (x - y).
Definition shl32 (x n : Z) : Z := u32 (Z.shiftl x n).
Definition not32 (x : Z) : Z := Z.lxor x 0xFFFFFFFF.

Definition bytes := list byte.

Definition byte_val (b : byte) : Z := Z.of_N (Byte.to_N b).

Definition byte_of_Z (z : Z) : byte :=
  match Byte.of_N (Z.to_N (z mod 256)) with
  | Some b => b
  | None => Byte.x00
  end.

(** [bytes.startswith(prefix)] *)
Fixpoint startswith (s prefix : bytes) : bool :=
  match prefix, s with
  | [], _ => true
  | _ :: _, [] => false
  | p :: prefix', c :: s' => Byte.eqb c p && startswith s' prefix'
  end.

(** [l[i] = v] on a list, for [i] in range. *)
Fixpoint upd {A : Type} (i : nat) (v : A) (l : list A) : list A :=
  match l, i with
  | [], _ => []
  | _ :: l', O => v :: l'
  | x :: l', S i' => x :: upd i' v l'
  end.

(** ** [hashlib.sha256] (FIPS 180-4) *)

Module SHA256.

Definition rotr (n x : Z) : Z :=
  Z.lor (Z.shiftr x n) (shl32 x (32 - n)).

Definition Ch (x y z : Z) : Z := Z.lxor (Z.land x y) (Z.land (not32 x) z).
Definition Maj (x y z : Z) : Z :=
  Z.lxor (Z.lxor (Z.land x y) (Z.land x z)) (Z.land y z).
Definition Sigma0 (x : Z) : Z := Z.lxor (Z.lxor (rotr 2 x) (rotr 13 x)) (rotr 22 x).
Definition Sigma1 (x : Z) : Z := Z.lxor (Z.lxor (rotr 6 x) (rotr 11 x)) (rotr 25 x).
Definition sigma0 (x : Z) : Z := Z.lxor (Z.lxor (rotr 7 x) (rotr 18 x)) (Z.shiftr x 3).
Definition sigma1 (x : Z) : Z := Z.lxor (Z.lxor (rotr 17 x) (rotr 19 x)) (Z.shiftr x 10).

(** The round constants are the first 32 bits of the fractional parts of
    the cube roots of the first 64 primes, the initial hash value those of
    the square roots of the first 8 primes (FIPS 180-4, 4.2.2 and 5.3.3). *)

Definition is_prime (p : Z) : bool :=
  (1 <? p) && forallb (fun d => negb (p mod d =? 0))
                (map Z.of_nat (seq 2 (Z.to_nat (p - 2)))).

Definition primes (count : nat) : list Z :=
  firstn count (filter is_prime (map Z.of_nat (seq 2 310))).

(** The largest [r] below [2^bits] above [acc] with [pow r <= x]. *)
Fixpoint root_search (pow : Z -> Z) (bits : nat) (x acc : Z) : Z :=
  match bits with
  | O => acc
  | S b =>
      let c := acc + 2 ^ Z.of_nat b in
      if pow c <=? x then root_search pow b x c else root_search pow b x acc
  end.

Definition frac_root32 (pow : Z -> Z) (scale : Z) (p : Z) : Z :=
  u32 (root_search pow 36 (p * 2 ^ scale) 0).

Definition K : list Z :=
  map (frac_root32 (fun r => r * r * r) 96) (primes 64).

Record hstate := mkH { ha : Z; hb : Z; hc : Z; hd : Z; he : Z; hf : Z; hg : Z; hh : Z }.

Definition H0 : hstate :=
  match map (frac_root32 (fun r => r * r) 64) (primes 8) with
  | [a; b; c; d; e; f; g; h] => mkH a b c d e f g h
  | _ => mkH 0 0 0 0 0 0 0 0
  end.

(** Big-endian 32-bit words of a block. *)
Fixpoint be_words (n : nat) (l : list Z) : list Z :=
  match n with
  | O => []
  | S n' =>
      match l with
      | b0 :: b1 :: b2 :: b3 :: l' =>
          (((b0 * 256 + b1) * 256 + b2) * 256 + b3) :: be_words n' l'
      | _ => []
      end
  end.

(** The message schedule, most recent word first. *)
Fixpoint schedule (n : nat) (rw : list Z) : list Z :=
  match n with
  | O => rw
  | S n' =>
      let w := add32 (add32 (sigma1 (nth 1 rw 0)) (nth 6 rw 0))
                     (add32 (sigma0 (nth 14 rw 0)) (nth 15 rw 0)) in
      schedule n' (w :: rw)
  end.

Definition round (s : hstate) (kw : Z * Z) : hstate :=
  let (k, w) := kw in
  let t1 := add32 (add32 (add32 (hh s) (Sigma1 (he s))) (add32 (Ch (he s) (hf s) (hg s)) k)) w in
  let t2 := add32 (Sigma0 (ha s)) (Maj (ha s) (hb s) (hc s)) in
  mkH (add32 t1 t2) (ha s) (hb s) (hc s) (add32 (hd s) t1) (he s) (hf s) (hg s).

Definition compress (k : list Z) (s : hstate) (block : list Z) : hstate :=
  let w := rev (schedule 48 (rev (be_words 16 block))) in
  let t := fold_left round (combine k w) s in
  mkH (add32 (ha s) (ha t)) (add32 (hb s) (hb t)) (add32 (hc s) (hc t))
      (add32 (hd s) (hd t)) (add32 (he s) (he t)) (add32 (hf s) (hf t))
      (add32 (hg s) (hg t)) (add32 (hh s) (hh t)).

Fixpoint be_bytes (n : nat) (x : Z) : list Z :=
  match n with
  | O => []
  | S n' => be_bytes n' (x / 256) ++ [x mod 256]
  end.

Definition pad (msg : list Z) : list Z :=
  let len := Z.of_nat (List.length msg) in
  let zeros := Z.to_nat ((55 - len) mod 64) in
  msg ++ [0x80] ++ repeat 0 zeros ++ be_bytes 8 (8 * len).

Fixpoint blocks (k : list Z) (n : nat) (l : list Z) (s : hstate) : hstate :=
  match n with
  | O => s
  | S n' => blocks k n' (skipn 64 l) (compress k s (firstn 64 l))
  end.

Definition digest (msg : bytes) : bytes :=
  let p := pad (map byte_val msg) in
  let k := K in
  let s := blocks k (List.length p / 64) p H0 in
  map byte_of_Z
    (flat_map (be_bytes 4)
       [ha s; hb s; hc s; hd s; he s; hf s; hg s; hh s]).

Definition hex_digit (n : Z) : ascii :=
  ascii_of_nat (Z.to_nat (if n <? 10 then 48 + n else 87 + n)).

(** [.hexdigest()]: two lower-case hexadecimal digits per byte. *)
Fixpoint hex (l : bytes) : string :=
  match l with
  | [] => EmptyString
  | b :: l' =>
      String (hex_digit (byte_val b / 16))
        (String (hex_digit (byte_val b mod 16)) (hex l'))
  end.

Definition hexdigest (msg : bytes) : string := hex (digest msg).

End SHA256.

(** ** The generator behind the [random] module

    [random.seed], [random.random] and [random.getrandbits] are implemented
    in C on a generator that hands out 32-bit words.  The Python-level
    functions (transcribed from [Lib/random.py] of CPython 3.11) only use
    this interface. *)

Record Generator : Type := mkGenerator {
  gen : Type;
  seed_int : Z -> gen;
  genrand_uint32 : gen -> Z * gen
}.

(** The Mersenne Twister MT19937 of CPython's [_randommodule.c]. *)

Module MT19937.

Definition N : nat := 624.
Definition M : nat := 397.
Definition MATRIX_A : Z := 0x9908b0df.
Definition UPPER_MASK : Z := 0x80000000.
Definition LOWER_MASK : Z := 0x7fffffff.

Record state := mkState { mt : list Z; index : nat }.

Definition get (l : list Z) (i : nat) : Z := nth i l 0.

(** [init_genrand(s)] *)
Fixpoint init_fill (n : nat) (i : Z) (prev : Z) : list Z :=
  match n with
  | O => []
  | S n' =>
      let x := add32 (mul32 1812433253 (Z.lxor prev (Z.shiftr prev 30))) i in
      x :: init_fill n' (i + 1) x
  end.

Definition init_genrand (s : Z) : state :=
  mkState (u32 s :: init_fill (N - 1) 1 (u32 s)) N.

(** The first loop of [init_by_array]. *)
Fixpoint mix_key (k : nat) (key : list Z) (m : list Z) (i j : nat) : list Z * nat :=
  match k with
  | O => (m, i)
  | S k' =>
      let p := get m (i - 1) in
      let v := add32 (add32 (Z.lxor (get m i) (mul32 (Z.lxor p (Z.shiftr p 30)) 1664525))
                            (get key j)) (Z.of_nat j) in
      let m := upd i v m in
      let i := S i in
      let j := S j in
      let (m, i) := if (N <=? i)%nat then (upd 0 (get m (N - 1)) m, 1%nat) else (m, i) in
      let j := if (List.length key <=? j)%nat then O else j in
      mix_key k' key m i j
  end.

(** The second loop of [init_by_array]. *)
Fixpoint mix_index (k : nat) (m : list Z) (i : nat) : list Z :=
  match k with
  | O => m
  | S k' =>
      let p := get m (i - 1) in
      let v := sub32 (Z.lxor (get m i) (mul32 (Z.lxor p (Z.shiftr p 30)) 1566083941))
                     (Z.of_nat i) in
      let m := upd i v m in
      let i := S i in
      let (m, i) := if (N <=? i)%nat then (upd 0 (get m (N - 1)) m, 1%nat) else (m, i) in
      mix_index k' m i
  end.

Definition init_by_array (key : list Z) : state :=
  let s := init_genrand 19650218 in
  let (m, i) := mix_key (Nat.max N (List.length key)) key (mt s) 1 0 in
  let m := mix_index (N - 1) m i in
  mkState (upd 0 0x80000000 m) N.

(** The 32-bit digits of a non-negative integer, least significant first
    (at least one digit). *)
Fixpoint key_digits (n : nat) (a : Z) : list Z :=
  match n with
  | O => []
  | S n' => (a mod 2 ^ 32) :: (if a / 2 ^ 32 =? 0 then [] else key_digits n' (a / 2 ^ 32))
  end.

(** [random_seed] for an [int] argument: the key is [abs(arg)]. *)
Definition seed (a : Z) : state :=
  let n := Z.abs a in
  init_by_array (key_digits (S (Z.to_nat (Z.log2 n / 32))) n).

(** Regenerating the [N] words in place: the three loops of
    [genrand_uint32] read [mt[kk+1]] and [mt[kk+M]] with the index wrapped
    at [N]. *)
Fixpoint twist (n : nat) (kk : nat) (m : list Z) : list Z :=
  match n with
  | O => m
  | S n' =>
      let y := Z.lor (Z.land (get m kk) UPPER_MASK)
                     (Z.land (get m ((kk + 1) mod N)) LOWER_MASK) in
      let mag := if Z.land y 1 =? 0 then 0 else MATRIX_A in
      let v := Z.lxor (Z.lxor (get m ((kk + M) mod N)) (Z.shiftr y 1)) mag in
      twist n' (S kk) (upd kk v m)
  end.

Definition temper (y : Z) : Z :=
  let y := Z.lxor y (Z.shiftr y 11) in
  let y := Z.lxor y (Z.land (shl32 y 7) 0x9d2c5680) in
  let y := Z.lxor y (Z.land (shl32 y 15) 0xefc60000) in
  Z.lxor y (Z.shiftr y 18).

Definition genrand_uint32 (s : state) : Z * state :=
  let s := if (N <=? index s)%nat then mkState (twist N 0 (mt s)) 0 else s in
  (temper (get (mt s) (index s)), mkState (mt s) (S (index s))).

Definition generator : Generator := mkGenerator state seed genrand_uint32.

End MT19937.

(** ** Exceptions and results *)

Inductive exn : Type :=
| ValueError (msg : string)
| IndexError (msg : string)
| BinasciiError (msg : string)
| HTTPException (status_code : Z) (detail : string).

(** [Diverge] stands for a loop of the runtime that has not finished within
    the iteration bound the model is run with. *)
Inductive outcome (A : Type) : Type :=
| Ok (a : A)
| Raise (e : exn)
| Diverge.

Arguments Ok {A} a.
Arguments Raise {A} e.
Arguments Diverge {A}.

(** ** Strings *)

Definition str_of_int (z : Z) : string :=
  DecimalString.NilZero.string_of_int (Z.to_int z).

Definition is_lower (c : ascii) : bool :=
  (97 <=? nat_of_ascii c)%nat && (nat_of_ascii c <=? 122)%nat.
Definition is_upper (c : ascii) : bool :=
  (65 <=? nat_of_ascii c)%nat && (nat_of_ascii c <=? 90)%nat.
Definition to_upper (c : ascii) : ascii :=
  if is_lower c then ascii_of_nat (nat_of_ascii c - 32) else c.
Definition to_lower (c : ascii) : ascii :=
  if is_upper c then ascii_of_nat (nat_of_ascii c + 32) else c.

Fixpoint lower (s : string) : string :=
  match s with
  | EmptyString => EmptyString
  | String c s' => String (to_lower c) (lower s')
  end.

(** [str.capitalize()] on ASCII text. *)
Definition capitalize (s : string) : string :=
  match s with
  | EmptyString => EmptyString
  | String c s' => String (to_upper c) (lower s')
  end.

Definition hex_value (c : ascii) : option Z :=
  let n := Z.of_nat (nat_of_ascii c) in
  if (48 <=? n) && (n <=? 57) then Some (n - 48)
  else if (97 <=? n) && (n <=? 102) then Some (n - 87)
  else if (65 <=? n) && (n <=? 70) then Some (n - 55)
  else None.

Fixpoint hex_accum (s : string) (acc : Z) : option Z :=
  match s with
  | EmptyString => Some acc
  | String c s' =>
      match hex_value c with
      | Some d => hex_accum s' (16 * acc + d)
      | None => None
      end
  end.

(** [int(s, 16)] on a string of hexadecimal digits. *)
Definition int_base16 (s : string) : outcome Z :=
  match s with
  | EmptyString =>
      Raise (ValueError "invalid literal for int() with base 16")
  | _ =>
      match hex_accum s 0 with
      | Some z => Ok z
      | None => Raise (ValueError "invalid literal for int() with base 16")
      end
  end.

(** [str(e)] *)
Definition str_exn (e : exn) : string :=
  match e with
  | ValueError msg => msg
  | IndexError msg => msg
  | BinasciiError msg => msg
  | HTTPException c d => (str_of_int c ++ ": " ++ d)%string
  end.

(** ** The [random] module

    The module-level functions share one hidden generator, which lives in
    the [world] and survives from one request to the next.  [draws] is a
    ghost record of the calls made on that generator, in program order. *)

Import Float64.

Inductive draw : Type :=
| DSeed (a : Z)
| DRandom (x : float)
| DRandint (a b : Z) (r : Z)
| DSample (n k : Z)
| DUniform (a b : float) (x : float).

Section Runtime.

Variable R : Generator.

(** Bound on the number of retries of one rejection loop of the runtime. *)
Variable fuel : nat.

Record world : Type := mkWorld { rng : gen R; draws : list draw }.

Definition Py (A : Type) : Type := world -> outcome A * world.

Definition ret {A : Type} (a : A) : Py A := fun w => (Ok a, w).

Definition bind {A B : Type} (m : Py A) (f : A -> Py B) : Py B :=
  fun w =>
    match m w with
    | (Ok a, w') => f a w'
    | (Raise e, w') => (Raise e, w')
    | (Diverge, w') => (Diverge, w')
    end.

Definition raise {A : Type} (e : exn) : Py A := fun w => (Raise e, w).

Definition lift {A : Type} (o : outcome A) : Py A := fun w => (o, w).

Notation "x <- m ;; k" := (bind m (fun x => k))
  (at level 61, m at next level, right associativity).

(** The generator returns a [uint32_t]. *)
Definition next32 (g : gen R) : Z * gen R :=
  let (x, g') := genrand_uint32 R g in (u32 x, g').

(** [random_random]: [(a*67108864.0+b)*(1.0/9007199254740992.0)]. *)
Definition genrand_res53 (g : gen R) : float * gen R :=
  let (x, g1) := next32 g in
  let a := Z.shiftr x 5 in
  let (y, g2) := next32 g1 in
  let b := Z.shiftr y 6 in
  (fmul (fadd (fmul (of_int a) (lit 67108864 0)) (of_int b))
        (fdiv (lit 1 0) (lit 9007199254740992 0)), g2).

(** [getrandbits(k)], [k > 0]: whole words, least significant first; the
    last word keeps its top bits. *)
Fixpoint getrandbits_words (words : nat) (k : Z) (g : gen R) : Z * gen R :=
  match words with
  | O => (0, g)
  | S n =>
      let (r, g1) := next32 g in
      let r := if k <? 32 then Z.shiftr r (32 - k) else r in
      let (hi, g2) := getrandbits_words n (k - 32) g1 in
      (r + 2 ^ 32 * hi, g2)
  end.

Definition getrandbits (k : Z) (g : gen R) : Z * gen R :=
  if k =? 0 then (0, g)
  else if k <=? 32 then
    let (r, g1) := next32 g in (Z.shiftr r (32 - k), g1)
  else getrandbits_words (Z.to_nat ((k - 1) / 32 + 1)) k g.

Definition bit_length (n : Z) : Z :=
  if n =? 0 then 0 else Z.log2 (Z.abs n) + 1.

(** [while r >= n: r = getrandbits(k)] *)
Fixpoint reject_loop (retries : nat) (n k r : Z) (g : gen R) : option (Z * gen R) :=
  if r <? n then Some (r, g)
  else
    match retries with
    | O => None
    | S retries' =>
        let (r', g') := getrandbits k g in
        reject_loop retries' n k r' g'
    end.

(** [_randbelow_with_getrandbits(n)] *)
Definition randbelow (n : Z) (g : gen R) : option (Z * gen R) :=
  let k := bit_length n in
  let (r, g1) := getrandbits k g in
  reject_loop fuel n k r g1.

Definition with_rng {A : Type} (f : gen R -> option (A * gen R)) : Py A :=
  fun w =>
    match f (rng w) with
    | Some (a, g) => (Ok a, mkWorld g (draws w))
    | None => (Diverge, w)
    end.

Definition log (d : draw) : Py unit :=
  fun w => (Ok tt, mkWorld (rng w) (draws w ++ [d])).

(** [random.seed(a)] for an [int]: the hidden generator is rebuilt from [a]
    alone. *)
Definition random_seed (a : Z) : Py unit :=
  fun w => (Ok tt, mkWorld (seed_int R a) (draws w ++ [DSeed a])).

(** [random.random()] *)
Definition random_random : Py float :=
  x <- with_rng (fun g => Some (genrand_res53 g)) ;;
  _ <- log (DRandom x) ;;
  ret x.

(** [randrange(start, stop)] with the default step. *)
Definition randrange (istart istop : Z) : Py Z :=
  let width := istop - istart in
  if 0 <? width then
    r <- with_rng (randbelow width) ;;
    ret (istart + r)
  else
    raise (ValueError ("empty range for randrange() (" ++ str_of_int istart
                       ++ ", " ++ str_of_int istop ++ ", " ++ str_of_int width ++ ")")).

(** [random.randint(a, b)] *)
Definition random_randint (a b : Z) : Py Z :=
  r <- randrange a (b + 1) ;;
  _ <- log (DRandint a b r) ;;
  ret r.

(** [pool[j]] *)
Definition getitem {A : Type} (l : list A) (j : Z) : Py A :=
  match (if j <? 0 then None else nth_error l (Z.to_nat j)) with
  | Some x => ret x
  | None => raise (IndexError "list index out of range")
  end.

(** The pool branch of [sample]: [i] runs over [range(k)], [m] is [n - i]. *)
Fixpoint sample_pool {A : Type} (k : nat) (m : Z) (pool : list A) : Py (list A) :=
  match k with
  | O => ret []
  | S k' =>
      j <- with_rng (randbelow m) ;;
      x <- getitem pool j ;;
      y <- getitem pool (m - 1) ;;
      rest <- sample_pool k' (m - 1) (upd (Z.to_nat j) y pool) ;;
      ret (x :: rest)
  end.

(** [while j in selected: j = randbelow(n)] *)
Fixpoint reselect (retries : nat) (n j : Z) (selected : list Z) : Py Z :=
  if existsb (Z.eqb j) selected then
    match retries with
    | O => lift Diverge
    | S retries' =>
        j' <- with_rng (randbelow n) ;;
        reselect retries' n j' selected
    end
  else ret j.

(** The set branch of [sample]. *)
Fixpoint sample_set {A : Type} (k : nat) (n : Z) (population : list A)
    (selected : list Z) : Py (list A) :=
  match k with
  | O => ret []
  | S k' =>
      j <- with_rng (randbelow n) ;;
      j <- reselect fuel n j selected ;;
      x <- getitem population j ;;
      rest <- sample_set k' n population (j :: selected) ;;
      ret (x :: rest)
  end.

(** [4 ** ceil(log(k * 3, 4))]: the least power of four above [3k]. *)
Definition set_table_size (k : Z) : Z := 4 ^ (Z.log2 (3 * k) / 2 + 1).

(** [random.sample(population, k)] *)
Definition random_sample {A : Type} (population : list A) (k : Z) : Py (list A) :=
  let n := Z.of_nat (List.length population) in
  if negb ((0 <=? k) && (k <=? n)) then
    raise (ValueError "Sample larger than population or is negative")
  else
    let setsize := if 5 <? k then 21 + set_table_size k else 21 in
    result <- (if n <=? setsize
               then sample_pool (Z.to_nat k) n population
               else sample_set (Z.to_nat k) n population []) ;;
    _ <- log (DSample n k) ;;
    ret result.

(** [random.uniform(a, b)]: [a + (b - a) * self.random()] *)
Definition random_uniform (a b : float) : Py float :=
  r <- with_rng (fun g => Some (genrand_res53 g)) ;;
  let x := fadd a (fmul (fsub b a) r) in
  _ <- log (DUniform a b x) ;;
  ret x.

End Runtime.

Arguments rng {R} w.
Arguments draws {R} w.
Arguments ret {R A} a.
Arguments bind {R A B} m f.
Arguments raise {R A} e.
Arguments lift {R A} o.

Notation "x <- m ;; k" := (bind m (fun x => k))
  (at level 61, m at next level, right associativity).

(** ** Data model *)

Inductive classification : Type := AI_GENERATED | HUMAN.

Record confidence_factors : Type := mkFactors {
  spectral_analysis : float;
  prosodic_features : float;
  artifact_detection : float
}.

Record explanation : Type := mkExplanation {
  primary_indicators : list string;
  language_specific_analysis : string;
  factors : confidence_factors
}.

Definition detection : Type := (classification * float * explanation)%type.

Definition ai_indicators : list string :=
  [ "Unnatural pitch consistency detected";
    "Spectral anomalies in high-frequency range";
    "Irregular breathing pattern intervals";
    "Phase coherence artifacts present";
    "Prosody smoothness exceeds human baseline" ]%string.

Definition human_indicators : list string :=
  [ "Natural voice tremor patterns detected";
    "Organic breathing sounds present";
    "Micro-variations in pitch consistent with human speech";
    "Formant transitions show natural articulatory movement";
    "Background noise characteristics indicate real recording" ]%string.

Definition SUPPORTED_LANGUAGES : list string :=
  [ "tamil"; "english"; "hindi"; "malayalam"; "telugu" ]%string.

Record AudioRequest : Type := mkRequest {
  audio_base64 : string;
  language : string
}.

Record DetectionResponse : Type := mkResponse {
  resp_classification : classification;
  resp_confidence : float;
  resp_language : string;
  processing_time_ms : float;
  audio_duration_seconds : float;
  resp_explanation : explanation
}.

Definition MP3_SYNC : bytes := [Byte.xff; Byte.xfb].
Definition ID3_TAG : bytes := [Byte.x49; Byte.x44; Byte.x33].

(** [int(hashlib.sha256(audio_bytes).hexdigest()[:16], 16)] *)
Definition fingerprint (audio_bytes : bytes) : outcome Z :=
  let audio_hash := SHA256.hexdigest audio_bytes in
  int_base16 (substring 0 16 audio_hash).

(** ** [m.py] *)

Module m_py.
Section Program.

Variable R : Generator.
Variable fuel : nat.

Definition mock_ai_detection (audio_bytes : bytes) (language : string) : Py R detection :=
  hash_value <- lift (fingerprint audio_bytes) ;;
  _ <- random_seed R hash_value ;;
  r <- random_random R ;;
  let is_ai := flt r (lit 6 1) in
  let classification := if is_ai then AI_GENERATED else HUMAN in
  confidence <-
    (if is_ai then
       r <- random_random R ;; ret (fadd (lit 75 2) (fmul r (lit 23 2)))
     else
       r <- random_random R ;; ret (fadd (lit 70 2) (fmul r (lit 25 2)))) ;;
  features_detected <-
    (if is_ai then
       k <- random_randint R fuel 2 3 ;; random_sample R fuel ai_indicators k
     else
       k <- random_randint R fuel 2 3 ;; random_sample R fuel human_indicators k) ;;
  let caption := (capitalize language ++ " phonetic patterns analyzed")%string in
  u1 <- random_uniform R (lit 7 1) (lit 95 2) ;;
  u2 <- random_uniform R (lit 65 2) (lit 92 2) ;;
  u3 <- random_uniform R (lit 70 2) (lit 98 2) ;;
  let explanation :=
    mkExplanation features_detected caption
      (mkFactors (round u1 3) (round u2 3) (round u3 3)) in
  ret (classification, round confidence 4, explanation).

End Program.
End m_py.

(** ** [main.py] *)

Module main_py.
Section Program.

Variable R : Generator.
Variable fuel : nat.

(** [os.getenv("VOICE_API_KEY")], non-empty once the module has loaded. *)
Variable VALID_API_KEY : string.

(** [base64.b64decode] *)
Variable b64decode : string -> outcome bytes.

Definition verify_api_key (api_key : string) : outcome unit :=
  if negb (String.eqb api_key VALID_API_KEY)
  then Raise (HTTPException 401 "Invalid API Key")
  else Ok tt.

Definition decode_audio (audio_base64 : string) : outcome (bytes * float) :=
  let body :=
    match b64decode audio_base64 with
    | Ok audio_bytes =>
        if negb (startswith audio_bytes MP3_SYNC) && negb (startswith audio_bytes ID3_TAG)
        then Raise (ValueError "Invalid MP3 format")
        else
          let file_size_kb := int_truediv (Z.of_nat (List.length audio_bytes)) 1024 in
          let estimated_duration := fdiv file_size_kb (of_int 16) in
          Ok (audio_bytes, estimated_duration)
    | Raise e => Raise e
    | Diverge => Diverge
    end in
  match body with
  | Raise e => Raise (HTTPException 400 ("Invalid audio data: " ++ str_exn e))
  | o => o
  end.

Definition mock_ai_detection (audio_bytes : bytes) (language : string) : Py R detection :=
  hash_value <- lift (fingerprint audio_bytes) ;;
  _ <- random_seed R hash_value ;;
  r <- random_random R ;;
  let is_ai := flt r (lit 6 1) in
  let classification := if is_ai then AI_GENERATED else HUMAN in
  confidence <-
    (if is_ai then
       r <- random_random R ;; ret (fadd (lit 75 2) (fmul r (lit 23 2)))
     else
       r <- random_random R ;; ret (fadd (lit 70 2) (fmul r (lit 25 2)))) ;;
  let indicators := if is_ai then ai_indicators else human_indicators in
  sampled <- random_sample R fuel indicators 3 ;;
  let caption := (capitalize language ++ " phonetic patterns analyzed")%string in
  u1 <- random_uniform R (lit 7 1) (lit 95 2) ;;
  u2 <- random_uniform R (lit 65 2) (lit 92 2) ;;
  u3 <- random_uniform R (lit 70 2) (lit 98 2) ;;
  let explanation :=
    mkExplanation sampled caption
      (mkFactors (round u1 3) (round u2 3) (round u3 3)) in
  ret (classification, round confidence 4, explanation).

(** [(t_end - t_start).total_seconds()], the readings in microseconds. *)
Definition total_seconds (t_start t_end : Z) : float :=
  int_truediv (t_end - t_start) (10 ^ 6).

(** The handler; [t_start] and [t_end] are the two readings of
    [datetime.utcnow()]. *)
Definition detect_voice (request : AudioRequest) (api_key : string)
    (t_start t_end : Z) : Py R DetectionResponse :=
  _ <- lift (verify_api_key api_key) ;;
  _ <- (if negb (existsb (String.eqb (language request)) SUPPORTED_LANGUAGES)
        then raise (HTTPException 400 "Unsupported language")
        else ret tt) ;;
  decoded <- lift (decode_audio (audio_base64 request)) ;;
  let (audio_bytes, duration) := decoded in
  result <- mock_ai_detection audio_bytes (language request) ;;
  let '(classification, confidence, explanation) := result in
  let processing_time := fmul (total_seconds t_start t_end) (of_int 1000) in
  ret (mkResponse classification confidence (language request)
         (round processing_time 2) (round duration 2) explanation).

End Program.
End main_py.

(** ** Vocabulary of the properties *)

(** One of the next [F] words of the generator has a clear top bit.  A
    word with a clear top bit ends every rejection loop of [randbelow]. *)
Fixpoint clear_within (R : Generator) (F : nat) (g : gen R) : Prop :=
  match F with
  | O => False
  | S F' =>
      fst (next32 R g) < 2 ^ 31 \/ clear_within R F' (snd (next32 R g))
  end.

(** The state of the generator after [n] words. *)
Fixpoint advance (R : Generator) (n : nat) (g : gen R) : gen R :=
  match n with
  | O => g
  | S n' => advance R n' (snd (next32 R g))
  end.

(** From [g] and from each of the [N] states that follow it, a word with a
    clear top bit comes within [F] words. *)
Definition clear_along (R : Generator) (F N : nat) (g : gen R) : Prop :=
  forall i : nat, (i <= N)%nat -> clear_within R F (advance R i g).

(** The generator seeded with the fingerprint of the payload has no run of
    [F] words with the top bit set among the words a detection can reach:
    four words for the two uniform draws, then at most four rejection
    loops of at most [F] words each. *)
Definition settles (R : Generator) (F : nat) (audio_bytes : bytes) : Prop :=
  exists h, fingerprint audio_bytes = Ok h /\
            clear_along R F (4 + 3 * F) (seed_int R h).

(** The same, as tests that can be run. *)
Fixpoint clear_within_b (R : Generator) (F : nat) (g : gen R) : bool :=
  match F with
  | O => false
  | S F' =>
      let (x, g') := next32 R g in
      (x <? 2 ^ 31) || clear_within_b R F' g'
  end.

Fixpoint clear_along_b (R : Generator) (F N : nat) (g : gen R) : bool :=
  clear_within_b R F g &&
  match N with
  | O => true
  | S N' => clear_along_b R F N' (snd (next32 R g))
  end.

Definition settles_b (R : Generator) (F : nat) (audio_bytes : bytes) : bool :=
  match fingerprint audio_bytes with
  | Ok h => clear_along_b R F (4 + 3 * F) (seed_int R h)
  | _ => false
  end.

(** A generator whose every word is zero. *)
Definition zero_generator : Generator :=
  mkGenerator unit (fun _ => tt) (fun g => (0, g)).

Inductive draw_kind : Type := KSeed | KRandom | KRandint | KSample | KUniform.

Definition kind_of (d : draw) : draw_kind :=
  match d with
  | DSeed _ => KSeed
  | DRandom _ => KRandom
  | DRandint _ _ _ => KRandint
  | DSample _ _ => KSample
  | DUniform _ _ _ => KUniform
  end.

(** Seeding, then: label discriminator, confidence offset, indicator
    count, indicator sample, three sub-score offsets. *)
Definition documented_order : list draw_kind :=
  [KSeed; KRandom; KRandom; KRandint; KSample; KUniform; KUniform; KUniform].

Definition catalog (c : classification) : list string :=
  match c with
  | AI_GENERATED => ai_indicators
  | HUMAN => human_indicators
  end.

Definition same_set (l1 l2 : list string) : Prop :=
  incl l1 l2 /\ incl l2 l1.

(** Equality of the (label, confidence, indicator set) triples. *)
Definition same_triple (r1 r2 : detection) : Prop :=
  let '(c1, conf1, e1) := r1 in
  let '(c2, conf2, e2) := r2 in
  c1 = c2 /\ conf1 = conf2 /\
  same_set (primary_indicators e1) (primary_indicators e2).

(** A detection without its caption. *)
Definition scores (r : detection) : classification * float * list string * confidence_factors :=
  let '(c, conf, e) := r in (c, conf, primary_indicators e, factors e).

Definition omap {A B : Type} (f : A -> B) (o : outcome A) : outcome B :=
  match o with
  | Ok a => Ok (f a)
  | Raise e => Raise e
  | Diverge => Diverge
  end.

(** Concrete requests. *)
Definition reference_payload : bytes := MP3_SYNC ++ repeat Byte.x00 1600.
Definition payload_3cfa : bytes := MP3_SYNC ++ [Byte.x00; Byte.x3c; Byte.xfa].
Definition payload_9c89 : bytes := MP3_SYNC ++ [Byte.x00; Byte.x9c; Byte.x89].
Definition payload_16k : bytes := MP3_SYNC ++ repeat Byte.x00 (Z.to_nat 16382).
Definition not_audio : bytes := [Byte.x52; Byte.x49; Byte.x46; Byte.x46].
Definition payload_82 : bytes := MP3_SYNC ++ repeat Byte.x00 80.

Definition mt_world : world MT19937.generator :=
  mkWorld MT19937.generator (MT19937.seed 0) [].
Definition zero_world : world zero_generator := mkWorld zero_generator tt [].

(** The quantities the specification names, as functions of the seed. *)
Section SeededDraws.

Variable R : Generator.

(** The first and the second uniform draw after [random.seed(h)]. *)
Definition draw1 (h : Z) : float :=
  fst (genrand_res53 R (seed_int R h)).
Definition draw2 (h : Z) : float :=
  fst (genrand_res53 R (snd (genrand_res53 R (seed_int R h)))).

End SeededDraws.

(** Label: below the threshold 0.6 is AI_GENERATED. *)
Definition label_of (d1 : float) : classification :=
  if flt d1 (lit 6 1) then AI_GENERATED else HUMAN.

(** Confidence: [0.75 + d2 * 0.23] or [0.70 + d2 * 0.25], to 4 decimals. *)
Definition confidence_of (c : classification) (d2 : float) : float :=
  match c with
  | AI_GENERATED => round (fadd (lit 75 2) (fmul d2 (lit 23 2))) 4
  | HUMAN => round (fadd (lit 70 2) (fmul d2 (lit 25 2))) 4
  end.

(** A sub-score: the draw [d] mapped into [[a, b]], to 3 decimals. *)
Definition subscore (a b d : float) : float :=
  round (fadd a (fmul (fsub b a) d)) 3.

Definition caption (language : string) : string :=
  (capitalize language ++ " phonetic patterns analyzed")%string.

(** The calls [m.py] makes on the generator, given the values drawn. *)
Definition m_py_draws (h : Z) (d1 d2 : float) (k : Z) (u1 u2 u3 : float) : list draw :=
  [ DSeed h; DRandom d1; DRandom d2; DRandint 2 3 k; DSample 5 k;
    DUniform (lit 7 1) (lit 95 2) (fadd (lit 7 1) (fmul (fsub (lit 95 2) (lit 7 1)) u1));
    DUniform (lit 65 2) (lit 92 2) (fadd (lit 65 2) (fmul (fsub (lit 92 2) (lit 65 2)) u2));
    DUniform (lit 70 2) (lit 98 2) (fadd (lit 70 2) (fmul (fsub (lit 98 2) (lit 70 2)) u3)) ].

(** The calls [main.py] makes: no indicator count is drawn. *)
Definition main_py_draws (h : Z) (d1 d2 : float) (u1 u2 u3 : float) : list draw :=
  [ DSeed h; DRandom d1; DRandom d2; DSample 5 3;
    DUniform (lit 7 1) (lit 95 2) (fadd (lit 7 1) (fmul (fsub (lit 95 2) (lit 7 1)) u1));
    DUniform (lit 65 2) (lit 92 2) (fadd (lit 65 2) (fmul (fsub (lit 92 2) (lit 65 2)) u2));
    DUniform (lit 70 2) (lit 98 2) (fadd (lit 70 2) (fmul (fsub (lit 98 2) (lit 70 2)) u3)) ].

(** The two entry points, side by side. *)
Inductive entry_point : Type := main_entry | m_entry.

Definition pipeline (ep : entry_point) (R : Generator) (fuel : nat) :
    bytes -> string -> Py R detection :=
  match ep with
  | main_entry => main_py.mock_ai_detection R fuel
  | m_entry => m_py.mock_ai_detection R fuel
  end.

(** The calls on the generator each entry point is expected to make. *)
Definition expected_draws (ep : entry_point) (h : Z) (d1 d2 : float) (k : Z)
    (u1 u2 u3 : float) : list draw :=
  match ep with
  | main_entry => main_py_draws h d1 d2 u1 u2 u3
  | m_entry => m_py_draws h d1 d2 k u1 u2 u3
  end.

Definition other (c : classification) : classification :=
  match c with
  | AI_GENERATED => HUMAN
  | HUMAN => AI_GENERATED
  end.

(** Two detections that differ at most in the caption, which is the one
    of language [l1] in the first and of [l2] in the second. *)
Definition same_but_caption (l1 l2 : string) (r1 r2 : detection) : Prop :=
  exists c conf ind f,
    r1 = (c, conf, mkExplanation ind (caption l1) f) /\
    r2 = (c, conf, mkExplanation ind (caption l2) f).

(** ** Relations between runs *)

Section RunRelations.

Variable R : Generator.

(** The ends of two runs: the same way out, related results, and the same
    hidden generator afterwards.  The ghost record of draws plays no
    part. *)
Definition post {A : Type} (RA : A -> A -> Prop) (r1 r2 : outcome A * world R) : Prop :=
  match fst r1, fst r2 with
  | Ok a1, Ok a2 => RA a1 a2 /\ rng (snd r1) = rng (snd r2)
  | Raise e1, Raise e2 => e1 = e2
  | Diverge, Diverge => True
  | _, _ => False
  end.

(** Two computations agree when, started with the same hidden generator,
    they end in [post]. *)
Definition agree {A : Type} (RA : A -> A -> Prop) (m1 m2 : Py R A) : Prop :=
  forall w1 w2, rng w1 = rng w2 -> post RA (m1 w1) (m2 w2).

(** [ends m P]: [m] never raises and every result satisfies [P]. *)
Definition ends {A : Type} (m : Py R A) (P : A -> Prop) : Prop :=
  forall w,
    match fst (m w) with
    | Ok a => P a
    | Raise _ => False
    | Diverge => True
    end.

(** The hidden generator is at most [i] words past [g0]. *)
Definition within (g0 : gen R) (i : nat) (w : world R) : Prop :=
  exists j : nat, (j <= i)%nat /\ rng w = advance R j g0.

(** [returns g0 i c m P]: started at most [i] words past [g0], [m] returns
    a result that satisfies [P], having drawn at most [c] words. *)
Definition returns (g0 : gen R) (i c : nat) {A : Type} (m : Py R A)
    (P : A -> Prop) : Prop :=
  forall w, within g0 i w ->
    exists a w', m w = (Ok a, w') /\ within g0 (i + c) w' /\ P a.

End RunRelations.

Arguments post {R A} RA r1 r2.
Arguments agree {R A} RA m1 m2.
Arguments ends {R A} m P.
Arguments within {R} g0 i w.
Arguments returns {R} g0 i c {A} m P.

(** The order [main.py] draws in: no indicator count. *)
Definition main_py_order : list draw_kind :=
  [KSeed; KRandom; KRandom; KSample; KUniform; KUniform; KUniform].

Definition order_of (ep : entry_point) : list draw_kind :=
  match ep with
  | main_entry => main_py_order
  | m_entry => documented_order
  end.

(** A decoder that answers every request with the same bytes. *)
Definition decode_to (payload : bytes) : string -> outcome bytes :=
  fun _ => Ok payload.

(** [m'] returns whatever [m] returns. *)
Definition refines {R : Generator} {A : Type} (m m' : Py R A) : Prop :=
  forall w a w', m w = (Ok a, w') -> m' w = (Ok a, w').

(** ** The rest of the two services

    Text is ASCII; [lower] is [str.lower()] on it. *)

(** Start-up of [main.py]: [os.getenv("VOICE_API_KEY")] must be set and
    not empty, or the module raises [RuntimeError]. *)
Inductive startup : Type :=
| Loaded (VALID_API_KEY : string)
| RuntimeError (msg : string).

Definition load_main_py (getenv : option string) : startup :=
  match getenv with
  | Some (String c k) => Loaded (String c k)
  | _ => RuntimeError "❌ VOICE_API_KEY environment variable is not set!"
  end.

(** The [Literal] of [AudioRequest.language]. *)
Definition AudioRequest_languages : list string :=
  [ "tamil"; "english"; "hindi"; "malayalam"; "telugu" ]%string.

(** Building an [AudioRequest] from the fields of the body: [audio_base64]
    is required, [language] defaults to "english" and must be one of the
    literals.  [None] is a validation error. *)
Definition AudioRequest_validate (audio : option string) (lang : option string) :
    option AudioRequest :=
  match audio with
  | None => None
  | Some a =>
      match lang with
      | None => Some (mkRequest a "english")
      | Some l =>
          if existsb (String.eqb l) AudioRequest_languages
          then Some (mkRequest a l)
          else None
      end
  end.

(** [confidence: float = Field(..., ge=0.0, le=1.0)] *)
Definition confidence_field_ok (r : DetectionResponse) : bool :=
  Qle_bool 0 (resp_confidence r) && Qle_bool (resp_confidence r) 1.

(** The handler registered for [HTTPException], the same in both files. *)
Record error_content : Type := mkErrorContent {
  error : string;
  status_code : Z;
  timestamp : string
}.

Record JSONResponse : Type := mkJSONResponse {
  json_status_code : Z;
  content : error_content
}.

Definition http_exception_handler (exc_status_code : Z) (exc_detail : string)
    (now_iso : string) : JSONResponse :=
  mkJSONResponse exc_status_code (mkErrorContent exc_detail exc_status_code now_iso).

(** What the client receives for one call of the endpoint: the response
    model, the JSON of the exception handler, or an error no handler is
    registered for. *)
Inductive reply : Type :=
| Reply200 (body : DetectionResponse)
| ReplyError (body : JSONResponse)
| Unhandled (e : exn)
| NoReply.

Definition reply_of (o : outcome DetectionResponse) (now_iso : string) : reply :=
  match o with
  | Ok r =>
      if confidence_field_ok r then Reply200 r
      else Unhandled (ValueError "validation error for DetectionResponse")
  | Raise (HTTPException c d) => ReplyError (http_exception_handler c d now_iso)
  | Raise e => Unhandled e
  | Diverge => NoReply
  end.

(** The HTTP status of a reply; FastAPI answers 500 when no handler is
    registered for the exception. *)
Definition http_status (r : reply) : option Z :=
  match r with
  | Reply200 _ => Some 200
  | ReplyError body => Some (json_status_code body)
  | Unhandled _ => Some 500
  | NoReply => None
  end.

(** [', '.join(l)] *)
Fixpoint join (sep : string) (l : list string) : string :=
  match l with
  | [] => EmptyString
  | [x] => x
  | x :: l' => (x ++ sep ++ join sep l')%string
  end.

(** ** [m.py]: the handler *)

Module m_py_handler.
Section Program.

Variable R : Generator.
Variable fuel : nat.

(** [base64.b64decode] *)
Variable b64decode : string -> outcome bytes.

Definition VALID_API_KEY : string := "hackathon_2024_voice_detection_key".

Definition verify_api_key (api_key : string) : outcome unit :=
  if negb (String.eqb api_key VALID_API_KEY)
  then Raise (HTTPException 401 "Invalid API key")
  else Ok tt.

Definition decode_audio (audio_base64 : string) : outcome (bytes * float) :=
  let body :=
    match b64decode audio_base64 with
    | Ok audio_bytes =>
        if negb (startswith audio_bytes MP3_SYNC) && negb (startswith audio_bytes ID3_TAG)
        then Raise (ValueError "Invalid MP3 format")
        else
          let file_size_kb := int_truediv (Z.of_nat (List.length audio_bytes)) 1024 in
          let estimated_duration := fdiv file_size_kb (of_int 16) in
          Ok (audio_bytes, estimated_duration)
    | Raise e => Raise e
    | Diverge => Diverge
    end in
  match body with
  | Raise e => Raise (HTTPException 400 ("Invalid audio data: " ++ str_exn e))
  | o => o
  end.

Definition detect_voice (request : AudioRequest) (api_key : string)
    (t_start t_end : Z) : Py R DetectionResponse :=
  _ <- lift (verify_api_key api_key) ;;
  _ <- (if negb (existsb (String.eqb (lower (language request))) SUPPORTED_LANGUAGES)
        then raise (HTTPException 400
                      ("Unsupported language. Supported: " ++ join ", " SUPPORTED_LANGUAGES))
        else ret tt) ;;
  decoded <- lift (decode_audio (audio_base64 request)) ;;
  let (audio_bytes, duration) := decoded in
  result <- m_py.mock_ai_detection R fuel audio_bytes (language request) ;;
  let '(classification, confidence, explanation) := result in
  let processing_time := fmul (main_py.total_seconds t_start t_end) (of_int 1000) in
  ret (mkResponse classification confidence (language request)
         (round processing_time 2) (round duration 2) explanation).

End Program.
End m_py_handler.

(** The handler of either file.  [key] is the key [main.py] loaded; [m.py]
    has its own. *)
Definition handler (ep : entry_point) (R : Generator) (fuel : nat) (key : string)
    (b64decode : string -> outcome bytes) :
    AudioRequest -> string -> Z -> Z -> Py R DetectionResponse :=
  match ep with
  | main_entry => main_py.detect_voice R fuel key b64decode
  | m_entry => m_py_handler.detect_voice R fuel b64decode
  end.

(** The language test of either handler. *)
Definition language_accepted (ep : entry_point) (l : string) : bool :=
  match ep with
  | main_entry => existsb (String.eqb l) SUPPORTED_LANGUAGES
  | m_entry => existsb (String.eqb (lower l)) SUPPORTED_LANGUAGES
  end.

Definition configured_key (ep : entry_point) (key : string) : string :=
  match ep with
  | main_entry => key
  | m_entry => m_py_handler.VALID_API_KEY
  end.

(** A response without the measured processing time. *)
Definition without_timing (r : DetectionResponse) :
    classification * float * string * float * explanation :=
  (resp_classification r, resp_confidence r, resp_language r,
   audio_duration_seconds r, resp_explanation r).

(** ** [base64]

    [base64.b64encode] and [base64.b64decode] of CPython 3.11 on ASCII
    text: [binascii.b2a_base64] without newline, and [binascii.a2b_base64]
    without [strict_mode], which skips every character outside the
    alphabet and stops at a complete pad. *)

Module base64.

Definition alphabet : string :=
  "ABCDEFGHIJKLMNOPQRSTUVWXYZabcdefghijklmnopqrstuvwxyz0123456789+/".

Definition digit (n : Z) : ascii :=
  match String.get (Z.to_nat n) alphabet with
  | Some c => c
  | None => "="%char
  end.

Fixpoint b64encode (s : bytes) : string :=
  match s with
  | [] => EmptyString
  | [a] =>
      let x := byte_val a in
      String (digit (x / 4)) (String (digit (x mod 4 * 16)) "==")
  | [a; b] =>
      let x := byte_val a in
      let y := byte_val b in
      String (digit (x / 4))
        (String (digit (x mod 4 * 16 + y / 16))
           (String (digit (y mod 16 * 4)) "="))
  | a :: b :: c :: s' =>
      let x := byte_val a in
      let y := byte_val b in
      let z := byte_val c in
      String (digit (x / 4))
        (String (digit (x mod 4 * 16 + y / 16))
           (String (digit (y mod 16 * 4 + z / 64))
              (String (digit (z mod 64)) (b64encode s'))))
  end.

(** [table_a2b_base64] *)
Definition value (c : ascii) : option Z :=
  let n := Z.of_nat (nat_of_ascii c) in
  if (65 <=? n) && (n <=? 90) then Some (n - 65)
  else if (97 <=? n) && (n <=? 122) then Some (n - 71)
  else if (48 <=? n) && (n <=? 57) then Some (n + 4)
  else if n =? 43 then Some 62
  else if n =? 47 then Some 63
  else None.

(** The loop of [a2b_base64]; [out] holds the bytes written so far, last
    first. *)
Fixpoint a2b_base64 (s : string) (quad_pos leftchar pads : Z) (out : list Z) :
    outcome (list Z) :=
  match s with
  | EmptyString =>
      if quad_pos =? 0 then Ok (rev out)
      else if quad_pos =? 1 then
        Raise (BinasciiError
                 ("Invalid base64-encoded string: number of data characters ("
                  ++ str_of_int (Z.of_nat (List.length out) / 3 * 4 + 1)
                  ++ ") cannot be 1 more than a multiple of 4"))
      else Raise (BinasciiError "Incorrect padding")
  | String c s' =>
      if Ascii.eqb c "="%char then
        if 2 <=? quad_pos then
          if 4 <=? quad_pos + (pads + 1) then Ok (rev out)
          else a2b_base64 s' quad_pos leftchar (pads + 1) out
        else a2b_base64 s' quad_pos leftchar pads out
      else
        match value c with
        | None => a2b_base64 s' quad_pos leftchar pads out
        | Some v =>
            if quad_pos =? 0 then a2b_base64 s' 1 v 0 out
            else if quad_pos =? 1 then
              a2b_base64 s' 2 (v mod 16) 0 ((leftchar * 4 + v / 16) :: out)
            else if quad_pos =? 2 then
              a2b_base64 s' 3 (v mod 4) 0 ((leftchar * 16 + v / 4) :: out)
            else a2b_base64 s' 0 0 0 ((leftchar * 64 + v) :: out)
        end
  end.

Fixpoint is_ascii (s : string) : bool :=
  match s with
  | EmptyString => true
  | String c s' => (nat_of_ascii c <? 128)%nat && is_ascii s'
  end.

Definition b64decode (s : string) : outcome bytes :=
  if is_ascii s then omap (map byte_of_Z) (a2b_base64 s 0 0 0 [])
  else Raise (ValueError "string argument should contain only ASCII characters").

End base64.

(** ** [t.py]: the test client *)

Module t_py.

Definition API_KEY : string := "hackathon_2024_voice_detection_key".

Definition mp3_header : bytes :=
  [ Byte.xff; Byte.xfb; Byte.x90; Byte.x64; Byte.x00; Byte.x00; Byte.x00; Byte.x00;
    Byte.x00; Byte.x00; Byte.x00; Byte.x00; Byte.x00; Byte.x00; Byte.x00; Byte.x00 ].

(** The bytes [create_sample_audio] writes: the header 100 times. *)
Definition sample_audio : bytes := List.concat (repeat mp3_header 100).

(** The body and the key header [test_detection] sends for a file.
    [b64encode] is [base64.b64encode(...).decode('utf-8')]. *)
Definition payload (b64encode : bytes -> string) (audio_bytes : bytes)
    (language : string) : AudioRequest :=
  mkRequest (b64encode audio_bytes) language.

End t_py.

(** The big-endian value of a byte string. *)
Definition be_value (l : bytes) : Z :=
  fold_left (fun acc b => 256 * acc + byte_val b) l 0.

(** The errors of the first two checks of either handler. *)
Definition auth_error (ep : entry_point) : exn :=
  match ep with
  | main_entry => HTTPException 401 "Invalid API Key"
  | m_entry => HTTPException 401 "Invalid API key"
  end.

Definition language_error (ep : entry_point) : exn :=
  match ep with
  | main_entry => HTTPException 400 "Unsupported language"
  | m_entry =>
      HTTPException 400
        ("Unsupported language. Supported: " ++ join ", " SUPPORTED_LANGUAGES)
  end.

(** The response [detect_voice] builds from a detection. *)
Definition assemble (lang : string) (t_start t_end : Z) (duration : float)
    (r : detection) : DetectionResponse :=
  let '(classification, confidence, explanation) := r in
  mkResponse classification confidence lang
    (round (fmul (main_py.total_seconds t_start t_end) (of_int 1000)) 2)
    (round duration 2) explanation.

Section RuntimeExamples.

Local Open Scope Z_scope.

(** ** The runtime model on known values *)

Example lit_one_tenth : lit 1 1 = (3602879701896397 # 36028797018963968)%Q.
Proof. vm_compute. reflexivity. Qed.

Example one_tenth_plus_two_tenths :
  fadd (lit 1 1) (lit 2 1) = (1351079888211149 # 4503599627370496)%Q.
Proof. vm_compute. reflexivity. Qed.

Example round_2675 : round (lit 2675 3) 2 = lit 267 2.
Proof. vm_compute. reflexivity. Qed.

Example round_half_to_even : round (lit 25 1) 0 = 2%Q /\ round (lit 125 3) 2 = lit 12 2.
Proof. split; vm_compute; reflexivity. Qed.

Example sha256_constants :
  nth 0 SHA256.K 0 = 0x428a2f98 /\ nth 63 SHA256.K 0 = 0xc67178f2 /\
  SHA256.ha SHA256.H0 = 0x6a09e667 /\ SHA256.hh SHA256.H0 = 0x5be0cd19.
Proof. vm_compute. repeat split. Qed.

Example sha256_abc :
  SHA256.hexdigest [Byte.x61; Byte.x62; Byte.x63] =
    "ba7816bf8f01cfea414140de5dae2223b00361a396177a9cb410ff61f20015ad"%string.
Proof. vm_compute. reflexivity. Qed.

Example mt19937_seed_12345 :
  fst (MT19937.genrand_uint32 (MT19937.seed 12345)) = 1789368711.
Proof. vm_compute. reflexivity. Qed.

(** [random.seed(12345)] followed by [random()], [randint(2, 3)],
    [sample(range(5), 3)] and [uniform(0.65, 0.92)], as CPython 3.11
    returns them. *)
Example random_module_after_seed_12345 :
  fst ((_ <- random_seed MT19937.generator 12345 ;;
        a <- random_random MT19937.generator ;;
        k <- random_randint MT19937.generator 16 2 3 ;;
        s <- random_sample MT19937.generator 16 [0; 1; 2; 3; 4] 3 ;;
        u <- random_uniform MT19937.generator (lit 65 2) (lit 92 2) ;;
        ret (a, k, s, u)) mt_world)
  = Ok ((938144551375171 # 2251799813685248)%Q, 2, [2; 4; 0],
        (6511899780863095 # 9007199254740992)%Q).
Proof. vm_compute. reflexivity. Qed.

Example fingerprint_reference : fingerprint reference_payload = Ok 0x05e9d6a9c9eacd8a.
Proof. vm_compute. reflexivity. Qed.

(** [base64.b64encode] and [base64.b64decode], as CPython 3.11 returns
    them: padding, skipped characters, data after a complete pad, and the
    two errors. *)
Example base64_known_values :
  base64.b64encode payload_3cfa = "//sAPPo="%string /\
  base64.b64encode [Byte.xff] = "/w=="%string /\
  base64.b64decode "//s8 +g==" = Ok [Byte.xff; Byte.xfb; Byte.x3c; Byte.xfa] /\
  base64.b64decode "//==s" = Ok [Byte.xff] /\
  base64.b64decode "//s" = Raise (BinasciiError "Incorrect padding") /\
  base64.b64decode "AAAAA" =
    Raise (BinasciiError
             "Invalid base64-encoded string: number of data characters (5) cannot be 1 more than a multiple of 4").
Proof. vm_compute. repeat split. Qed.

End RuntimeExamples.

Section RoundToInteger.

Local Open Scope Q_scope.

Lemma rne_mono (q1 q2 : Q) : q1 <= q2 -> (rne q1 <= rne q2)%Z.
Proof.
  intros H. unfold rne.
  pose proof (Qfloor_resp_le _ _ H) as Hf.
  pose proof (Qfloor_le q1). pose proof (Qlt_floor q1).
  pose proof (Qfloor_le q2). pose proof (Qlt_floor q2).
  destruct (Z.eq_dec (Qfloor q1) (Qfloor q2)) as [E | E].
  - rewrite <- E in *.
    destruct (Qcompare_spec (q1 - inject_Z (Qfloor q1)) (1 # 2));
    destruct (Qcompare_spec (q2 - inject_Z (Qfloor q1)) (1 # 2));
    destruct (Z.even (Qfloor q1)); try lia; exfalso; lra.
  - destruct (Qcompare_spec (q1 - inject_Z (Qfloor q1)) (1 # 2));
    destruct (Qcompare_spec (q2 - inject_Z (Qfloor q2)) (1 # 2));
    destruct (Z.even (Qfloor q1)); destruct (Z.even (Qfloor q2)); lia.
Qed.

Lemma rne_bounds (q : Q) : inject_Z (rne q) - (1 # 2) <= q /\ q <= inject_Z (rne q) + (1 # 2).
Proof.
  unfold rne.
  pose proof (Qfloor_le q) as H1. pose proof (Qlt_floor q) as H2.
  rewrite inject_Z_plus in H2. change (inject_Z 1) with 1 in H2.
  destruct (Qcompare_spec (q - inject_Z (Qfloor q)) (1 # 2));
    try destruct (Z.even (Qfloor q)); try rewrite inject_Z_plus;
    change (inject_Z 1) with 1; split; lra.
Qed.

Lemma rne_inject (z : Z) : rne (inject_Z z) = z.
Proof.
  unfold rne. rewrite Qfloor_Z.
  destruct (Qcompare_spec (inject_Z z - inject_Z z) (1 # 2)); try reflexivity; exfalso; lra.
Qed.

End RoundToInteger.

Section BinaryLogarithm.

Local Open Scope Q_scope.

Lemma pow2_pos (e : Z) : 0 < 2 ^ e.
Proof. apply Qpower_0_lt. reflexivity. Qed.

Lemma pow2_mono (e1 e2 : Z) : (e1 <= e2)%Z -> 2 ^ e1 <= 2 ^ e2.
Proof. intros H. apply Qpower_le_compat_l; [exact H | discriminate]. Qed.

Lemma pow2_succ (e : Z) : 2 ^ (e + 1) == 2 * 2 ^ e.
Proof. rewrite Qpower_plus by discriminate. change (2 ^ 1) with 2. ring. Qed.

Lemma pow2_lt_inv (e1 e2 : Z) : 2 ^ e1 < 2 ^ e2 -> (e1 < e2)%Z.
Proof.
  intros H. destruct (Z_lt_le_dec e1 e2) as [L | L]; [exact L | ].
  apply pow2_mono in L. exfalso. lra.
Qed.

Lemma pow2_frac (a b : Z) : (0 <= a)%Z -> (0 <= b)%Z ->
  2 ^ (a - b) == inject_Z (2 ^ a) / inject_Z (2 ^ b).
Proof.
  intros Ha Hb. rewrite Qpower_minus by discriminate.
  rewrite !Zpower_Qpower by assumption. reflexivity.
Qed.

Lemma ilog2_spec (x : Q) : 0 < x -> 2 ^ ilog2 x <= x /\ x < 2 ^ (ilog2 x + 1).
Proof.
  intros Hx. unfold ilog2.
  destruct x as [n d]. cbn [Qnum Qden].
  assert (Hn : (0 < n)%Z) by (unfold Qlt in Hx; simpl in Hx; lia).
  pose proof (Z.log2_spec n Hn) as [Ln Un].
  pose proof (Z.log2_spec (Zpos d) (Pos2Z.is_pos d)) as [Ld Ud].
  pose proof (Z.log2_nonneg n) as Pa. pose proof (Z.log2_nonneg (Zpos d)) as Pb.
  set (a := Z.log2 n) in *. set (b := Z.log2 (Zpos d)) in *.
  rewrite Z.pow_succ_r in Un, Ud by assumption.
  assert (HA : (0 < 2 ^ a)%Z) by (apply Z.pow_pos_nonneg; lia).
  assert (HB : (0 < 2 ^ b)%Z) by (apply Z.pow_pos_nonneg; lia).
  assert (E : 2 ^ (a - b) == inject_Z (2 ^ a) / inject_Z (2 ^ b)) by (apply pow2_frac; assumption).
  assert (X : n # d == inject_Z n / inject_Z (Zpos d)) by apply Qmake_Qdiv.
  assert (QA : 0 < inject_Z (2 ^ a)) by (change 0 with (inject_Z 0); rewrite <- Zlt_Qlt; exact HA).
  assert (QB : 0 < inject_Z (2 ^ b)) by (change 0 with (inject_Z 0); rewrite <- Zlt_Qlt; exact HB).
  assert (QD : 0 < inject_Z (Zpos d)) by reflexivity.
  assert (Q1 : inject_Z (2 ^ a) <= inject_Z n) by (rewrite <- Zle_Qle; exact Ln).
  assert (Q2 : inject_Z n < 2 * inject_Z (2 ^ a)).
  { change 2 with (inject_Z 2). rewrite <- inject_Z_mult, <- Zlt_Qlt. exact Un. }
  assert (Q3 : inject_Z (2 ^ b) <= inject_Z (Zpos d)) by (rewrite <- Zle_Qle; exact Ld).
  assert (Q4 : inject_Z (Zpos d) < 2 * inject_Z (2 ^ b)).
  { change 2 with (inject_Z 2). rewrite <- inject_Z_mult, <- Zlt_Qlt. exact Ud. }
  set (A := inject_Z (2 ^ a)) in *. set (B := inject_Z (2 ^ b)) in *.
  set (N := inject_Z n) in *. set (D := inject_Z (Zpos d)) in *.
  destruct (Qle_bool (2 ^ (a - b)) (n # d)) eqn:T.
  - apply Qle_bool_iff in T. split; [exact T | ].
    rewrite pow2_succ, E, X.
    apply Qlt_shift_div_r; [exact QD | ].
    setoid_replace (2 * (A / B) * D) with ((2 * A * D) / B) by (field; lra).
    apply Qlt_shift_div_l; [exact QB | ]. nra.
  - assert (T' : n # d < 2 ^ (a - b)).
    { apply Qnot_le_lt. intros C. apply Qle_bool_iff in C. congruence. }
    replace (a - b - 1 + 1)%Z with (a - b)%Z by lia. split; [ | exact T'].
    assert (S : 2 ^ (a - b) == 2 * 2 ^ (a - b - 1)).
    { rewrite <- pow2_succ. replace (a - b - 1 + 1)%Z with (a - b)%Z by lia. reflexivity. }
    assert (G : A / B <= 2 * (N / D)).
    { apply Qle_shift_div_r; [exact QB | ].
      setoid_replace (2 * (N / D) * B) with ((2 * N * B) / D) by (field; lra).
      apply Qle_shift_div_l; [exact QD | ]. nra. }
    rewrite X. rewrite E in S. lra.
Qed.

Lemma ilog2_unique (x : Q) (e : Z) : 2 ^ e <= x -> x < 2 ^ (e + 1) -> ilog2 x = e.
Proof.
  intros L U.
  assert (Hx : 0 < x) by (pose proof (pow2_pos e); lra).
  destruct (ilog2_spec x Hx) as [L' U'].
  assert (2 ^ e < 2 ^ (ilog2 x + 1)) by lra.
  assert (2 ^ ilog2 x < 2 ^ (e + 1)) by lra.
  apply pow2_lt_inv in H, H0. lia.
Qed.

Lemma ilog2_mono (x y : Q) : 0 < x -> x <= y -> (ilog2 x <= ilog2 y)%Z.
Proof.
  intros Hx H.
  destruct (ilog2_spec x Hx) as [L U].
  destruct (ilog2_spec y ltac:(lra)) as [L' U'].
  assert (K : 2 ^ ilog2 x < 2 ^ (ilog2 y + 1)) by lra.
  apply pow2_lt_inv in K. lia.
Qed.

End BinaryLogarithm.

Section RoundToNearest.

Local Open Scope Q_scope.

Lemma rne_proper (x y : Q) : x == y -> rne x = rne y.
Proof.
  intros E. unfold rne.
  rewrite (Qfloor_comp _ _ E).
  assert (C : Qcompare (x - inject_Z (Qfloor y)) (1 # 2) = Qcompare (y - inject_Z (Qfloor y)) (1 # 2)).
  { apply Qcompare_comp; [rewrite E; reflexivity | reflexivity]. }
  rewrite C. reflexivity.
Qed.

Lemma rne_nonneg (q : Q) : 0 <= q -> (0 <= rne q)%Z.
Proof. intros H. apply rne_mono in H. exact H. Qed.

Lemma pow2_split (e k : Z) : 2 ^ (e + k) == 2 ^ e * 2 ^ k.
Proof. apply Qpower_plus. discriminate. Qed.

(** The scaled significand of a positive number lies in [[2^52, 2^53)]. *)
Lemma scaled_bounds (x : Q) : 0 < x ->
  2 ^ 52 <= x / 2 ^ (ilog2 x - 52) /\ x / 2 ^ (ilog2 x - 52) < 2 ^ 53.
Proof.
  intros Hx. destruct (ilog2_spec x Hx) as [L U].
  pose proof (pow2_pos (ilog2 x - 52)) as P.
  replace (ilog2 x) with (ilog2 x - 52 + 52)%Z in L at 1 by lia.
  replace (ilog2 x + 1)%Z with (ilog2 x - 52 + 53)%Z in U by lia.
  rewrite pow2_split in L, U.
  split.
  - apply Qle_shift_div_l; [exact P | lra].
  - apply Qlt_shift_div_r; [exact P | lra].
Qed.

Lemma RN_pos (x : Q) : 0 < x ->
  RN x == inject_Z (rne (x / 2 ^ (ilog2 x - 52))) * 2 ^ (ilog2 x - 52).
Proof.
  intros Hx. unfold RN.
  destruct (Qeq_bool x 0) eqn:Z0.
  - apply Qeq_bool_iff in Z0. lra.
  - rewrite Qred_correct.
    assert (E : ilog2 (Qabs x) = ilog2 x).
    { destruct (ilog2_spec x Hx) as [L U].
      apply ilog2_unique; rewrite Qabs_pos by lra; assumption. }
    rewrite E. reflexivity.
Qed.

Lemma RN_zero (x : Q) : x == 0 -> RN x = 0.
Proof.
  intros E. unfold RN. apply Qeq_bool_iff in E. rewrite E. reflexivity.
Qed.

Lemma RN_nonneg (x : Q) : 0 <= x -> 0 <= RN x.
Proof.
  intros H. destruct (Qeq_dec x 0) as [E | E].
  - rewrite (RN_zero _ E). lra.
  - assert (Hx : 0 < x) by lra.
    rewrite (RN_pos _ Hx).
    destruct (scaled_bounds x Hx) as [L _].
    pose proof (pow2_pos (ilog2 x - 52)).
    assert (0 <= inject_Z (rne (x / 2 ^ (ilog2 x - 52)))).
    { change 0 with (inject_Z 0). rewrite <- Zle_Qle. apply rne_nonneg.
      pose proof (pow2_pos 52). lra. }
    nra.
Qed.

(** Rounding to nearest is monotone. *)
Lemma RN_mono (x y : Q) : 0 <= x -> x <= y -> RN x <= RN y.
Proof.
  intros H0 H.
  destruct (Qeq_dec x 0) as [E | E].
  { rewrite (RN_zero _ E). apply RN_nonneg. lra. }
  assert (Hx : 0 < x) by lra. assert (Hy : 0 < y) by lra.
  rewrite (RN_pos _ Hx), (RN_pos _ Hy).
  destruct (scaled_bounds x Hx) as [Lx Ux].
  destruct (scaled_bounds y Hy) as [Ly Uy].
  pose proof (ilog2_mono x y Hx H) as Hm.
  set (ex := (ilog2 x - 52)%Z) in *. set (ey := (ilog2 y - 52)%Z) in *.
  pose proof (pow2_pos ex) as Px. pose proof (pow2_pos ey) as Py.
  destruct (Z.eq_dec ex ey) as [Ee | Ne].
  - rewrite <- Ee in *.
    assert (K : (rne (x / 2 ^ ex) <= rne (y / 2 ^ ex))%Z).
    { apply rne_mono. apply Qle_shift_div_l; [exact Px | ].
      setoid_replace (x / 2 ^ ex * 2 ^ ex) with x by (field; lra). exact H. }
    rewrite Zle_Qle in K. nra.
  - assert (Hlt : (ex + 1 <= ey)%Z) by (unfold ex, ey in *; lia).
    assert (K1 : (rne (x / 2 ^ ex) <= 2 ^ 53)%Z).
    { rewrite <- (rne_inject (2 ^ 53)). apply rne_mono.
      rewrite Zpower_Qpower by lia. apply Qlt_le_weak. exact Ux. }
    assert (K2 : (2 ^ 52 <= rne (y / 2 ^ ey))%Z).
    { rewrite <- (rne_inject (2 ^ 52)). apply rne_mono.
      rewrite Zpower_Qpower by lia. exact Ly. }
    rewrite Zle_Qle in K1, K2.
    rewrite Zpower_Qpower in K1, K2 by lia.
    change (inject_Z 2) with 2 in K1, K2.
    apply pow2_mono in Hlt. rewrite pow2_succ in Hlt.
    assert (T : 2 ^ 53 == 2 * 2 ^ 52) by reflexivity.
    pose proof (pow2_pos 52).
    nra.
Qed.

Lemma RN_proper (x y : Q) : x == y -> RN x = RN y.
Proof.
  intros E. unfold RN.
  destruct (Qeq_bool x 0) eqn:Zx; destruct (Qeq_bool y 0) eqn:Zy; try reflexivity.
  - apply Qeq_bool_iff in Zx. rewrite E in Zx. apply Qeq_bool_iff in Zx. congruence.
  - apply Qeq_bool_iff in Zy. rewrite <- E in Zy. apply Qeq_bool_iff in Zy. congruence.
  - assert (Ax : 0 < Qabs x).
    { apply Qeq_bool_neq in Zx. pose proof (Qabs_nonneg x).
      destruct (Qeq_dec (Qabs x) 0) as [C | C]; [ | lra].
      exfalso. apply Zx.
      destruct (Qlt_le_dec x 0) as [Neg | Pos].
      - rewrite Qabs_neg in C by lra. lra.
      - rewrite Qabs_pos in C by lra. exact C. }
    assert (Ee : ilog2 (Qabs x) = ilog2 (Qabs y)).
    { assert (EA : Qabs x == Qabs y) by (apply Qabs_wd; exact E).
      symmetry. destruct (ilog2_spec _ Ax) as [L U].
      apply ilog2_unique; rewrite <- EA; assumption. }
    rewrite <- Ee.
    apply Qred_complete.
    rewrite (rne_proper (x / 2 ^ (ilog2 (Qabs x) - 52)) (y / 2 ^ (ilog2 (Qabs x) - 52))); [reflexivity | ].
    unfold Qdiv. apply Qmult_comp; [exact E | reflexivity].
Qed.

Lemma pow10_pos (n : Z) : 0 < 10 ^ n.
Proof. apply Qpower_0_lt. reflexivity. Qed.

(** [round(x, ndigits)] is monotone on non-negative floats. *)
Lemma round_mono (x y : Q) (n : Z) : 0 <= x -> x <= y -> round x n <= round y n.
Proof.
  intros H0 H. unfold round.
  pose proof (pow10_pos n) as P.
  assert (K : (rne (x * 10 ^ n) <= rne (y * 10 ^ n))%Z) by (apply rne_mono; nra).
  assert (K0 : (0 <= rne (x * 10 ^ n))%Z) by (apply rne_nonneg; nra).
  rewrite Zle_Qle in K, K0. change (inject_Z 0) with 0 in K0.
  apply RN_mono.
  - apply Qle_shift_div_l; [exact P | lra].
  - apply Qle_shift_div_l; [exact P | ].
    setoid_replace (inject_Z (rne (x * 10 ^ n)) / 10 ^ n * 10 ^ n)
      with (inject_Z (rne (x * 10 ^ n))) by (field; lra).
    exact K.
Qed.

End RoundToNearest.

Section DrawFacts.

Local Open Scope Z_scope.

(** ** The monad *)

Section RuntimeFacts.

Variable R : Generator.
Variable fuel : nat.

Lemma bind_ok_inv {A B : Type} (m : Py R A) (f : A -> Py R B) (w w' : world R) (b : B) :
  bind m f w = (Ok b, w') ->
  exists a w1, m w = (Ok a, w1) /\ f a w1 = (Ok b, w').
Proof.
  unfold bind. destruct (m w) as [[a | e | ] w1]; intros H; try discriminate.
  exists a, w1. split; [reflexivity | exact H].
Qed.

Lemma bind_raise_inv {A B : Type} (m : Py R A) (f : A -> Py R B) (w w' : world R) (e : exn) :
  bind m f w = (Raise e, w') ->
  m w = (Raise e, w') \/ exists a w1, m w = (Ok a, w1) /\ f a w1 = (Raise e, w').
Proof.
  unfold bind. destruct (m w) as [[a | e' | ] w1]; intros H; try discriminate.
  - right. exists a, w1. split; [reflexivity | exact H].
  - left. inversion H. reflexivity.
Qed.

(** ** Words and uniform draws *)

Lemma u32_range (x : Z) : 0 <= u32 x < 2 ^ 32.
Proof. unfold u32. apply Z.mod_pos_bound. reflexivity. Qed.

Lemma next32_range (g : gen R) : 0 <= fst (next32 R g) < 2 ^ 32.
Proof.
  unfold next32. destruct (genrand_uint32 R g) as [x g']. cbn [fst]. apply u32_range.
Qed.

Lemma shiftr_range (x n b : Z) : 0 <= n -> 0 <= x < 2 ^ (n + b) -> 0 <= b ->
  0 <= Z.shiftr x n < 2 ^ b.
Proof.
  intros Hn Hx Hb. rewrite Z.shiftr_div_pow2 by exact Hn.
  rewrite Z.pow_add_r in Hx by assumption.
  assert (0 < 2 ^ n) by (apply Z.pow_pos_nonneg; lia).
  split.
  - apply Z.div_pos; lia.
  - apply Z.div_lt_upper_bound; lia.
Qed.

Local Open Scope Q_scope.

Lemma RN_upper (x c : Q) : 0 <= x -> x <= c -> RN x <= RN c.
Proof. intros. apply RN_mono; assumption. Qed.

Lemma inject_Z_range (a lo hi : Z) : (lo <= a <= hi)%Z -> inject_Z lo <= inject_Z a <= inject_Z hi.
Proof. intros [H1 H2]. split; rewrite <- Zle_Qle; assumption. Qed.

(** [random.random()] returns a value in [[0, 1)]. *)
Lemma genrand_res53_range (g : gen R) :
  0 <= fst (genrand_res53 R g) /\ fst (genrand_res53 R g) < 1.
Proof.
  unfold genrand_res53.
  pose proof (next32_range g) as Hx.
  destruct (next32 R g) as [x g1]. cbn [fst] in Hx.
  pose proof (next32_range g1) as Hy.
  destruct (next32 R g1) as [y g2]. cbn [fst] in Hy |- *.
  assert (Ha : (0 <= Z.shiftr x 5 <= 2 ^ 27 - 1)%Z).
  { pose proof (shiftr_range x 5 27 ltac:(lia) Hx ltac:(lia)). lia. }
  assert (Hb : (0 <= Z.shiftr y 6 <= 2 ^ 26 - 1)%Z).
  { pose proof (shiftr_range y 6 26 ltac:(lia) Hy ltac:(lia)). lia. }
  apply inject_Z_range in Ha, Hb.
  unfold fmul, fadd, of_int.
  set (a := inject_Z (Z.shiftr x 5)) in *. set (b := inject_Z (Z.shiftr y 6)) in *.
  change (inject_Z 0) with 0 in Ha, Hb.
  assert (A1 : 0 <= RN a /\ RN a <= inject_Z (2 ^ 27 - 1)).
  { destruct Ha. split; [apply RN_nonneg; lra | ].
    apply Qle_trans with (RN (inject_Z (2 ^ 27 - 1))); [apply RN_mono; lra | ].
    vm_compute. discriminate. }
  assert (B1 : 0 <= RN b /\ RN b <= inject_Z (2 ^ 26 - 1)).
  { destruct Hb. split; [apply RN_nonneg; lra | ].
    apply Qle_trans with (RN (inject_Z (2 ^ 26 - 1))); [apply RN_mono; lra | ].
    vm_compute. discriminate. }
  assert (L1 : lit 67108864 0 == inject_Z (2 ^ 26)) by (vm_compute; reflexivity).
  assert (L2 : fdiv (lit 1 0) (lit 9007199254740992 0) == 1 / inject_Z (2 ^ 53)) by (vm_compute; reflexivity).
  fold (fdiv (lit 1 0) (lit 9007199254740992 0)).
  set (c26 := lit 67108864 0) in *. set (inv53 := fdiv (lit 1 0) (lit 9007199254740992 0)) in *.
  assert (P26 : c26 == 67108864) by (rewrite L1; reflexivity).
  assert (P27 : inject_Z (2 ^ 27 - 1) == 134217727) by reflexivity.
  assert (P26' : inject_Z (2 ^ 26 - 1) == 67108863) by reflexivity.
  assert (P53 : inv53 == (1 # 9007199254740992)) by (rewrite L2; reflexivity).
  clear L1 L2. clearbody c26 inv53.
  destruct A1 as [A1 A1']. destruct B1 as [B1 B1']. destruct Ha as [Ha Ha']. destruct Hb as [Hb Hb'].
  assert (A2 : 0 <= RN (RN a * c26) /\ RN (RN a * c26) <= 134217727 * 67108864).
  { split; [apply RN_nonneg; nra | ].
    apply Qle_trans with (RN (134217727 * 67108864)); [apply RN_mono; rewrite P26; lra | ].
    vm_compute. discriminate. }
  destruct A2 as [A2 A2'].
  assert (A3 : 0 <= RN (RN (RN a * c26) + RN b) /\ RN (RN (RN a * c26) + RN b) <= 9007199254740991).
  { split; [apply RN_nonneg; lra | ].
    apply Qle_trans with (RN 9007199254740991); [apply RN_mono; lra | ].
    vm_compute. discriminate. }
  destruct A3 as [A3 A3'].
  split; [apply RN_nonneg; rewrite P53; lra | ].
  apply Qle_lt_trans with (RN (9007199254740991 * (1 # 9007199254740992))).
  - apply RN_mono; rewrite P53; lra.
  - vm_compute. reflexivity.
Qed.

End RuntimeFacts.

End DrawFacts.

Section RandomModuleFacts.

Local Open Scope Z_scope.

Section RandbelowFacts.

Variable R : Generator.
Variable fuel : nat.

Lemma getrandbits_words_nonneg (n : nat) (k : Z) (g : gen R) :
  0 <= fst (getrandbits_words R n k g).
Proof.
  revert k g. induction n as [ | n IH]; intros k g; cbn [getrandbits_words fst]; [lia | ].
  pose proof (next32_range R g) as Hx.
  destruct (next32 R g) as [x g1]. cbn [fst] in Hx.
  specialize (IH (k - 32) g1).
  destruct (getrandbits_words R n (k - 32) g1) as [hi g2]. cbn [fst] in IH |- *.
  assert (0 <= (if k <? 32 then Z.shiftr x (32 - k) else x)).
  { destruct (k <? 32); [apply Z.shiftr_nonneg | ]; lia. }
  lia.
Qed.

Lemma getrandbits_nonneg (k : Z) (g : gen R) : 0 <= fst (getrandbits R k g).
Proof.
  unfold getrandbits.
  destruct (k =? 0); [cbn; lia | ].
  destruct (k <=? 32).
  - pose proof (next32_range R g) as Hx.
    destruct (next32 R g) as [x g1]. cbn [fst] in Hx |- *.
    apply Z.shiftr_nonneg. lia.
  - apply getrandbits_words_nonneg.
Qed.

Lemma reject_loop_range (retries : nat) (n k r : Z) (g : gen R) (r' : Z) (g' : gen R) :
  0 <= r -> reject_loop R retries n k r g = Some (r', g') -> 0 <= r' < n.
Proof.
  revert r g. induction retries as [ | m IH]; intros r g Hr; cbn [reject_loop].
  - destruct (Z.ltb_spec r n); intros E; inversion E; subst; lia.
  - destruct (Z.ltb_spec r n); intros E.
    + inversion E; subst; lia.
    + pose proof (getrandbits_nonneg k g) as Hn.
      destruct (getrandbits R k g) as [r1 g1]. cbn [fst] in Hn.
      eapply IH; eauto.
Qed.

(** [_randbelow(n)] returns a value in [[0, n)]. *)
Lemma randbelow_range (n : Z) (g : gen R) (r : Z) (g' : gen R) :
  randbelow R fuel n g = Some (r, g') -> 0 <= r < n.
Proof.
  unfold randbelow.
  pose proof (getrandbits_nonneg (bit_length n) g) as Hn.
  destruct (getrandbits R (bit_length n) g) as [r1 g1]. cbn [fst] in Hn.
  apply reject_loop_range. exact Hn.
Qed.

Lemma with_rng_ok_inv {A : Type} (f : gen R -> option (A * gen R)) (w w' : world R) (a : A) :
  with_rng R f w = (Ok a, w') ->
  exists g', f (rng w) = Some (a, g') /\ w' = mkWorld R g' (draws w).
Proof.
  unfold with_rng. destruct (f (rng w)) as [[a' g'] | ]; intros H; inversion H; subst.
  exists g'. split; reflexivity.
Qed.

Lemma with_rng_no_raise {A : Type} (f : gen R -> option (A * gen R)) (w w' : world R) (e : exn) :
  with_rng R f w <> (Raise e, w').
Proof.
  unfold with_rng. destruct (f (rng w)) as [[a' g'] | ]; discriminate.
Qed.

(** [random.random()] *)
Lemma random_random_run (w : world R) :
  random_random R w =
    (Ok (fst (genrand_res53 R (rng w))),
     mkWorld R (snd (genrand_res53 R (rng w)))
       (draws w ++ [DRandom (fst (genrand_res53 R (rng w)))])).
Proof.
  unfold random_random, bind, with_rng, log, ret.
  destruct (genrand_res53 R (rng w)) as [x g]. reflexivity.
Qed.

(** [random.uniform(a, b)] *)
Lemma random_uniform_run (a b : Q) (w : world R) :
  let r := fst (genrand_res53 R (rng w)) in
  let x := fadd a (fmul (fsub b a) r) in
  random_uniform R a b w =
    (Ok x, mkWorld R (snd (genrand_res53 R (rng w))) (draws w ++ [DUniform a b x])).
Proof.
  unfold random_uniform, bind, with_rng, log, ret.
  destruct (genrand_res53 R (rng w)) as [x g]. reflexivity.
Qed.

Lemma random_seed_run (a : Z) (w : world R) :
  random_seed R a w = (Ok tt, mkWorld R (seed_int R a) (draws w ++ [DSeed a])).
Proof. reflexivity. Qed.

(** [random.randint(a, b)] with [a <= b]. *)
Lemma random_randint_ok (a b : Z) (w w' : world R) (r : Z) :
  random_randint R fuel a b w = (Ok r, w') ->
  a <= r <= b /\
  exists g', randbelow R fuel (b + 1 - a) (rng w) = Some (r - a, g') /\
             w' = mkWorld R g' (draws w ++ [DRandint a b r]).
Proof.
  unfold random_randint, randrange. intros H.
  apply bind_ok_inv in H. destruct H as (r0 & w1 & H1 & H2).
  destruct (Z.ltb_spec 0 (b + 1 - a)); [ | discriminate].
  apply bind_ok_inv in H1. destruct H1 as (j & w2 & H1 & H3).
  apply with_rng_ok_inv in H1. destruct H1 as (g' & Hr & ->).
  unfold ret in H3. inversion H3; subst. clear H3.
  unfold bind, log, ret in H2. cbn in H2. inversion H2; subst. clear H2.
  pose proof (randbelow_range _ _ _ _ Hr).
  split; [lia | ].
  exists g'. split; [ | reflexivity].
  replace (a + j - a) with j by lia. exact Hr.
Qed.

Lemma random_randint_no_raise (a b : Z) (w w' : world R) (e : exn) :
  a <= b -> random_randint R fuel a b w <> (Raise e, w').
Proof.
  intros Hab H. unfold random_randint, randrange in H.
  destruct (Z.ltb_spec 0 (b + 1 - a)); [ | lia].
  apply bind_raise_inv in H. destruct H as [H | (r0 & w1 & H1 & H2)].
  - apply bind_raise_inv in H. destruct H as [H | (r0 & w1 & H1 & H2)].
    + revert H. apply with_rng_no_raise.
    + discriminate.
  - unfold bind, log, ret in H2. cbn in H2. discriminate.
Qed.

End RandbelowFacts.

End RandomModuleFacts.

Section SamplingFacts.

Local Open Scope Z_scope.

(** ** Lists updated in place *)

Lemma upd_length {A : Type} (i : nat) (v : A) (l : list A) :
  List.length (upd i v l) = List.length l.
Proof.
  revert i. induction l as [ | x l IH]; intros [ | i]; cbn; try reflexivity.
  rewrite IH. reflexivity.
Qed.

Lemma firstn_snoc {A : Type} (p : nat) (l : list A) (y : A) :
  nth_error l p = Some y -> firstn (S p) l = firstn p l ++ [y].
Proof.
  revert l. induction p as [ | p IH]; intros [ | x l] H; try discriminate.
  - cbn in H. inversion H. reflexivity.
  - cbn in H.
    change (firstn (S (S p)) (x :: l)) with (x :: firstn (S p) l).
    change (firstn (S p) (x :: l)) with (x :: firstn p l).
    rewrite (IH l H). reflexivity.
Qed.

(** One step of the pool loop: taking [pool[j]] and moving [pool[m-1]]
    into the vacancy leaves the other [m-1] live entries. *)
Lemma pool_step_perm {A : Type} (j p : nat) (pool : list A) (x y : A) :
  nth_error pool j = Some x -> nth_error pool p = Some y -> (j <= p)%nat ->
  Permutation (x :: firstn p (upd j y pool)) (firstn (S p) pool).
Proof.
  revert p pool. induction j as [ | j IH]; intros p pool Hx Hy Hle.
  - destruct pool as [ | h t]; [discriminate | ]. cbn in Hx. inversion Hx; subst h.
    destruct p as [ | p].
    + cbn in Hy. inversion Hy; subst. cbn. apply Permutation_refl.
    + cbn in Hy.
      change (Permutation (x :: y :: firstn p t) (x :: firstn (S p) t)).
      apply perm_skip.
      rewrite (firstn_snoc p t y Hy). apply Permutation_cons_append.
  - destruct pool as [ | h t]; [discriminate | ]. cbn in Hx.
    destruct p as [ | p]; [lia | ]. cbn in Hy.
    change (Permutation (x :: h :: firstn p (upd j y t)) (h :: firstn (S p) t)).
    eapply perm_trans; [apply perm_swap | ].
    apply perm_skip. apply IH; [assumption | assumption | lia].
Qed.

Section SampleFacts.

Variable R : Generator.
Variable fuel : nat.

Lemma getitem_ok_inv {A : Type} (l : list A) (j : Z) (w w' : world R) (x : A) :
  getitem R l j w = (Ok x, w') ->
  0 <= j /\ nth_error l (Z.to_nat j) = Some x /\ w' = w.
Proof.
  unfold getitem. destruct (Z.ltb_spec j 0).
  - discriminate.
  - destruct (nth_error l (Z.to_nat j)) as [y | ]; [ | discriminate].
    unfold ret. intros H'. inversion H'; subst. auto.
Qed.

Lemma getitem_in_range {A : Type} (l : list A) (j : Z) (w : world R) :
  0 <= j < Z.of_nat (List.length l) -> exists x, getitem R l j w = (Ok x, w).
Proof.
  intros Hj. unfold getitem. destruct (Z.ltb_spec j 0); [lia | ].
  destruct (nth_error l (Z.to_nat j)) as [y | ] eqn:E.
  - exists y. reflexivity.
  - apply nth_error_None in E. lia.
Qed.

(** The pool branch returns [k] entries taken from distinct positions of
    the first [m] entries of the pool. *)
Lemma sample_pool_ok {A : Type} (k : nat) (m : Z) (pool : list A) (w w' : world R) (l : list A) :
  sample_pool R fuel k m pool w = (Ok l, w') ->
  List.length l = k /\
  (exists rest, Permutation (l ++ rest) (firstn (Z.to_nat m) pool)) /\
  draws w' = draws w.
Proof.
  revert m pool w l. induction k as [ | k IH]; intros m pool w l H.
  - cbn in H. unfold ret in H. inversion H; subst. split; [reflexivity | ].
    split; [ | reflexivity]. exists (firstn (Z.to_nat m) pool). apply Permutation_refl.
  - cbn [sample_pool] in H.
    apply bind_ok_inv in H. destruct H as (j & w1 & Hj & H).
    apply with_rng_ok_inv in Hj. destruct Hj as (g' & Hr & ->).
    apply randbelow_range in Hr.
    apply bind_ok_inv in H. destruct H as (x & w2 & Hx & H).
    apply getitem_ok_inv in Hx. destruct Hx as (_ & Hx & ->).
    apply bind_ok_inv in H. destruct H as (y & w3 & Hy & H).
    apply getitem_ok_inv in Hy. destruct Hy as (_ & Hy & ->).
    apply bind_ok_inv in H. destruct H as (rest & w4 & Hrec & H).
    unfold ret in H. inversion H; subst. clear H.
    apply IH in Hrec. destruct Hrec as (Hlen & (tail & Hperm) & Hd).
    split; [cbn; rewrite Hlen; reflexivity | ].
    split; [ | exact Hd].
    exists tail. cbn [app].
    replace (Z.to_nat m) with (S (Z.to_nat (m - 1))) by lia.
    eapply perm_trans; [apply perm_skip; exact Hperm | ].
    apply pool_step_perm; [exact Hx | exact Hy | lia].
Qed.

Lemma sample_pool_no_raise {A : Type} (k : nat) (m : Z) (pool : list A) (w w' : world R) (e : exn) :
  Z.of_nat k <= m <= Z.of_nat (List.length pool) ->
  sample_pool R fuel k m pool w <> (Raise e, w').
Proof.
  revert m pool w. induction k as [ | k IH]; intros m pool w Hm H.
  - cbn in H. discriminate.
  - cbn [sample_pool] in H.
    apply bind_raise_inv in H. destruct H as [H | (j & w1 & Hj & H)].
    { revert H. apply with_rng_no_raise. }
    apply with_rng_ok_inv in Hj. destruct Hj as (g' & Hr & ->).
    apply randbelow_range in Hr.
    destruct (getitem_in_range pool j (mkWorld R g' (draws w)) ltac:(lia)) as (x & Ex).
    destruct (getitem_in_range pool (m - 1) (mkWorld R g' (draws w)) ltac:(lia)) as (y & Ey).
    unfold bind at 1 in H. rewrite Ex in H.
    unfold bind at 1 in H. rewrite Ey in H.
    apply bind_raise_inv in H. destruct H as [H | (rest & w2 & _ & H)].
    + revert H. apply IH. rewrite upd_length. lia.
    + discriminate.
Qed.

(** [random.sample] on a population of at most 21 entries. *)
Lemma random_sample_ok {A : Type} (population : list A) (k : Z) (w w' : world R) (l : list A) :
  (List.length population <= 21)%nat ->
  random_sample R fuel population k w = (Ok l, w') ->
  0 <= k <= Z.of_nat (List.length population) /\
  Z.of_nat (List.length l) = k /\
  (exists rest, Permutation (l ++ rest) population) /\
  draws w' = draws w ++ [DSample (Z.of_nat (List.length population)) k].
Proof.
  intros Hn H. unfold random_sample in H.
  set (n := Z.of_nat (List.length population)) in *.
  destruct (Z.leb_spec 0 k); destruct (Z.leb_spec k n); cbn [andb negb] in H; try discriminate.
  assert (Hb : (n <=? (if 5 <? k then 21 + set_table_size k else 21)) = true).
  { apply Z.leb_le. destruct (5 <? k); [ | lia].
    assert (0 <= set_table_size k) by (unfold set_table_size; apply Z.pow_nonneg; lia). lia. }
  rewrite Hb in H.
  apply bind_ok_inv in H. destruct H as (res & w1 & Hs & H).
  unfold bind, log, ret in H. cbn in H. inversion H; subst res w'. clear H.
  apply sample_pool_ok in Hs. destruct Hs as (Hlen & (rest & Hperm) & Hd).
  split; [lia | ]. split; [lia | ].
  split.
  - exists rest. replace (Z.to_nat n) with (List.length population) in Hperm by lia.
    rewrite firstn_all in Hperm. exact Hperm.
  - cbn [draws]. rewrite Hd. reflexivity.
Qed.

Lemma random_sample_no_raise {A : Type} (population : list A) (k : Z) (w w' : world R) (e : exn) :
  (List.length population <= 21)%nat ->
  0 <= k <= Z.of_nat (List.length population) ->
  random_sample R fuel population k w <> (Raise e, w').
Proof.
  intros Hn Hk H. unfold random_sample in H.
  set (n := Z.of_nat (List.length population)) in *.
  destruct (Z.leb_spec 0 k); destruct (Z.leb_spec k n); cbn [andb negb] in H; try lia.
  assert (Hb : (n <=? (if 5 <? k then 21 + set_table_size k else 21)) = true).
  { apply Z.leb_le. destruct (5 <? k); [ | lia].
    assert (0 <= set_table_size k) by (unfold set_table_size; apply Z.pow_nonneg; lia). lia. }
  rewrite Hb in H.
  apply bind_raise_inv in H. destruct H as [H | (res & w1 & _ & H)].
  - revert H. apply sample_pool_no_raise. lia.
  - unfold bind, log, ret in H. cbn in H. discriminate.
Qed.

Lemma sample_distinct {A : Type} (population l rest : list A) :
  NoDup population -> Permutation (l ++ rest) population ->
  NoDup l /\ incl l population.
Proof.
  intros Hnd Hp. split.
  - apply Permutation_sym in Hp. apply (Permutation_NoDup Hp) in Hnd.
    apply NoDup_app_remove_r in Hnd. exact Hnd.
  - intros x Hx. eapply Permutation_in; [exact Hp | ].
    apply in_or_app. left. exact Hx.
Qed.

End SampleFacts.

End SamplingFacts.

Section FingerprintFacts.

Local Open Scope Z_scope.

(** ** The fingerprint is always defined *)

Lemma hex_value_hex_digit (n : Z) : 0 <= n < 16 -> hex_value (SHA256.hex_digit n) = Some n.
Proof.
  intros H. rewrite <- (Z2Nat.id n) by lia.
  assert (Hm : (Z.to_nat n < 16)%nat) by lia.
  revert Hm. generalize (Z.to_nat n). intros m Hm.
  do 16 (destruct m as [ | m]; [reflexivity | ]). lia.
Qed.

Lemma byte_val_range (b : byte) : 0 <= byte_val b < 256.
Proof.
  unfold byte_val. pose proof (Byte.to_N_bounded b) as H. lia.
Qed.

Lemma hex_accum_hex (l : bytes) (acc : Z) : 0 <= acc ->
  exists z, hex_accum (SHA256.hex l) acc = Some z /\ 0 <= z.
Proof.
  revert acc. induction l as [ | b l IH]; intros acc Hacc.
  - exists acc. split; [reflexivity | exact Hacc].
  - pose proof (byte_val_range b) as Hb.
    cbn [SHA256.hex hex_accum].
    rewrite hex_value_hex_digit
      by (split; [apply Z.div_pos; lia | apply Z.div_lt_upper_bound; lia]).
    rewrite hex_value_hex_digit by (apply Z.mod_pos_bound; lia).
    apply IH.
    assert (0 <= byte_val b / 16) by (apply Z.div_pos; lia).
    assert (0 <= byte_val b mod 16) by (apply Z.mod_pos_bound; lia).
    lia.
Qed.

Lemma substring_hex (n : nat) (l : bytes) :
  substring 0 (2 * n) (SHA256.hex l) = SHA256.hex (firstn n l).
Proof.
  revert l. induction n as [ | n IH]; intros l.
  - destruct l; reflexivity.
  - destruct l as [ | b l]; [reflexivity | ].
    replace (2 * S n)%nat with (S (S (2 * n))) by lia.
    cbn [SHA256.hex firstn substring]. rewrite IH. reflexivity.
Qed.

Lemma be_bytes_length (n : nat) (x : Z) : List.length (SHA256.be_bytes n x) = n.
Proof.
  revert x. induction n as [ | n IH]; intros x; cbn [SHA256.be_bytes]; [reflexivity | ].
  rewrite length_app, IH. cbn. lia.
Qed.

Lemma digest_length (msg : bytes) : List.length (SHA256.digest msg) = 32%nat.
Proof.
  unfold SHA256.digest. rewrite length_map. cbn [flat_map].
  rewrite !length_app, !be_bytes_length. reflexivity.
Qed.

(** [int(audio_hash[:16], 16)] never raises. *)
Lemma fingerprint_ok (audio_bytes : bytes) : exists h, fingerprint audio_bytes = Ok h.
Proof.
  unfold fingerprint, SHA256.hexdigest.
  pose proof (digest_length audio_bytes) as Hlen.
  change 16%nat with (2 * 8)%nat. rewrite substring_hex.
  destruct (SHA256.digest audio_bytes) as [ | b l]; [discriminate | ].
  change (firstn 8 (b :: l)) with (b :: firstn 7 l).
  destruct (hex_accum_hex (b :: firstn 7 l) 0 ltac:(lia)) as (z & Hz & _).
  exists z. unfold int_base16. rewrite Hz. reflexivity.
Qed.

End FingerprintFacts.

Section RangeFacts.

Local Open Scope Q_scope.

(** ** Ranges of the affine maps of a draw *)

(** [a + d * s] for a draw [d] in [[0, 1)]. *)
Lemma offset_scale_range (a s d : Q) : 0 <= a -> 0 <= s -> 0 <= d -> d < 1 ->
  RN a <= fadd a (fmul d s) /\ fadd a (fmul d s) <= RN (a + RN s).
Proof.
  intros Ha Hs Hd Hd1. unfold fadd, fmul.
  assert (P0 : 0 <= RN (d * s)) by (apply RN_nonneg; nra).
  assert (P1 : RN (d * s) <= RN s) by (apply RN_mono; nra).
  split; apply RN_mono; lra.
Qed.

(** [a + s * d], the order [random.uniform] multiplies in. *)
Lemma offset_scale_range' (a s d : Q) : 0 <= a -> 0 <= s -> 0 <= d -> d < 1 ->
  RN a <= fadd a (fmul s d) /\ fadd a (fmul s d) <= RN (a + RN s).
Proof.
  intros Ha Hs Hd Hd1. unfold fadd, fmul.
  assert (P0 : 0 <= RN (s * d)) by (apply RN_nonneg; nra).
  assert (P1 : RN (s * d) <= RN s) by (apply RN_mono; nra).
  split; apply RN_mono; lra.
Qed.

Lemma confidence_ai_range (d : Q) : 0 <= d -> d < 1 ->
  lit 75 2 <= round (fadd (lit 75 2) (fmul d (lit 23 2))) 4 /\
  round (fadd (lit 75 2) (fmul d (lit 23 2))) 4 <= lit 98 2.
Proof.
  intros Hd Hd1.
  assert (Ha : 0 <= lit 75 2) by (vm_compute; discriminate).
  assert (Hs : 0 <= lit 23 2) by (vm_compute; discriminate).
  destruct (offset_scale_range (lit 75 2) (lit 23 2) d Ha Hs Hd Hd1) as [L U].
  assert (H0 : 0 <= RN (lit 75 2)) by (vm_compute; discriminate).
  split.
  - apply Qle_trans with (round (RN (lit 75 2)) 4); [vm_compute; discriminate | ].
    apply round_mono; assumption.
  - apply Qle_trans with (round (RN (lit 75 2 + RN (lit 23 2))) 4); [ | vm_compute; discriminate].
    apply round_mono; lra.
Qed.

Lemma confidence_human_range (d : Q) : 0 <= d -> d < 1 ->
  lit 70 2 <= round (fadd (lit 70 2) (fmul d (lit 25 2))) 4 /\
  round (fadd (lit 70 2) (fmul d (lit 25 2))) 4 <= lit 95 2.
Proof.
  intros Hd Hd1.
  assert (Ha : 0 <= lit 70 2) by (vm_compute; discriminate).
  assert (Hs : 0 <= lit 25 2) by (vm_compute; discriminate).
  destruct (offset_scale_range (lit 70 2) (lit 25 2) d Ha Hs Hd Hd1) as [L U].
  assert (H0 : 0 <= RN (lit 70 2)) by (vm_compute; discriminate).
  split.
  - apply Qle_trans with (round (RN (lit 70 2)) 4); [vm_compute; discriminate | ].
    apply round_mono; assumption.
  - apply Qle_trans with (round (RN (lit 70 2 + RN (lit 25 2))) 4); [ | vm_compute; discriminate].
    apply round_mono; lra.
Qed.

(** A rounded sub-score [round(a + (b - a) * d, 3)] stays in [[lo, hi]]
    as soon as the two end points do. *)
Lemma subscore_range (a b d lo hi : Q) : 0 <= a -> 0 <= fsub b a -> 0 <= d -> d < 1 ->
  lo <= round (RN a) 3 -> round (RN (a + RN (fsub b a))) 3 <= hi ->
  lo <= round (fadd a (fmul (fsub b a) d)) 3 /\
  round (fadd a (fmul (fsub b a) d)) 3 <= hi.
Proof.
  intros Ha Hs Hd Hd1 Hlo Hhi.
  destruct (offset_scale_range' a (fsub b a) d Ha Hs Hd Hd1) as [L U].
  assert (H0 : 0 <= RN a) by (apply RN_nonneg; exact Ha).
  split.
  - apply Qle_trans with (round (RN a) 3); [exact Hlo | ].
    apply round_mono; assumption.
  - apply Qle_trans with (round (RN (a + RN (fsub b a))) 3); [ | exact Hhi].
    apply round_mono; lra.
Qed.

Lemma spectral_range (d : Q) : 0 <= d -> d < 1 ->
  lit 70 2 <= round (fadd (lit 7 1) (fmul (fsub (lit 95 2) (lit 7 1)) d)) 3 /\
  round (fadd (lit 7 1) (fmul (fsub (lit 95 2) (lit 7 1)) d)) 3 <= lit 95 2.
Proof.
  intros. apply subscore_range; try assumption; vm_compute; discriminate.
Qed.

Lemma prosodic_range (d : Q) : 0 <= d -> d < 1 ->
  lit 65 2 <= round (fadd (lit 65 2) (fmul (fsub (lit 92 2) (lit 65 2)) d)) 3 /\
  round (fadd (lit 65 2) (fmul (fsub (lit 92 2) (lit 65 2)) d)) 3 <= lit 92 2.
Proof.
  intros. apply subscore_range; try assumption; vm_compute; discriminate.
Qed.

Lemma artifact_range (d : Q) : 0 <= d -> d < 1 ->
  lit 70 2 <= round (fadd (lit 70 2) (fmul (fsub (lit 98 2) (lit 70 2)) d)) 3 /\
  round (fadd (lit 70 2) (fmul (fsub (lit 98 2) (lit 70 2)) d)) 3 <= lit 98 2.
Proof.
  intros. apply subscore_range; try assumption; vm_compute; discriminate.
Qed.

End RangeFacts.

Section ExactFacts.

Local Open Scope Q_scope.

(** ** Exact operations *)

Lemma pow2_nonzero (e : Z) : ~ 2 ^ e == 0.
Proof. pose proof (pow2_pos e). lra. Qed.

Lemma pow2_div (a b : Z) : 2 ^ a / 2 ^ b == 2 ^ (a - b).
Proof. rewrite Qpower_minus by discriminate. reflexivity. Qed.

(** A value with a significand below [2^53] is not changed by rounding. *)
Lemma RN_exact (m e : Z) : (0 < m < 2 ^ 53)%Z ->
  RN (inject_Z m * 2 ^ e) == inject_Z m * 2 ^ e.
Proof.
  intros [Hm0 Hm].
  pose proof (pow2_pos e) as Pe.
  assert (Qm0 : 0 < inject_Z m) by (change 0 with (inject_Z 0); rewrite <- Zlt_Qlt; exact Hm0).
  assert (Qm : inject_Z m < 2 ^ 53).
  { rewrite <- (Zpower_Qpower 2 53) by lia. rewrite <- Zlt_Qlt. exact Hm. }
  set (x := inject_Z m * 2 ^ e).
  assert (Hx : 0 < x) by (unfold x; nra).
  rewrite (RN_pos x Hx).
  destruct (ilog2_spec x Hx) as [L U].
  assert (HE : (ilog2 x - 52 <= e)%Z).
  { assert (K : 2 ^ ilog2 x < 2 ^ (e + 53)).
    { rewrite pow2_split. unfold x in L.
      assert (inject_Z m * 2 ^ e < 2 ^ 53 * 2 ^ e) by (apply Qmult_lt_compat_r; assumption).
      apply Qle_lt_trans with (inject_Z m * 2 ^ e); [exact L | ].
      setoid_replace (2 ^ e * 2 ^ 53) with (2 ^ 53 * 2 ^ e) by ring. assumption. }
    apply pow2_lt_inv in K. lia. }
  set (E := (ilog2 x - 52)%Z) in *.
  assert (S : x / 2 ^ E == inject_Z (m * 2 ^ (e - E))).
  { rewrite inject_Z_mult. rewrite Zpower_Qpower by lia. change (inject_Z 2) with 2.
    rewrite <- pow2_div. unfold x. field. apply pow2_nonzero. }
  rewrite (rne_proper _ _ S), rne_inject.
  rewrite inject_Z_mult. rewrite Zpower_Qpower by lia. change (inject_Z 2) with 2.
  rewrite <- pow2_div. unfold x. field. apply pow2_nonzero.
Qed.

(** Scaling by a power of two commutes with rounding. *)
Lemma RN_scale (x : Q) (k : Z) : 0 < x -> RN (x * 2 ^ k) == RN x * 2 ^ k.
Proof.
  intros Hx.
  pose proof (pow2_pos k) as Pk.
  assert (Hy : 0 < x * 2 ^ k) by nra.
  destruct (ilog2_spec x Hx) as [L U].
  assert (El : ilog2 (x * 2 ^ k) = (ilog2 x + k)%Z).
  { apply ilog2_unique.
    - rewrite pow2_split. nra.
    - replace (ilog2 x + k + 1)%Z with (ilog2 x + 1 + k)%Z by lia. rewrite pow2_split. nra. }
  rewrite (RN_pos _ Hy), (RN_pos _ Hx), El.
  replace (ilog2 x + k - 52)%Z with (ilog2 x - 52 + k)%Z by lia.
  set (E := (ilog2 x - 52)%Z).
  assert (S : x * 2 ^ k / 2 ^ (E + k) == x / 2 ^ E).
  { rewrite pow2_split. field. split; apply pow2_nonzero. }
  rewrite (rne_proper _ _ S). rewrite pow2_split. ring.
Qed.

(** Rounding twice is rounding once. *)
Lemma RN_idem (x : Q) : 0 <= x -> RN (RN x) == RN x.
Proof.
  intros H0. destruct (Qeq_dec x 0) as [E0 | N0].
  { rewrite (RN_zero x E0). reflexivity. }
  assert (Hx : 0 < x) by lra.
  pose proof (RN_pos x Hx) as Ex.
  destruct (scaled_bounds x Hx) as [Lb Ub].
  set (E := (ilog2 x - 52)%Z) in *.
  set (M := rne (x / 2 ^ E)) in *.
  assert (M52 : (2 ^ 52 <= M)%Z).
  { unfold M. rewrite <- (rne_inject (2 ^ 52)). apply rne_mono.
    rewrite Zpower_Qpower by lia. exact Lb. }
  assert (M53 : (M <= 2 ^ 53)%Z).
  { unfold M. rewrite <- (rne_inject (2 ^ 53)). apply rne_mono.
    rewrite Zpower_Qpower by lia. apply Qlt_le_weak. exact Ub. }
  rewrite (RN_proper _ _ Ex).
  destruct (Z.eq_dec M (2 ^ 53)) as [Top | NTop].
  - rewrite Top in *.
    assert (T : inject_Z (2 ^ 53) * 2 ^ E == inject_Z (2 ^ 52) * 2 ^ (E + 1)).
    { rewrite pow2_succ. rewrite !Zpower_Qpower by lia. change (inject_Z 2) with 2.
      assert (P : 2 ^ 53 == 2 * 2 ^ 52) by reflexivity. rewrite P. ring. }
    rewrite (RN_proper _ _ T), RN_exact by lia. rewrite Ex, T. reflexivity.
  - rewrite RN_exact by lia. rewrite Ex. reflexivity.
Qed.

(** [(n / 1024) / 16] is the float nearest to [n / 16384], and that
    quotient itself below [2^53]. *)
Lemma duration_value (n : Z) : (0 <= n)%Z ->
  fdiv (int_truediv n 1024) (of_int 16) == RN (inject_Z n / 16384) /\
  ((n < 2 ^ 53)%Z -> fdiv (int_truediv n 1024) (of_int 16) == inject_Z n / 16384).
Proof.
  intros Hn.
  assert (S16 : of_int 16 == 16) by (vm_compute; reflexivity).
  destruct (Z.eq_dec n 0) as [-> | Nz].
  { split; [vm_compute; reflexivity | intros _; vm_compute; reflexivity]. }
  assert (Qn : 0 < inject_Z n).
  { change 0 with (inject_Z 0). rewrite <- Zlt_Qlt. lia. }
  set (x := inject_Z n) in *.
  assert (P10 : 2 ^ (-10) == 1 / 1024) by reflexivity.
  assert (P14 : 2 ^ (-14) == 1 / 16384) by reflexivity.
  assert (P4 : 2 ^ (-4) == 1 / 16) by reflexivity.
  assert (Rx : 0 < RN x).
  { apply Qlt_le_trans with (RN 1); [vm_compute; reflexivity | ].
    apply RN_mono; [lra | ]. unfold x. change 1 with (inject_Z 1). rewrite <- Zle_Qle. lia. }
  assert (A : int_truediv n 1024 == RN x * 2 ^ (-10)).
  { unfold int_truediv. fold x. rewrite <- RN_scale by exact Qn.
    rewrite (RN_proper (x / inject_Z 1024) (x * 2 ^ (-10))); [reflexivity | ].
    rewrite P10. change (inject_Z 1024) with 1024. field. }
  assert (D : fdiv (int_truediv n 1024) (of_int 16) == RN x * 2 ^ (-14)).
  { unfold fdiv.
    rewrite (RN_proper (int_truediv n 1024 / of_int 16) (RN x * 2 ^ (-14))).
    - rewrite RN_scale by exact Rx. rewrite RN_idem by lra. reflexivity.
    - rewrite A, S16, P10, P14. field. }
  split.
  - rewrite D. rewrite <- RN_scale by exact Qn.
    rewrite (RN_proper (x * 2 ^ (-14)) (x / 16384)); [reflexivity | ].
    rewrite P14. field.
  - intros Hlt. rewrite D.
    pose proof (RN_exact n 0 ltac:(lia)) as Ex.
    assert (Ex' : RN x == x).
    { rewrite (RN_proper x (inject_Z n * 2 ^ 0)); [rewrite Ex | ]; unfold x; change (2 ^ 0) with 1; ring. }
    rewrite Ex', P14. field.
Qed.

Lemma round_proper (x y : Q) (n : Z) : x == y -> round x n = round y n.
Proof.
  intros E. unfold round.
  rewrite (rne_proper (x * 10 ^ n) (y * 10 ^ n)); [reflexivity | ].
  rewrite E. reflexivity.
Qed.

End ExactFacts.

Section RunFacts.

Local Open Scope Z_scope.

Lemma catalog_length (c : classification) : List.length (catalog c) = 5%nat.
Proof. destruct c; reflexivity. Qed.

Lemma catalog_NoDup (c : classification) : NoDup (catalog c).
Proof.
  destruct c; cbn [catalog]; unfold ai_indicators, human_indicators;
    repeat (constructor; [cbn [In]; intros H; repeat (destruct H as [H | H]; [discriminate H | ]); exact H | ]);
    constructor.
Qed.

Section PipelineFacts.

Variable R : Generator.
Variable fuel : nat.

Lemma ok_pair_inv {A : Type} (a b : A) (w w' : world R) :
  (Ok a, w) = (Ok b, w') -> a = b /\ w = w'.
Proof. intros H. inversion H. split; reflexivity. Qed.

Tactic Notation "step" hyp(H) "as" ident(a) ident(w) ident(E) :=
  apply bind_ok_inv in H; destruct H as (a & w & E & H).

(** Everything a successful run of [m.py]'s pipeline determines. *)
Lemma m_py_ok_inv (audio_bytes : bytes) (lang : string) (w w' : world R)
    (c : classification) (conf : Q) (e : explanation) :
  m_py.mock_ai_detection R fuel audio_bytes lang w = (Ok (c, conf, e), w') ->
  exists h k u1 u2 u3,
    fingerprint audio_bytes = Ok h /\
    c = label_of (draw1 R h) /\
    conf = confidence_of c (draw2 R h) /\
    2 <= k <= 3 /\
    Z.of_nat (List.length (primary_indicators e)) = k /\
    (exists rest, Permutation (primary_indicators e ++ rest) (catalog c)) /\
    language_specific_analysis e = caption lang /\
    (0 <= u1 < 1 /\ 0 <= u2 < 1 /\ 0 <= u3 < 1)%Q /\
    factors e = mkFactors (subscore (lit 7 1) (lit 95 2) u1)
                          (subscore (lit 65 2) (lit 92 2) u2)
                          (subscore (lit 70 2) (lit 98 2) u3) /\
    draws w' = draws w ++ m_py_draws h (draw1 R h) (draw2 R h) k u1 u2 u3.
Proof.
  unfold m_py.mock_ai_detection. intros H.
  step H as h w0 E. unfold lift in E.
  assert (Hfp : fingerprint audio_bytes = Ok h) by (inversion E; reflexivity).
  assert (w0 = w) by (inversion E; reflexivity). subst w0. clear E.
  step H as u w1 E. rewrite random_seed_run in E.
  apply ok_pair_inv in E. destruct E as [_ <-]. clear u.
  step H as d1 w1 E. rewrite random_random_run in E.
  apply ok_pair_inv in E. destruct E as [<- <-].
  cbn [rng draws] in H.
  fold (draw1 R h) in H.
  set (g1 := snd (genrand_res53 R (seed_int R h))) in *.
  step H as cf w2 E.
  assert (Ea : cf = (if flt (draw1 R h) (lit 6 1)
                     then fadd (lit 75 2) (fmul (draw2 R h) (lit 23 2))
                     else fadd (lit 70 2) (fmul (draw2 R h) (lit 25 2))) /\
               w2 = mkWorld R (snd (genrand_res53 R g1))
                      (((draws w ++ [DSeed h]) ++ [DRandom (draw1 R h)]) ++ [DRandom (draw2 R h)])).
  { destruct (flt (draw1 R h) (lit 6 1)); step E as d2 w3 E2;
      rewrite random_random_run in E2; apply ok_pair_inv in E2; destruct E2 as [<- <-];
      unfold ret in E; apply ok_pair_inv in E; destruct E as [<- <-]; split; reflexivity. }
  destruct Ea as [-> ->]. clear E.
  set (g2 := snd (genrand_res53 R g1)) in *.
  step H as feat w3 E.
  assert (Ek : exists k, 2 <= k <= 3 /\
               Z.of_nat (List.length feat) = k /\
               (exists rest, Permutation (feat ++ rest) (catalog (label_of (draw1 R h)))) /\
               draws w3 = (((draws w ++ [DSeed h]) ++ [DRandom (draw1 R h)]) ++ [DRandom (draw2 R h)])
                            ++ [DRandint 2 3 k] ++ [DSample 5 k]).
  { assert (G : forall cat, (List.length cat <= 21)%nat ->
                (k <- random_randint R fuel 2 3 ;; random_sample R fuel cat k)
                  (mkWorld R g2 (((draws w ++ [DSeed h]) ++ [DRandom (draw1 R h)]) ++ [DRandom (draw2 R h)]))
                  = (Ok feat, w3) ->
                exists k, 2 <= k <= 3 /\ Z.of_nat (List.length feat) = k /\
                  (exists rest, Permutation (feat ++ rest) cat) /\
                  draws w3 = (((draws w ++ [DSeed h]) ++ [DRandom (draw1 R h)]) ++ [DRandom (draw2 R h)])
                               ++ [DRandint 2 3 k] ++ [DSample (Z.of_nat (List.length cat)) k]).
    { intros cat Hcat E0.
      step E0 as k w4 E2.
      apply random_randint_ok in E2. destruct E2 as (Hk & g' & _ & Hw). subst w4.
      apply random_sample_ok in E0; [ | exact Hcat].
      destruct E0 as (_ & Hl & Hp & Hd). exists k. cbn [draws] in Hd.
      split; [exact Hk | ]. split; [exact Hl | ]. split; [exact Hp | ].
      rewrite Hd. rewrite <- !app_assoc. reflexivity. }
    unfold label_of.
    destruct (flt (draw1 R h) (lit 6 1)); apply G in E; try (cbn; lia); exact E. }
  destruct Ek as (k & Hk & Hl & Hp & Hd). clear E.
  step H as v1 w4 E. rewrite random_uniform_run in E. apply ok_pair_inv in E. destruct E as [<- <-].
  step H as v2 w4 E. rewrite random_uniform_run in E. apply ok_pair_inv in E. destruct E as [<- <-].
  step H as v3 w4 E. rewrite random_uniform_run in E. apply ok_pair_inv in E. destruct E as [<- <-].
  cbn [rng draws] in H.
  unfold ret in H. apply ok_pair_inv in H. destruct H as [H <-].
  apply pair_equal_spec in H. destruct H as [H He].
  apply pair_equal_spec in H. destruct H as [Hc Hconf].
  subst c conf e.
  set (g3 := rng w3) in *.
  exists h, k, (fst (genrand_res53 R g3)),
    (fst (genrand_res53 R (snd (genrand_res53 R g3)))),
    (fst (genrand_res53 R (snd (genrand_res53 R (snd (genrand_res53 R g3)))))).
  pose proof (genrand_res53_range R g3).
  pose proof (genrand_res53_range R (snd (genrand_res53 R g3))).
  pose proof (genrand_res53_range R (snd (genrand_res53 R (snd (genrand_res53 R g3))))).
  split; [exact Hfp | ]. split; [unfold label_of; reflexivity | ].
  split; [unfold confidence_of, label_of; destruct (flt (draw1 R h) (lit 6 1)); reflexivity | ].
  split; [exact Hk | ]. split; [exact Hl | ]. split; [exact Hp | ].
  split; [cbn [language_specific_analysis]; unfold caption; reflexivity | ].
  split; [tauto | ].
  split; [cbn [factors]; unfold subscore; reflexivity | ].
  cbn [draws]. rewrite Hd. unfold m_py_draws. rewrite <- !app_assoc. reflexivity.
Qed.

(** Everything a successful run of [main.py]'s pipeline determines. *)
Lemma main_py_ok_inv (audio_bytes : bytes) (lang : string) (w w' : world R)
    (c : classification) (conf : Q) (e : explanation) :
  main_py.mock_ai_detection R fuel audio_bytes lang w = (Ok (c, conf, e), w') ->
  exists h u1 u2 u3,
    fingerprint audio_bytes = Ok h /\
    c = label_of (draw1 R h) /\
    conf = confidence_of c (draw2 R h) /\
    List.length (primary_indicators e) = 3%nat /\
    (exists rest, Permutation (primary_indicators e ++ rest) (catalog c)) /\
    language_specific_analysis e = caption lang /\
    (0 <= u1 < 1 /\ 0 <= u2 < 1 /\ 0 <= u3 < 1)%Q /\
    factors e = mkFactors (subscore (lit 7 1) (lit 95 2) u1)
                          (subscore (lit 65 2) (lit 92 2) u2)
                          (subscore (lit 70 2) (lit 98 2) u3) /\
    draws w' = draws w ++ main_py_draws h (draw1 R h) (draw2 R h) u1 u2 u3.
Proof.
  unfold main_py.mock_ai_detection. intros H.
  step H as h w0 E. unfold lift in E.
  assert (Hfp : fingerprint audio_bytes = Ok h) by (inversion E; reflexivity).
  assert (w0 = w) by (inversion E; reflexivity). subst w0. clear E.
  step H as u w1 E. rewrite random_seed_run in E.
  apply ok_pair_inv in E. destruct E as [_ <-]. clear u.
  step H as d1 w1 E. rewrite random_random_run in E.
  apply ok_pair_inv in E. destruct E as [<- <-].
  cbn [rng draws] in H.
  fold (draw1 R h) in H.
  set (g1 := snd (genrand_res53 R (seed_int R h))) in *.
  step H as cf w2 E.
  assert (Ea : cf = (if flt (draw1 R h) (lit 6 1)
                     then fadd (lit 75 2) (fmul (draw2 R h) (lit 23 2))
                     else fadd (lit 70 2) (fmul (draw2 R h) (lit 25 2))) /\
               w2 = mkWorld R (snd (genrand_res53 R g1))
                      (((draws w ++ [DSeed h]) ++ [DRandom (draw1 R h)]) ++ [DRandom (draw2 R h)])).
  { destruct (flt (draw1 R h) (lit 6 1)); step E as d2 w3 E2;
      rewrite random_random_run in E2; apply ok_pair_inv in E2; destruct E2 as [<- <-];
      unfold ret in E; apply ok_pair_inv in E; destruct E as [<- <-]; split; reflexivity. }
  destruct Ea as [-> ->]. clear E.
  step H as feat w3 E.
  fold (catalog (if flt (draw1 R h) (lit 6 1) then AI_GENERATED else HUMAN)) in E.
  assert (Ec : (if flt (draw1 R h) (lit 6 1) then ai_indicators else human_indicators)
               = catalog (label_of (draw1 R h))).
  { unfold label_of. destruct (flt (draw1 R h) (lit 6 1)); reflexivity. }
  rewrite Ec in E.
  apply random_sample_ok in E; [ | rewrite catalog_length; lia].
  destruct E as (_ & Hl & Hp & Hd). rewrite catalog_length in Hd. cbn [draws] in Hd.
  change (Z.of_nat 5) with 5 in Hd.
  step H as v1 w4 E. rewrite random_uniform_run in E. apply ok_pair_inv in E. destruct E as [<- <-].
  step H as v2 w4 E. rewrite random_uniform_run in E. apply ok_pair_inv in E. destruct E as [<- <-].
  step H as v3 w4 E. rewrite random_uniform_run in E. apply ok_pair_inv in E. destruct E as [<- <-].
  cbn [rng draws] in H.
  unfold ret in H. apply ok_pair_inv in H. destruct H as [H <-].
  apply pair_equal_spec in H. destruct H as [H He].
  apply pair_equal_spec in H. destruct H as [Hc Hconf].
  subst c conf e.
  set (g3 := rng w3) in *.
  exists h, (fst (genrand_res53 R g3)),
    (fst (genrand_res53 R (snd (genrand_res53 R g3)))),
    (fst (genrand_res53 R (snd (genrand_res53 R (snd (genrand_res53 R g3)))))).
  pose proof (genrand_res53_range R g3).
  pose proof (genrand_res53_range R (snd (genrand_res53 R g3))).
  pose proof (genrand_res53_range R (snd (genrand_res53 R (snd (genrand_res53 R g3))))).
  split; [exact Hfp | ]. split; [unfold label_of; reflexivity | ].
  split; [unfold confidence_of, label_of; destruct (flt (draw1 R h) (lit 6 1)); reflexivity | ].
  split; [cbn [primary_indicators]; lia | ]. split; [exact Hp | ].
  split; [cbn [language_specific_analysis]; unfold caption; reflexivity | ].
  split; [tauto | ].
  split; [cbn [factors]; unfold subscore; reflexivity | ].
  cbn [draws]. rewrite Hd. unfold main_py_draws. rewrite <- !app_assoc. reflexivity.
Qed.

End PipelineFacts.

End RunFacts.

Section AgreementFacts.

Local Open Scope Z_scope.

(** ** Two runs side by side

    Two computations agree when, started with the same hidden generator,
    they end the same way, with related results and again the same
    generator.  The ghost record of draws plays no part. *)

Section Agreement.

Variable R : Generator.
Variable fuel : nat.

Lemma agree_ret {A : Type} (RA : A -> A -> Prop) (a1 a2 : A) :
  RA a1 a2 -> agree (R:=R) RA (ret a1) (ret a2).
Proof. intros H w1 w2 E. unfold post, ret. cbn. auto. Qed.

Lemma agree_raise {A : Type} (RA : A -> A -> Prop) (e : exn) :
  agree (R:=R) RA (raise e) (raise e).
Proof. intros w1 w2 E. reflexivity. Qed.

Lemma agree_bind {A B : Type} (RA : A -> A -> Prop) (RB : B -> B -> Prop)
    (m1 m2 : Py R A) (f1 f2 : A -> Py R B) :
  agree RA m1 m2 ->
  (forall a1 a2, RA a1 a2 -> agree RB (f1 a1) (f2 a2)) ->
  agree RB (bind m1 f1) (bind m2 f2).
Proof.
  intros Hm Hf w1 w2 E. specialize (Hm w1 w2 E). unfold bind, post in *.
  destruct (m1 w1) as [[a1 | e1 | ] w1']; destruct (m2 w2) as [[a2 | e2 | ] w2'];
    cbn [fst snd] in *; try contradiction; try exact Hm.
  destruct Hm as [Ha Hw]. apply (Hf a1 a2 Ha w1' w2' Hw).
Qed.

Lemma agree_with_rng {A : Type} (f : gen R -> option (A * gen R)) :
  agree eq (with_rng R f) (with_rng R f).
Proof.
  intros w1 w2 E. unfold with_rng, post. rewrite E.
  destruct (f (rng w2)) as [[a g] | ]; cbn; auto.
Qed.

Lemma agree_log (d1 d2 : draw) : agree eq (log R d1) (log R d2).
Proof. intros w1 w2 E. unfold log, post. cbn. auto. Qed.

Lemma agree_lift {A : Type} (o : outcome A) : agree (R:=R) eq (lift o) (lift o).
Proof. intros w1 w2 E. unfold lift, post. cbn. destruct o; auto. Qed.

Lemma agree_random : agree eq (random_random R) (random_random R).
Proof.
  unfold random_random.
  eapply agree_bind; [apply agree_with_rng | ]. intros x ? <-.
  eapply agree_bind; [apply agree_log | ]. intros _ _ _.
  apply agree_ret. reflexivity.
Qed.

Lemma agree_uniform (a b : Q) : agree eq (random_uniform R a b) (random_uniform R a b).
Proof.
  unfold random_uniform.
  eapply agree_bind; [apply agree_with_rng | ]. intros x ? <-.
  eapply agree_bind; [apply agree_log | ]. intros _ _ _.
  apply agree_ret. reflexivity.
Qed.

Lemma agree_randint (a b : Z) :
  agree eq (random_randint R fuel a b) (random_randint R fuel a b).
Proof.
  unfold random_randint, randrange.
  eapply agree_bind.
  - destruct (0 <? b + 1 - a); [ | apply agree_raise].
    eapply agree_bind; [apply agree_with_rng | ]. intros x ? <-.
    apply agree_ret. reflexivity.
  - intros r ? <-.
    eapply agree_bind; [apply agree_log | ]. intros _ _ _.
    apply agree_ret. reflexivity.
Qed.

Lemma agree_getitem {A : Type} (l : list A) (j : Z) :
  agree eq (getitem R l j) (getitem R l j).
Proof.
  unfold getitem.
  destruct (if j <? 0 then None else nth_error l (Z.to_nat j));
    [apply agree_ret; reflexivity | apply agree_raise].
Qed.

Lemma agree_sample_pool {A : Type} (k : nat) (m : Z) (pool : list A) :
  agree eq (sample_pool R fuel k m pool) (sample_pool R fuel k m pool).
Proof.
  revert m pool. induction k as [ | k IH]; intros m pool; cbn [sample_pool].
  - apply agree_ret. reflexivity.
  - eapply agree_bind; [apply agree_with_rng | ]. intros j ? <-.
    eapply agree_bind; [apply agree_getitem | ]. intros x ? <-.
    eapply agree_bind; [apply agree_getitem | ]. intros y ? <-.
    eapply agree_bind; [apply IH | ]. intros rest ? <-.
    apply agree_ret. reflexivity.
Qed.

Lemma agree_reselect (retries : nat) (n j : Z) (selected : list Z) :
  agree eq (reselect R fuel retries n j selected) (reselect R fuel retries n j selected).
Proof.
  revert j. induction retries as [ | m IH]; intros j; cbn [reselect];
    destruct (existsb (Z.eqb j) selected); try (apply agree_ret; reflexivity).
  - apply agree_lift.
  - eapply agree_bind; [apply agree_with_rng | ]. intros j' ? <-. apply IH.
Qed.

Lemma agree_sample_set {A : Type} (k : nat) (n : Z) (population : list A) (selected : list Z) :
  agree eq (sample_set R fuel k n population selected)
           (sample_set R fuel k n population selected).
Proof.
  revert selected. induction k as [ | k IH]; intros selected; cbn [sample_set].
  - apply agree_ret. reflexivity.
  - eapply agree_bind; [apply agree_with_rng | ]. intros j ? <-.
    eapply agree_bind; [apply agree_reselect | ]. intros j' ? <-.
    eapply agree_bind; [apply agree_getitem | ]. intros x ? <-.
    eapply agree_bind; [apply IH | ]. intros rest ? <-.
    apply agree_ret. reflexivity.
Qed.

Lemma agree_sample {A : Type} (population : list A) (k : Z) :
  agree eq (random_sample R fuel population k) (random_sample R fuel population k).
Proof.
  unfold random_sample.
  destruct (negb ((0 <=? k) && (k <=? Z.of_nat (List.length population)))); [apply agree_raise | ].
  eapply agree_bind.
  - destruct (Z.of_nat (List.length population) <=? (if 5 <? k then 21 + set_table_size k else 21));
      [apply agree_sample_pool | apply agree_sample_set].
  - intros l ? <-.
    eapply agree_bind; [apply agree_log | ]. intros _ _ _.
    apply agree_ret. reflexivity.
Qed.

(** Seeding makes the two generators equal whatever they were before. *)
Lemma post_seeded {A : Type} (RA : A -> A -> Prop) (o : outcome Z) (f1 f2 : Z -> Py R A) :
  (forall h, agree RA (f1 h) (f2 h)) ->
  forall w1 w2,
    post RA ((h <- lift o ;; _ <- random_seed R h ;; f1 h) w1)
            ((h <- lift o ;; _ <- random_seed R h ;; f2 h) w2).
Proof.
  intros H w1 w2. unfold bind, lift, random_seed.
  destruct o as [h | e | ]; try reflexivity.
  apply H. reflexivity.
Qed.

(** After seeding, [m.py]'s pipeline agrees with itself whatever the
    language. *)
Lemma m_py_agree (audio_bytes : bytes) (l1 l2 : string) (w1 w2 : world R) :
  post (same_but_caption l1 l2) (m_py.mock_ai_detection R fuel audio_bytes l1 w1)
                   (m_py.mock_ai_detection R fuel audio_bytes l2 w2).
Proof.
  unfold m_py.mock_ai_detection.
  apply post_seeded. intros h.
  eapply agree_bind; [apply agree_random | ]. intros r ? <-.
  eapply agree_bind.
  { destruct (flt r (lit 6 1)); (eapply agree_bind; [apply agree_random | ]);
      intros x ? <-; apply agree_ret; reflexivity. }
  intros cf ? <-.
  eapply agree_bind.
  { destruct (flt r (lit 6 1)); (eapply agree_bind; [apply agree_randint | ]);
      intros k ? <-; apply agree_sample. }
  intros feat ? <-.
  eapply agree_bind; [apply agree_uniform | ]. intros u1 ? <-.
  eapply agree_bind; [apply agree_uniform | ]. intros u2 ? <-.
  eapply agree_bind; [apply agree_uniform | ]. intros u3 ? <-.
  apply agree_ret. unfold same_but_caption. eauto 8.
Qed.

Lemma main_py_agree (audio_bytes : bytes) (l1 l2 : string) (w1 w2 : world R) :
  post (same_but_caption l1 l2) (main_py.mock_ai_detection R fuel audio_bytes l1 w1)
                   (main_py.mock_ai_detection R fuel audio_bytes l2 w2).
Proof.
  unfold main_py.mock_ai_detection.
  apply post_seeded. intros h.
  eapply agree_bind; [apply agree_random | ]. intros r ? <-.
  eapply agree_bind.
  { destruct (flt r (lit 6 1)); (eapply agree_bind; [apply agree_random | ]);
      intros x ? <-; apply agree_ret; reflexivity. }
  intros cf ? <-.
  eapply agree_bind; [apply agree_sample | ]. intros feat ? <-.
  eapply agree_bind; [apply agree_uniform | ]. intros u1 ? <-.
  eapply agree_bind; [apply agree_uniform | ]. intros u2 ? <-.
  eapply agree_bind; [apply agree_uniform | ]. intros u3 ? <-.
  apply agree_ret. unfold same_but_caption. eauto 8.
Qed.

Lemma post_outcome {A B : Type} (f : A -> B) (r1 r2 : outcome A * world R) :
  post (fun a1 a2 => f a1 = f a2) r1 r2 -> omap f (fst r1) = omap f (fst r2).
Proof.
  unfold post. destruct (fst r1), (fst r2); cbn; try contradiction; try congruence.
  intros [E _]. rewrite E. reflexivity.
Qed.

End Agreement.

End AgreementFacts.

Section TerminationFacts.

Local Open Scope Z_scope.

(** ** Runs that never raise

    [ends m P]: [m] never raises and every result satisfies [P], for every
    generator, every state of it and every retry bound. *)

Section RejectionLoop.

Variable R : Generator.
Variable fuel : nat.

Lemma bit_length_spec (n : Z) : 0 < n ->
  1 <= bit_length n /\ 2 ^ (bit_length n - 1) <= n < 2 ^ bit_length n.
Proof.
  intros Hn. unfold bit_length.
  destruct (Z.eqb_spec n 0); [lia | ].
  rewrite Z.abs_eq by lia.
  pose proof (Z.log2_spec n Hn) as [L U]. pose proof (Z.log2_nonneg n).
  replace (Z.log2 n + 1 - 1) with (Z.log2 n) by lia.
  replace (Z.succ (Z.log2 n)) with (Z.log2 n + 1) in U by lia.
  lia.
Qed.

Lemma getrandbits_word (k : Z) (g : gen R) : 1 <= k <= 32 ->
  getrandbits R k g = (Z.shiftr (fst (next32 R g)) (32 - k), snd (next32 R g)).
Proof.
  intros Hk. unfold getrandbits.
  destruct (Z.eqb_spec k 0); [lia | ].
  destruct (Z.leb_spec k 32); [ | lia].
  destruct (next32 R g); reflexivity.
Qed.

(** A word with a clear top bit is accepted. *)
Lemma clear_word_accepted (x n k : Z) :
  1 <= k <= 32 -> 2 ^ (k - 1) <= n -> 0 <= x < 2 ^ 31 -> Z.shiftr x (32 - k) < n.
Proof.
  intros Hk Hn Hx. rewrite Z.shiftr_div_pow2 by lia.
  assert (0 < 2 ^ (32 - k)) by (apply Z.pow_pos_nonneg; lia).
  apply Z.lt_le_trans with (2 ^ (k - 1)); [ | exact Hn].
  apply Z.div_lt_upper_bound; [assumption | ].
  rewrite <- Z.pow_add_r by lia. replace (32 - k + (k - 1)) with 31 by lia. lia.
Qed.

End RejectionLoop.

Section Termination.

Variable R : Generator.
Variable fuel : nat.
Lemma ends_ret {A : Type} (a : A) (P : A -> Prop) : P a -> ends (R:=R) (ret a) P.
Proof. intros H w. exact H. Qed.

Lemma ends_bind {A B : Type} (m : Py R A) (f : A -> Py R B) (P : A -> Prop) (Q : B -> Prop) :
  ends m P -> (forall a, P a -> ends (f a) Q) -> ends (bind m f) Q.
Proof.
  intros Hm Hf w. specialize (Hm w). unfold bind.
  destruct (m w) as [[a | e | ] w1]; cbn [fst] in *; try assumption.
  apply (Hf a Hm w1).
Qed.

Lemma ends_weaken {A : Type} (m : Py R A) (P Q : A -> Prop) :
  ends m P -> (forall a, P a -> Q a) -> ends m Q.
Proof.
  intros Hm HPQ w. specialize (Hm w). destruct (fst (m w)); auto.
Qed.

Lemma ends_log (d : draw) : ends (log R d) (fun _ => True).
Proof. intros w. exact I. Qed.

Lemma ends_random : ends (random_random R) (fun _ => True).
Proof. intros w. rewrite random_random_run. exact I. Qed.

Lemma ends_uniform (a b : Q) : ends (random_uniform R a b) (fun _ => True).
Proof. intros w. rewrite random_uniform_run. exact I. Qed.

Lemma ends_seed (a : Z) : ends (random_seed R a) (fun _ => True).
Proof. intros w. exact I. Qed.

Lemma ends_fingerprint (audio_bytes : bytes) :
  ends (R:=R) (lift (fingerprint audio_bytes)) (fun _ => True).
Proof.
  intros w. unfold lift. destruct (fingerprint_ok audio_bytes) as (h & ->). exact I.
Qed.

Lemma ends_randbelow (n : Z) : 0 < n < 2 ^ 32 ->
  ends (with_rng R (randbelow R fuel n)) (fun r => 0 <= r < n).
Proof.
  intros Hn w. unfold with_rng.
  destruct (randbelow R fuel n (rng w)) as [[r g'] | ] eqn:E; cbn [fst].
  - apply randbelow_range in E. exact E.
  - exact I.
Qed.

Lemma ends_randint (a b : Z) : a <= b -> b - a < 2 ^ 32 - 1 ->
  ends (random_randint R fuel a b) (fun r => a <= r <= b).
Proof.
  intros Hab Hw. unfold random_randint, randrange.
  destruct (Z.ltb_spec 0 (b + 1 - a)); [ | lia].
  eapply ends_bind.
  - eapply ends_bind; [apply ends_randbelow; lia | ].
    intros r Hr. apply (ends_ret (a + r) (fun r => a <= r <= b)). cbv beta in Hr. lia.
  - intros r Hr. eapply ends_bind; [apply ends_log | ].
    intros _ _. apply ends_ret. exact Hr.
Qed.

Lemma ends_getitem {A : Type} (l : list A) (j : Z) :
  0 <= j < Z.of_nat (List.length l) -> ends (getitem R l j) (fun _ => True).
Proof.
  intros Hj w. destruct (getitem_in_range R l j w Hj) as (x & ->). exact I.
Qed.

Lemma ends_sample_pool {A : Type} (k : nat) (m : Z) (pool : list A) :
  Z.of_nat k <= m <= Z.of_nat (List.length pool) -> m < 2 ^ 32 ->
  ends (sample_pool R fuel k m pool) (fun _ => True).
Proof.
  revert m pool. induction k as [ | k IH]; intros m pool Hm Hlt; cbn [sample_pool].
  - apply ends_ret. exact I.
  - eapply ends_bind; [apply ends_randbelow; lia | ]. intros j Hj. cbv beta in Hj.
    eapply ends_bind; [apply ends_getitem; lia | ]. intros x _.
    eapply ends_bind; [apply ends_getitem; lia | ]. intros y _.
    eapply ends_bind; [apply IH; [rewrite upd_length; lia | lia] | ]. intros rest _.
    apply ends_ret. exact I.
Qed.

(** [random.sample] is defined whenever [0 <= k <= n] (here [n <= 21]). *)
Lemma ends_sample {A : Type} (population : list A) (k : Z) :
  (List.length population <= 21)%nat ->
  0 <= k <= Z.of_nat (List.length population) ->
  ends (random_sample R fuel population k) (fun _ => True).
Proof.
  intros Hn Hk. unfold random_sample.
  set (n := Z.of_nat (List.length population)) in *.
  destruct (Z.leb_spec 0 k); destruct (Z.leb_spec k n); cbn [andb negb]; try lia.
  assert (Hb : (n <=? (if 5 <? k then 21 + set_table_size k else 21)) = true).
  { apply Z.leb_le. destruct (5 <? k); [ | lia].
    assert (0 <= set_table_size k) by (unfold set_table_size; apply Z.pow_nonneg; lia). lia. }
  rewrite Hb.
  eapply ends_bind; [apply ends_sample_pool; lia | ]. intros l _.
  eapply ends_bind; [apply ends_log | ]. intros _ _.
  apply ends_ret. exact I.
Qed.

Lemma ends_m_py (audio_bytes : bytes) (lang : string) :
  ends (m_py.mock_ai_detection R fuel audio_bytes lang) (fun _ => True).
Proof.
  unfold m_py.mock_ai_detection.
  eapply ends_bind; [apply ends_fingerprint | ]. intros h _.
  eapply ends_bind; [apply ends_seed | ]. intros _ _.
  eapply ends_bind; [apply ends_random | ]. intros r _.
  eapply ends_bind.
  { destruct (flt r (lit 6 1)); (eapply ends_bind; [apply ends_random | ]);
      intros x _; apply (ends_ret _ (fun _ => True)); exact I. }
  intros cf _.
  eapply ends_bind.
  { destruct (flt r (lit 6 1)); (eapply ends_bind; [apply (ends_randint 2 3); lia | ]);
      intros k Hk; cbv beta in Hk; apply ends_sample; cbn; lia. }
  intros feat _.
  eapply ends_bind; [apply ends_uniform | ]. intros u1 _.
  eapply ends_bind; [apply ends_uniform | ]. intros u2 _.
  eapply ends_bind; [apply ends_uniform | ]. intros u3 _.
  apply ends_ret. exact I.
Qed.

Lemma ends_main_py (audio_bytes : bytes) (lang : string) :
  ends (main_py.mock_ai_detection R fuel audio_bytes lang) (fun _ => True).
Proof.
  unfold main_py.mock_ai_detection.
  eapply ends_bind; [apply ends_fingerprint | ]. intros h _.
  eapply ends_bind; [apply ends_seed | ]. intros _ _.
  eapply ends_bind; [apply ends_random | ]. intros r _.
  eapply ends_bind.
  { destruct (flt r (lit 6 1)); (eapply ends_bind; [apply ends_random | ]);
      intros x _; apply (ends_ret _ (fun _ => True)); exact I. }
  intros cf _.
  eapply ends_bind.
  { apply ends_sample; destruct (flt r (lit 6 1)); cbn; lia. }
  intros feat _.
  eapply ends_bind; [apply ends_uniform | ]. intros u1 _.
  eapply ends_bind; [apply ends_uniform | ]. intros u2 _.
  eapply ends_bind; [apply ends_uniform | ]. intros u3 _.
  apply ends_ret. exact I.
Qed.

End Termination.

End TerminationFacts.

Section RetryBoundFacts.

Local Open Scope Z_scope.

(** ** A larger retry bound changes no result *)

Section RetryBound.

Variable R : Generator.
Variables f f' : nat.
Hypothesis Hff : (f <= f')%nat.

Lemma refines_refl {A : Type} (m : Py R A) : refines m m.
Proof. intros w a w' H. exact H. Qed.

Lemma refines_bind {A B : Type} (m m' : Py R A) (k k' : A -> Py R B) :
  refines m m' -> (forall a, refines (k a) (k' a)) -> refines (bind m k) (bind m' k').
Proof.
  intros Hm Hk w b w' H.
  apply bind_ok_inv in H. destruct H as (a & w1 & E & H).
  unfold bind. rewrite (Hm _ _ _ E). apply Hk. exact H.
Qed.

Lemma reject_loop_mono (n k : Z) (r1 r2 : nat) (r : Z) (g : gen R) (x : Z * gen R) :
  (r1 <= r2)%nat ->
  reject_loop R r1 n k r g = Some x -> reject_loop R r2 n k r g = Some x.
Proof.
  revert r2 r g. induction r1 as [ | r1 IH]; intros r2 r g Hle; cbn [reject_loop].
  - destruct (r <? n) eqn:E; [ | discriminate].
    intros H. destruct r2; cbn [reject_loop]; rewrite E; exact H.
  - destruct r2 as [ | r2]; [lia | ]. cbn [reject_loop].
    destruct (r <? n); [auto | ].
    destruct (getrandbits R k g) as [r' g']. apply IH. lia.
Qed.

Lemma refines_randbelow (n : Z) :
  refines (with_rng R (randbelow R f n)) (with_rng R (randbelow R f' n)).
Proof.
  intros w a w' H. apply with_rng_ok_inv in H. destruct H as (g' & E & ->).
  unfold with_rng, randbelow in *.
  destruct (getrandbits R (bit_length n) (rng w)) as [r g1].
  rewrite (reject_loop_mono _ _ _ _ _ _ _ Hff E). reflexivity.
Qed.

Lemma refines_randint (a b : Z) :
  refines (random_randint R f a b) (random_randint R f' a b).
Proof.
  unfold random_randint, randrange.
  apply refines_bind; [ | intros; apply refines_refl].
  destruct (0 <? b + 1 - a); [ | apply refines_refl].
  apply refines_bind; [apply refines_randbelow | intros; apply refines_refl].
Qed.

Lemma refines_sample_pool {A : Type} (k : nat) (m : Z) (pool : list A) :
  refines (sample_pool R f k m pool) (sample_pool R f' k m pool).
Proof.
  revert m pool. induction k as [ | k IH]; intros m pool; cbn [sample_pool].
  - apply refines_refl.
  - apply refines_bind; [apply refines_randbelow | ]. intros j.
    apply refines_bind; [apply refines_refl | ]. intros x.
    apply refines_bind; [apply refines_refl | ]. intros y.
    apply refines_bind; [apply IH | ]. intros rest. apply refines_refl.
Qed.

Lemma refines_reselect (n : Z) (selected : list Z) (r1 r2 : nat) (j : Z) :
  (r1 <= r2)%nat ->
  refines (reselect R f r1 n j selected) (reselect R f' r2 n j selected).
Proof.
  revert r2 j. induction r1 as [ | r1 IH]; intros r2 j Hle; cbn [reselect].
  - destruct (existsb (Z.eqb j) selected) eqn:E.
    + intros w a w' H. discriminate.
    + destruct r2; cbn [reselect]; rewrite E; apply refines_refl.
  - destruct r2 as [ | r2]; [lia | ]. cbn [reselect].
    destruct (existsb (Z.eqb j) selected); [ | apply refines_refl].
    apply refines_bind; [apply refines_randbelow | ]. intros j'. apply IH. lia.
Qed.

Lemma refines_sample_set {A : Type} (k : nat) (n : Z) (population : list A) (selected : list Z) :
  refines (sample_set R f k n population selected) (sample_set R f' k n population selected).
Proof.
  revert selected. induction k as [ | k IH]; intros selected; cbn [sample_set].
  - apply refines_refl.
  - apply refines_bind; [apply refines_randbelow | ]. intros j.
    apply refines_bind; [apply refines_reselect; exact Hff | ]. intros j'.
    apply refines_bind; [apply refines_refl | ]. intros x.
    apply refines_bind; [apply IH | ]. intros rest. apply refines_refl.
Qed.

Lemma refines_sample {A : Type} (population : list A) (k : Z) :
  refines (random_sample R f population k) (random_sample R f' population k).
Proof.
  unfold random_sample.
  destruct (negb ((0 <=? k) && (k <=? Z.of_nat (List.length population)))); [apply refines_refl | ].
  apply refines_bind; [ | intros; apply refines_refl].
  destruct (Z.of_nat (List.length population) <=? (if 5 <? k then 21 + set_table_size k else 21));
    [apply refines_sample_pool | apply refines_sample_set].
Qed.

(** A result obtained within [f] retries is the result for every larger
    bound: the bound only cuts runs short. *)
Lemma pipeline_retry_bound (ep : entry_point) (audio_bytes : bytes) (lang : string) :
  refines (pipeline ep R f audio_bytes lang) (pipeline ep R f' audio_bytes lang).
Proof.
  destruct ep; cbn [pipeline]; unfold main_py.mock_ai_detection, m_py.mock_ai_detection.
  - apply refines_bind; [apply refines_refl | ]. intros h.
    apply refines_bind; [apply refines_refl | ]. intros _.
    apply refines_bind; [apply refines_refl | ]. intros r.
    apply refines_bind; [apply refines_refl | ]. intros cf.
    apply refines_bind; [apply refines_sample | ]. intros feat.
    apply refines_refl.
  - apply refines_bind; [apply refines_refl | ]. intros h.
    apply refines_bind; [apply refines_refl | ]. intros _.
    apply refines_bind; [apply refines_refl | ]. intros r.
    apply refines_bind; [apply refines_refl | ]. intros cf.
    apply refines_bind.
    + destruct (flt r (lit 6 1));
        (apply refines_bind; [apply refines_randint | intros k; apply refines_sample]).
    + intros feat. apply refines_refl.
Qed.

End RetryBound.

End RetryBoundFacts.

Section EntryPointFacts.

Local Open Scope Z_scope.

(** ** Both entry points at once *)

Lemma flt_spec (x y : Q) : flt x y = true <-> (x < y)%Q.
Proof.
  unfold flt. rewrite negb_true_iff. split.
  - intros H. apply Qnot_le_lt. intros C. apply Qle_bool_iff in C. congruence.
  - intros H. destruct (Qle_bool y x) eqn:E; [ | reflexivity].
    apply Qle_bool_iff in E. exfalso. apply (Qlt_not_le _ _ H E).
Qed.

Lemma label_of_spec (d : Q) :
  (label_of d = AI_GENERATED <-> (d < lit 6 1)%Q) /\
  (label_of d = HUMAN <-> ~ (d < lit 6 1)%Q).
Proof.
  unfold label_of. pose proof (flt_spec d (lit 6 1)) as H.
  destruct (flt d (lit 6 1)).
  - assert (T : (d < lit 6 1)%Q) by (apply H; reflexivity).
    split; split; intros K; try reflexivity; try discriminate; try exact T.
    contradiction.
  - assert (T : ~ (d < lit 6 1)%Q) by (intros K; apply H in K; discriminate).
    split; split; intros K; try reflexivity; try discriminate; try exact T.
    contradiction.
Qed.

Lemma catalogs_disjoint (c : classification) (x : string) :
  In x (catalog c) -> ~ In x (catalog (other c)).
Proof.
  destruct c; cbn [catalog other]; unfold ai_indicators, human_indicators; cbn [In];
    intros H K;
    repeat (destruct H as [H | H]; [subst x; repeat (destruct K as [K | K]; [discriminate K | ]); exact K | ]);
    exact H.
Qed.

(** Everything a successful run of either entry point determines. *)
Lemma pipeline_ok_inv (ep : entry_point) (R : Generator) (fuel : nat)
    (audio_bytes : bytes) (lang : string) (w w' : world R)
    (c : classification) (conf : Q) (e : explanation) :
  pipeline ep R fuel audio_bytes lang w = (Ok (c, conf, e), w') ->
  exists h k u1 u2 u3,
    fingerprint audio_bytes = Ok h /\
    c = label_of (draw1 R h) /\
    conf = confidence_of c (draw2 R h) /\
    2 <= k <= 3 /\ (ep = main_entry -> k = 3) /\
    Z.of_nat (List.length (primary_indicators e)) = k /\
    (exists rest, Permutation (primary_indicators e ++ rest) (catalog c)) /\
    language_specific_analysis e = caption lang /\
    (0 <= u1 < 1 /\ 0 <= u2 < 1 /\ 0 <= u3 < 1)%Q /\
    factors e = mkFactors (subscore (lit 7 1) (lit 95 2) u1)
                          (subscore (lit 65 2) (lit 92 2) u2)
                          (subscore (lit 70 2) (lit 98 2) u3) /\
    draws w' = draws w ++ expected_draws ep h (draw1 R h) (draw2 R h) k u1 u2 u3.
Proof.
  destruct ep; cbn [pipeline expected_draws]; intros H.
  - apply main_py_ok_inv in H.
    destruct H as (h & u1 & u2 & u3 & H1 & H2 & H3 & H4 & H5 & H6 & H7 & H8 & H9).
    exists h, 3, u1, u2, u3. rewrite H4. repeat (split; [first [assumption | lia | reflexivity] | ]).
    assumption.
  - apply m_py_ok_inv in H.
    destruct H as (h & k & u1 & u2 & u3 & H1 & H2 & H3 & H4 & H5 & H6 & H7 & H8 & H9 & H10).
    exists h, k, u1, u2, u3. repeat (split; [first [assumption | discriminate] | ]).
    assumption.
Qed.

Lemma pipeline_agree (ep : entry_point) (R : Generator) (fuel : nat)
    (audio_bytes : bytes) (l1 l2 : string) (w1 w2 : world R) :
  post (same_but_caption l1 l2) (pipeline ep R fuel audio_bytes l1 w1)
                                (pipeline ep R fuel audio_bytes l2 w2).
Proof.
  destruct ep; cbn [pipeline]; [apply main_py_agree | apply m_py_agree].
Qed.

Lemma pipeline_never_raises (ep : entry_point) (R : Generator) (fuel : nat)
    (audio_bytes : bytes) (lang : string) (w w' : world R) (e : exn) :
  pipeline ep R fuel audio_bytes lang w <> (Raise e, w').
Proof.
  intros H.
  assert (K : ends (pipeline ep R fuel audio_bytes lang) (fun _ => True)).
  { destruct ep; cbn [pipeline]; [apply ends_main_py | apply ends_m_py]. }
  specialize (K w). rewrite H in K. exact K.
Qed.

End EntryPointFacts.

Section HandlerFacts.

Local Open Scope Z_scope.

(** ** The handler of [main.py] *)

Lemma supported_language_test (l : string) :
  existsb (String.eqb l) SUPPORTED_LANGUAGES = true <-> In l SUPPORTED_LANGUAGES.
Proof.
  rewrite existsb_exists. split.
  - intros (x & Hx & E). apply String.eqb_eq in E. subst x. exact Hx.
  - intros H. exists l. split; [exact H | apply String.eqb_refl].
Qed.

Lemma decode_audio_rejects (b64decode : string -> outcome bytes) (s : string) (B : bytes) :
  b64decode s = Ok B ->
  startswith B MP3_SYNC = false -> startswith B ID3_TAG = false ->
  main_py.decode_audio b64decode s =
    Raise (HTTPException 400 "Invalid audio data: Invalid MP3 format").
Proof.
  intros Hd H1 H2. unfold main_py.decode_audio. rewrite Hd, H1, H2. reflexivity.
Qed.

Lemma decode_audio_accepts (b64decode : string -> outcome bytes) (s : string) (B : bytes) :
  b64decode s = Ok B ->
  startswith B MP3_SYNC || startswith B ID3_TAG = true ->
  main_py.decode_audio b64decode s =
    Ok (B, fdiv (int_truediv (Z.of_nat (List.length B)) 1024) (of_int 16)).
Proof.
  intros Hd Hs. unfold main_py.decode_audio. rewrite Hd.
  destruct (startswith B MP3_SYNC); destruct (startswith B ID3_TAG);
    try discriminate; reflexivity.
Qed.

Lemma detect_voice_ok_inv (R : Generator) (fuel : nat) (key : string)
    (b64decode : string -> outcome bytes) (request : AudioRequest) (api_key : string)
    (t_start t_end : Z) (w w' : world R) (resp : DetectionResponse) :
  main_py.detect_voice R fuel key b64decode request api_key t_start t_end w = (Ok resp, w') ->
  exists B d c conf e,
    api_key = key /\
    In (language request) SUPPORTED_LANGUAGES /\
    main_py.decode_audio b64decode (audio_base64 request) = Ok (B, d) /\
    main_py.mock_ai_detection R fuel B (language request) w = (Ok (c, conf, e), w') /\
    resp = mkResponse c conf (language request)
             (round (fmul (main_py.total_seconds t_start t_end) (of_int 1000)) 2)
             (round d 2) e.
Proof.
  unfold main_py.detect_voice. intros H.
  apply bind_ok_inv in H. destruct H as (u & w1 & E & H).
  unfold lift, main_py.verify_api_key in E.
  destruct (String.eqb_spec api_key key) as [Ek | Nk]; cbn [negb] in E; [ | discriminate].
  assert (w1 = w) by (inversion E; reflexivity). subst w1. clear E u.
  apply bind_ok_inv in H. destruct H as (u & w1 & E & H).
  destruct (existsb (String.eqb (language request)) SUPPORTED_LANGUAGES) eqn:El;
    cbn [negb] in E; [ | discriminate].
  assert (w1 = w) by (inversion E; reflexivity). subst w1. clear E u.
  apply supported_language_test in El.
  apply bind_ok_inv in H. destruct H as ([B d] & w1 & E & H).
  unfold lift in E.
  assert (Ed : main_py.decode_audio b64decode (audio_base64 request) = Ok (B, d))
    by (inversion E; reflexivity).
  assert (w1 = w) by (inversion E; reflexivity). subst w1. clear E.
  apply bind_ok_inv in H. destruct H as ([[c conf] e] & w1 & E & H).
  unfold ret in H. inversion H; subst. clear H.
  exists B, d, c, conf, e. auto.
Qed.

Lemma detect_voice_rejects (R : Generator) (fuel : nat) (key : string)
    (b64decode : string -> outcome bytes) (request : AudioRequest) (api_key : string)
    (t_start t_end : Z) (w : world R) (e : exn) :
  main_py.decode_audio b64decode (audio_base64 request) = Raise e ->
  (exists status detail,
     main_py.detect_voice R fuel key b64decode request api_key t_start t_end w =
       (Raise (HTTPException status detail), w)) /\
  (api_key = key -> In (language request) SUPPORTED_LANGUAGES ->
   main_py.detect_voice R fuel key b64decode request api_key t_start t_end w = (Raise e, w)).
Proof.
  intros Hd. unfold main_py.detect_voice, bind, lift, main_py.verify_api_key.
  assert (He : exists status detail, e = HTTPException status detail).
  { unfold main_py.decode_audio in Hd.
    destruct (b64decode (audio_base64 request)) as [B | e0 | ].
    - destruct (negb (startswith B MP3_SYNC) && negb (startswith B ID3_TAG));
        inversion Hd; eauto.
    - inversion Hd; eauto.
    - discriminate. }
  destruct (String.eqb_spec api_key key) as [Ek | Nk]; cbn [negb].
  - destruct (existsb (String.eqb (language request)) SUPPORTED_LANGUAGES) eqn:El; cbn [negb].
    + rewrite Hd. destruct He as (st & dt & ->). unfold ret. split; [eauto | reflexivity].
    + split; [unfold raise; eauto | ].
      intros _ Hin. apply supported_language_test in Hin. congruence.
  - split; [eauto | ]. intros K. contradiction.
Qed.

End HandlerFacts.

Section ReturnFacts.

Local Open Scope Z_scope.

(** ** Runs that return

    A rejection loop of [randbelow] ends at the first word with a clear
    top bit.  [returns g0 i c m P] follows the hidden generator along the
    words it hands out after [g0]. *)

Section Words.

Variable R : Generator.

Lemma advance_add (a b : nat) (g : gen R) :
  advance R (a + b) g = advance R b (advance R a g).
Proof.
  revert g. induction a as [ | a IH]; intros g; [reflexivity | ].
  cbn [Nat.add advance]. apply IH.
Qed.

Lemma genrand_res53_advance (g : gen R) : snd (genrand_res53 R g) = advance R 2 g.
Proof.
  unfold genrand_res53. cbn [advance].
  destruct (next32 R g) as [x g1]. cbn [snd].
  destruct (next32 R g1) as [y g2]. cbn [snd]. reflexivity.
Qed.

Lemma clear_within_b_sound (F : nat) (g : gen R) :
  clear_within_b R F g = true -> clear_within R F g.
Proof.
  revert g. induction F as [ | F IH]; intros g; cbn [clear_within_b clear_within];
    [discriminate | ].
  destruct (next32 R g) as [x g']. cbn [fst snd]. intros H.
  apply orb_true_iff in H. destruct H as [H | H].
  - left. apply Z.ltb_lt. exact H.
  - right. apply IH. exact H.
Qed.

Lemma clear_along_b_sound (F N : nat) (g : gen R) :
  clear_along_b R F N g = true -> clear_along R F N g.
Proof.
  revert g. induction N as [ | N IH]; intros g H; cbn [clear_along_b] in H;
    apply andb_true_iff in H; destruct H as [H1 H2]; intros i Hi.
  - replace i with O by lia. apply clear_within_b_sound. exact H1.
  - destruct i as [ | i]; [apply clear_within_b_sound; exact H1 | ].
    cbn [advance]. apply (IH _ H2). lia.
Qed.

Lemma settles_b_sound (F : nat) (audio_bytes : bytes) :
  settles_b R F audio_bytes = true -> settles R F audio_bytes.
Proof.
  unfold settles_b, settles.
  destruct (fingerprint audio_bytes) as [h | | ]; try discriminate.
  intros H. exists h. split; [reflexivity | ]. apply clear_along_b_sound. exact H.
Qed.

End Words.

Section RejectionLoopEnds.

Variable R : Generator.
Variable fuel : nat.

(** The loop stops after at most [W] further words. *)
Lemma reject_loop_returns (retries : nat) (n k r : Z) (g : gen R) (W : nat) :
  1 <= k <= 32 -> 2 ^ (k - 1) <= n ->
  (r < n /\ W = O) \/ (clear_within R W g /\ (W <= retries)%nat) ->
  exists r' t, reject_loop R retries n k r g = Some (r', advance R t g) /\ (t <= W)%nat.
Proof.
  intros Hk Hn. revert r g W.
  induction retries as [ | m IH]; intros r g W H; cbn [reject_loop].
  - destruct (Z.ltb_spec r n); [exists r, O; split; [reflexivity | lia] | ].
    destruct H as [[H _] | [H HW]]; [lia | ].
    destruct W; [contradiction | lia].
  - destruct (Z.ltb_spec r n); [exists r, O; split; [reflexivity | lia] | ].
    destruct H as [[H _] | [H HW]]; [lia | ].
    destruct W as [ | W']; [contradiction | ].
    rewrite getrandbits_word by exact Hk.
    cbn [clear_within] in H.
    pose proof (next32_range R g) as Hx.
    destruct H as [H | H].
    + destruct (IH (Z.shiftr (fst (next32 R g)) (32 - k)) (snd (next32 R g)) O)
        as (r' & t & E & Ht).
      { left. split; [ | reflexivity].
        apply clear_word_accepted; [exact Hk | exact Hn | lia]. }
      exists r', (S t). split; [exact E | lia].
    + destruct (IH (Z.shiftr (fst (next32 R g)) (32 - k)) (snd (next32 R g)) W')
        as (r' & t & E & Ht).
      { right. split; [exact H | lia]. }
      exists r', (S t). split; [exact E | lia].
Qed.

Lemma randbelow_returns (n : Z) (g : gen R) (W : nat) :
  0 < n < 2 ^ 32 -> clear_within R W g -> (W <= S fuel)%nat ->
  exists r t, randbelow R fuel n g = Some (r, advance R t g) /\ (t <= W)%nat /\ 0 <= r < n.
Proof.
  intros Hn Hc HW.
  destruct (bit_length_spec n ltac:(lia)) as (K1 & K2 & K3).
  assert (K32 : bit_length n <= 32).
  { destruct (Z_le_gt_dec (bit_length n) 32) as [L | L]; [exact L | ].
    assert (2 ^ 32 <= 2 ^ (bit_length n - 1)) by (apply Z.pow_le_mono_r; lia). lia. }
  assert (Hret : exists r t, randbelow R fuel n g = Some (r, advance R t g) /\ (t <= W)%nat).
  { unfold randbelow. rewrite getrandbits_word by lia.
    pose proof (next32_range R g) as Hx.
    destruct W as [ | W']; [contradiction | ]. cbn [clear_within] in Hc.
    destruct Hc as [Hc | Hc].
    - destruct (reject_loop_returns fuel n (bit_length n)
                  (Z.shiftr (fst (next32 R g)) (32 - bit_length n)) (snd (next32 R g)) O)
        as (r' & t & E & Ht); [lia | exact K2 | | ].
      { left. split; [ | reflexivity].
        apply clear_word_accepted; [lia | exact K2 | lia]. }
      exists r', (S t). split; [exact E | lia].
    - destruct (reject_loop_returns fuel n (bit_length n)
                  (Z.shiftr (fst (next32 R g)) (32 - bit_length n)) (snd (next32 R g)) W')
        as (r' & t & E & Ht); [lia | exact K2 | | ].
      { right. split; [exact Hc | lia]. }
      exists r', (S t). split; [exact E | lia]. }
  destruct Hret as (r & t & E & Ht). exists r, t.
  split; [exact E | ]. split; [exact Ht | ].
  apply (randbelow_range R fuel n g r _ E).
Qed.

End RejectionLoopEnds.

Section Returns.

Variable R : Generator.
Variable g0 : gen R.

Lemma returns_ret {A : Type} (i : nat) (a : A) (P : A -> Prop) :
  P a -> returns g0 i 0 (ret a) P.
Proof.
  intros H w (j & Hj & E). exists a, w. split; [reflexivity | ].
  split; [exists j; split; [lia | exact E] | exact H].
Qed.

Lemma returns_bind {A B : Type} (i c1 c2 : nat) (m : Py R A) (f : A -> Py R B)
    (P : A -> Prop) (Q : B -> Prop) :
  returns g0 i c1 m P -> (forall a, P a -> returns g0 (i + c1) c2 (f a) Q) ->
  returns g0 i (c1 + c2) (bind m f) Q.
Proof.
  intros Hm Hf w Hw. destruct (Hm w Hw) as (a & w1 & E & Hw1 & Pa).
  destruct (Hf a Pa w1 Hw1) as (b & w2 & E2 & Hw2 & Qb).
  exists b, w2. unfold bind. rewrite E. split; [exact E2 | ].
  split; [ | exact Qb]. rewrite Nat.add_assoc. exact Hw2.
Qed.

Lemma returns_weaken {A : Type} (i c c' : nat) (m : Py R A) (P Q : A -> Prop) :
  returns g0 i c m P -> (c <= c')%nat -> (forall a, P a -> Q a) -> returns g0 i c' m Q.
Proof.
  intros Hm Hc HPQ w Hw. destruct (Hm w Hw) as (a & w1 & E & (j & Hj & Ej) & Pa).
  exists a, w1. split; [exact E | ]. split; [exists j; split; [lia | exact Ej] | auto].
Qed.

Lemma returns_log (i : nat) (d : draw) : returns g0 i 0 (log R d) (fun _ => True).
Proof.
  intros w (j & Hj & E). exists tt, (mkWorld R (rng w) (draws w ++ [d])).
  split; [reflexivity | ]. split; [exists j; split; [lia | exact E] | exact I].
Qed.

Lemma returns_random (i : nat) : returns g0 i 2 (random_random R) (fun _ => True).
Proof.
  intros w (j & Hj & E). rewrite random_random_run. do 2 eexists.
  split; [reflexivity | ]. split; [ | exact I].
  exists (j + 2)%nat. split; [lia | ]. cbn [rng].
  rewrite genrand_res53_advance, E, advance_add. reflexivity.
Qed.

Lemma returns_uniform (i : nat) (a b : Q) :
  returns g0 i 2 (random_uniform R a b) (fun _ => True).
Proof.
  intros w (j & Hj & E). rewrite random_uniform_run. do 2 eexists.
  split; [reflexivity | ]. split; [ | exact I].
  exists (j + 2)%nat. split; [lia | ]. cbn [rng].
  rewrite genrand_res53_advance, E, advance_add. reflexivity.
Qed.

Lemma returns_getitem {A : Type} (i : nat) (l : list A) (j : Z) :
  0 <= j < Z.of_nat (List.length l) -> returns g0 i 0 (getitem R l j) (fun _ => True).
Proof.
  intros Hj w (p & Hp & E). destruct (getitem_in_range R l j w Hj) as (x & Ex).
  exists x, w. split; [exact Ex | ]. split; [exists p; split; [lia | exact E] | exact I].
Qed.

End Returns.

Section LoopsReturn.

Variable R : Generator.
Variable fuel : nat.
Variables F N : nat.
Variable g0 : gen R.
Hypothesis Hclear : clear_along R F N g0.
Hypothesis HF : (F <= S fuel)%nat.

Lemma returns_randbelow (i : nat) (n : Z) : (i <= N)%nat -> 0 < n < 2 ^ 32 ->
  returns g0 i F (with_rng R (randbelow R fuel n)) (fun r => 0 <= r < n).
Proof.
  intros Hi Hn w (j & Hj & E).
  destruct (randbelow_returns R fuel n (rng w) F Hn) as (r & t & Er & Ht & Hr);
    [rewrite E; apply Hclear; lia | exact HF | ].
  exists r, (mkWorld R (advance R t (rng w)) (draws w)).
  unfold with_rng. rewrite Er. split; [reflexivity | ].
  split; [ | exact Hr].
  exists (j + t)%nat. split; [lia | ]. cbn [rng]. rewrite E, advance_add. reflexivity.
Qed.

Lemma returns_randint (i : nat) (a b : Z) : (i <= N)%nat -> a <= b -> b - a < 2 ^ 32 - 1 ->
  returns g0 i F (random_randint R fuel a b) (fun r => a <= r <= b).
Proof.
  intros Hi Hab Hw. unfold random_randint, randrange.
  destruct (Z.ltb_spec 0 (b + 1 - a)); [ | lia].
  apply returns_weaken with (c := (F + 0 + (0 + 0))%nat) (P := fun r => a <= r <= b);
    [ | lia | auto].
  eapply returns_bind.
  - eapply returns_bind; [apply (returns_randbelow i); [exact Hi | lia] | ].
    intros r Hr. apply (returns_ret R g0 _ (a + r) (fun r => a <= r <= b)). cbv beta in Hr. lia.
  - intros r Hr. eapply returns_bind; [apply returns_log | ].
    intros _ _. apply returns_ret. exact Hr.
Qed.

Lemma returns_sample_pool {A : Type} (k : nat) (i : nat) (m : Z) (pool : list A) :
  Z.of_nat k <= m <= Z.of_nat (List.length pool) -> m < 2 ^ 32 ->
  (i + k * F <= N + F)%nat ->
  returns g0 i (k * F) (sample_pool R fuel k m pool) (fun _ => True).
Proof.
  revert i m pool. induction k as [ | k IH]; intros i m pool Hm Hlt Hi; cbn [sample_pool].
  - apply returns_ret. exact I.
  - apply returns_weaken with (c := (F + (0 + (0 + (k * F + 0))))%nat) (P := fun _ => True);
      [ | cbn [Nat.mul]; lia | auto].
    cbn [Nat.mul] in Hi.
    eapply returns_bind; [apply (returns_randbelow i); lia | ]. intros j Hj. cbv beta in Hj.
    eapply returns_bind; [apply returns_getitem; lia | ]. intros x _.
    eapply returns_bind; [apply returns_getitem; lia | ]. intros y _.
    eapply returns_bind; [apply IH; [rewrite upd_length; lia | lia | lia] | ]. intros rest _.
    apply returns_ret. exact I.
Qed.

Lemma returns_sample {A : Type} (i : nat) (population : list A) (k : Z) :
  (List.length population <= 21)%nat ->
  0 <= k <= Z.of_nat (List.length population) ->
  (i + Z.to_nat k * F <= N + F)%nat ->
  returns g0 i (Z.to_nat k * F) (random_sample R fuel population k) (fun _ => True).
Proof.
  intros Hn Hk Hi. unfold random_sample.
  set (n := Z.of_nat (List.length population)) in *.
  destruct (Z.leb_spec 0 k); destruct (Z.leb_spec k n); cbn [andb negb]; try lia.
  assert (Hb : (n <=? (if 5 <? k then 21 + set_table_size k else 21)) = true).
  { apply Z.leb_le. destruct (5 <? k); [ | lia].
    assert (0 <= set_table_size k) by (unfold set_table_size; apply Z.pow_nonneg; lia). lia. }
  rewrite Hb.
  apply returns_weaken with (c := (Z.to_nat k * F + (0 + 0))%nat) (P := fun _ => True);
    [ | lia | auto].
  eapply returns_bind; [apply returns_sample_pool; lia | ]. intros l _.
  eapply returns_bind; [apply returns_log | ]. intros _ _.
  apply returns_ret. exact I.
Qed.

End LoopsReturn.

End ReturnFacts.

Section DetectionReturnFacts.

Local Open Scope Z_scope.

(** ** The detection returns *)

Section DetectionReturns.

Variable R : Generator.
Variable fuel : nat.
Variable F : nat.
Hypothesis HF : (F <= S fuel)%nat.

Lemma returns_run {A : Type} (g0 : gen R) (c : nat) (m : Py R A) (P : A -> Prop)
    (w : world R) :
  returns g0 0 c m P -> rng w = g0 -> exists a w', m w = (Ok a, w') /\ P a.
Proof.
  intros H E. destruct (H w) as (a & w' & Ea & _ & Pa).
  - exists O. split; [lia | exact E].
  - eauto.
Qed.

Lemma returns_count (g0 : gen R) (i : nat) (population : list string) :
  clear_along R F (4 + 3 * F) g0 -> (i <= 4)%nat ->
  List.length population = 5%nat ->
  returns g0 i (F + 3 * F)
    (k <- random_randint R fuel 2 3 ;; random_sample R fuel population k)
    (fun _ => True).
Proof.
  intros Hc Hi Hlen.
  eapply returns_bind; [apply (returns_randint R fuel F (4 + 3 * F) g0 Hc HF); lia | ].
  intros k Hk. cbv beta in Hk.
  apply returns_weaken with (c := (Z.to_nat k * F)%nat) (P := fun _ => True); [ | | auto].
  - apply (returns_sample R fuel F (4 + 3 * F) g0 Hc HF); rewrite ?Hlen; try lia.
    assert (Z.to_nat k <= 3)%nat by lia. nia.
  - assert (Z.to_nat k <= 3)%nat by lia. nia.
Qed.

Lemma m_py_returns (audio_bytes : bytes) (lang : string) (w : world R) :
  settles R F audio_bytes ->
  exists r w', m_py.mock_ai_detection R fuel audio_bytes lang w = (Ok r, w').
Proof.
  intros (h & Eh & Hc).
  unfold m_py.mock_ai_detection.
  unfold bind at 1. unfold lift. rewrite Eh.
  unfold bind at 1. rewrite random_seed_run.
  match goal with
  | |- exists r w', ?m ?w0 = _ =>
      destruct (returns_run (seed_int R h) (2 + (2 + (F + 3 * F + (2 + (2 + (2 + 0)))))) m
                  (fun _ => True) w0) as (a & w' & E & _); [ | reflexivity | eauto]
  end.
  eapply returns_bind; [apply returns_random | ]. intros r _.
  eapply returns_bind.
  { destruct (flt r (lit 6 1));
      (apply returns_weaken with (c := (2 + 0)%nat) (P := fun _ => True)
         (Q := fun _ => True); [ | lia | auto]);
      (eapply returns_bind; [apply returns_random | ]);
      intros x _; apply (returns_ret R _ _ _ (fun _ => True)); exact I. }
  intros cf _.
  eapply returns_bind.
  { destruct (flt r (lit 6 1)); apply returns_count; try assumption; try lia; reflexivity. }
  intros feat _.
  eapply returns_bind; [apply returns_uniform | ]. intros u1 _.
  eapply returns_bind; [apply returns_uniform | ]. intros u2 _.
  eapply returns_bind; [apply returns_uniform | ]. intros u3 _.
  apply returns_ret. exact I.
Qed.

Lemma main_py_returns (audio_bytes : bytes) (lang : string) (w : world R) :
  settles R F audio_bytes ->
  exists r w', main_py.mock_ai_detection R fuel audio_bytes lang w = (Ok r, w').
Proof.
  intros (h & Eh & Hc).
  unfold main_py.mock_ai_detection.
  unfold bind at 1. unfold lift. rewrite Eh.
  unfold bind at 1. rewrite random_seed_run.
  match goal with
  | |- exists r w', ?m ?w0 = _ =>
      destruct (returns_run (seed_int R h) (2 + (2 + (3 * F + (2 + (2 + (2 + 0)))))) m
                  (fun _ => True) w0) as (a & w' & E & _); [ | reflexivity | eauto]
  end.
  eapply returns_bind; [apply returns_random | ]. intros r _.
  eapply returns_bind.
  { destruct (flt r (lit 6 1));
      (apply returns_weaken with (c := (2 + 0)%nat) (P := fun _ => True)
         (Q := fun _ => True); [ | lia | auto]);
      (eapply returns_bind; [apply returns_random | ]);
      intros x _; apply (returns_ret R _ _ _ (fun _ => True)); exact I. }
  intros cf _.
  eapply returns_bind.
  { apply (returns_sample R fuel F (4 + 3 * F) (seed_int R h) Hc HF);
      destruct (flt r (lit 6 1)); cbn; lia. }
  intros feat _.
  eapply returns_bind; [apply returns_uniform | ]. intros u1 _.
  eapply returns_bind; [apply returns_uniform | ]. intros u2 _.
  eapply returns_bind; [apply returns_uniform | ]. intros u3 _.
  apply returns_ret. exact I.
Qed.

End DetectionReturns.

(** Both entry points return on every payload whose seeded generator
    settles within the retry bound. *)
Lemma pipeline_returns (ep : entry_point) (R : Generator) (fuel F : nat)
    (audio_bytes : bytes) (lang : string) (w : world R) :
  settles R F audio_bytes -> (F <= S fuel)%nat ->
  exists r w', pipeline ep R fuel audio_bytes lang w = (Ok r, w').
Proof.
  intros Hs HF. destruct ep; cbn [pipeline];
    [apply (main_py_returns R fuel F HF) | apply (m_py_returns R fuel F HF)]; exact Hs.
Qed.

End DetectionReturnFacts.

Section SeededStreams.

Local Open Scope Z_scope.

(** ** MT19937 on the payloads of the examples

    Seeded with the fingerprint of each of these payloads, MT19937 hands
    out no 8 words in a row with the top bit set among the words a
    detection can reach. *)

Lemma reference_payload_settles : settles MT19937.generator 8 reference_payload.
Proof. apply settles_b_sound. vm_compute. reflexivity. Qed.

Lemma payload_3cfa_settles : settles MT19937.generator 8 payload_3cfa.
Proof. apply settles_b_sound. vm_compute. reflexivity. Qed.

Lemma payload_9c89_settles : settles MT19937.generator 8 payload_9c89.
Proof. apply settles_b_sound. vm_compute. reflexivity. Qed.

Lemma payload_82_settles : settles MT19937.generator 8 payload_82.
Proof. apply settles_b_sound. vm_compute. reflexivity. Qed.

Lemma sample_audio_settles : settles MT19937.generator 8 t_py.sample_audio.
Proof. apply settles_b_sound. vm_compute. reflexivity. Qed.

End SeededStreams.

(** Evaluate a closed run and keep the equation. *)
Ltac evaluate t H :=
  let v := eval vm_compute in t in
  assert (H : t = v) by (vm_cast_no_check (eq_refl v)).

Section PipelineClaims.

Local Open Scope Z_scope.

(** ** The claims *)


(** C1. The outcome of [mock_ai_detection] is a function of the payload
    and the language alone: whatever the hidden generator held before the
    call (and so whatever ran before, in this process or another), the two
    runs end the same way with the same label, confidence and
    explanation. *)
Theorem detection_deterministic (ep : entry_point) (R : Generator) (fuel : nat)
    (audio_bytes : bytes) (lang : string) (w1 w2 : world R) :
  fst (pipeline ep R fuel audio_bytes lang w1) =
  fst (pipeline ep R fuel audio_bytes lang w2).
Proof.
  pose proof (pipeline_agree ep R fuel audio_bytes lang lang w1 w2) as H.
  unfold post in H.
  destruct (fst (pipeline ep R fuel audio_bytes lang w1)) as [r1 | e1 | ];
    destruct (fst (pipeline ep R fuel audio_bytes lang w2)) as [r2 | e2 | ];
    try contradiction; try reflexivity.
  - destruct H as [(c & conf & ind & f & -> & ->) _]. reflexivity.
  - rewrite H. reflexivity.
Qed.

(** C2, as the code has it.  A run of [m.py] makes exactly the calls of
    the documented order: seed, label discriminator, confidence offset,
    indicator count, indicator sample, three sub-score offsets; a run of
    [main.py] makes the same calls without the indicator count and samples
    3 entries.  Each output is computed from its own draw.  The run
    returns whenever the seeded generator settles within the retry bound,
    and every run that returns made these calls. *)
Theorem draw_order (ep : entry_point) (R : Generator) (fuel : nat)
    (audio_bytes : bytes) (lang : string) (w : world R) :
  let documented (c : classification) (conf : Q) (e : explanation) (w' : world R) :=
    exists h k u1 u2 u3,
      draws w' = draws w ++ expected_draws ep h (draw1 R h) (draw2 R h) k u1 u2 u3 /\
      map kind_of (expected_draws ep h (draw1 R h) (draw2 R h) k u1 u2 u3) = order_of ep /\
      fingerprint audio_bytes = Ok h /\
      c = label_of (draw1 R h) /\
      conf = confidence_of c (draw2 R h) /\
      2 <= k <= 3 /\ (ep = main_entry -> k = 3) /\
      Z.of_nat (List.length (primary_indicators e)) = k /\
      factors e = mkFactors (subscore (lit 7 1) (lit 95 2) u1)
                            (subscore (lit 65 2) (lit 92 2) u2)
                            (subscore (lit 70 2) (lit 98 2) u3) in
  (forall F : nat, settles R F audio_bytes -> (F <= S fuel)%nat ->
     exists c conf e w',
       pipeline ep R fuel audio_bytes lang w = (Ok (c, conf, e), w') /\
       documented c conf e w') /\
  (forall c conf e w',
     pipeline ep R fuel audio_bytes lang w = (Ok (c, conf, e), w') ->
     documented c conf e w').
Proof.
  intros documented.
  assert (K : forall c conf e w',
            pipeline ep R fuel audio_bytes lang w = (Ok (c, conf, e), w') ->
            documented c conf e w').
  { intros c conf e w' H. apply pipeline_ok_inv in H.
    destruct H as (h & k & u1 & u2 & u3 & H1 & H2 & H3 & H4 & H5 & H6 & H7 & H8 & H9 & H10 & H11).
    exists h, k, u1, u2, u3.
    split; [exact H11 | ]. split; [destruct ep; reflexivity | ].
    repeat (split; [assumption | ]). assumption. }
  split; [ | exact K].
  intros F Hs HF.
  destruct (pipeline_returns ep R fuel F audio_bytes lang w Hs HF) as ([[c conf] e] & w' & H).
  exists c, conf, e, w'. split; [exact H | apply K; exact H].
Qed.

Lemma draw_order_witness :
  settles MT19937.generator 8 reference_payload /\
  (exists c conf e w',
     pipeline m_entry MT19937.generator 16 reference_payload "english" mt_world
       = (Ok (c, conf, e), w') /\
     map kind_of (draws w') = documented_order) /\
  (exists c conf e w',
     pipeline main_entry MT19937.generator 16 reference_payload "english" mt_world
       = (Ok (c, conf, e), w') /\
     map kind_of (draws w') = main_py_order).
Proof.
  assert (HF : (8 <= 17)%nat) by lia.
  split; [exact reference_payload_settles | ]. split.
  - destruct (proj1 (draw_order m_entry MT19937.generator 16 reference_payload "english"
                       mt_world) 8%nat reference_payload_settles HF)
      as (c & conf & e & w' & H & h & k & u1 & u2 & u3 & Hd & Hk & _).
    exists c, conf, e, w'. split; [exact H | ]. rewrite Hd. exact Hk.
  - destruct (proj1 (draw_order main_entry MT19937.generator 16 reference_payload "english"
                       mt_world) 8%nat reference_payload_settles HF)
      as (c & conf & e & w' & H & h & k & u1 & u2 & u3 & Hd & Hk & _).
    exists c, conf, e, w'. split; [exact H | ]. rewrite Hd. exact Hk.
Defined.

(** C2 fails on [main.py]: on the reference payload it draws no indicator
    count. *)
Lemma main_py_skips_indicator_count :
  exists r w',
    pipeline main_entry MT19937.generator 16 reference_payload "english" mt_world
      = (Ok r, w') /\
    map kind_of (draws w') <> documented_order.
Proof.
  evaluate (pipeline main_entry MT19937.generator 16 reference_payload "english" mt_world) H.
  match type of H with
  | _ = (Ok ?r, ?w') => exists r, w'
  end.
  split; [exact H | ]. vm_compute. discriminate.
Qed.

(** C3, as the code has it.  The returned confidence lies in the closed
    band of its label: [0.75, 0.98] for AI_GENERATED and [0.70, 0.95] for
    HUMAN.  The run returns whenever the seeded generator settles within
    the retry bound, and every run that returns is in the band. *)
Theorem confidence_band (ep : entry_point) (R : Generator) (fuel : nat)
    (audio_bytes : bytes) (lang : string) (w : world R) :
  let band (c : classification) (conf : Q) :=
    (c = AI_GENERATED -> (lit 75 2 <= conf /\ conf <= lit 98 2)%Q) /\
    (c = HUMAN -> (lit 70 2 <= conf /\ conf <= lit 95 2)%Q) in
  (forall F : nat, settles R F audio_bytes -> (F <= S fuel)%nat ->
     exists c conf e w',
       pipeline ep R fuel audio_bytes lang w = (Ok (c, conf, e), w') /\ band c conf) /\
  (forall c conf e w',
     pipeline ep R fuel audio_bytes lang w = (Ok (c, conf, e), w') -> band c conf).
Proof.
  intros band.
  assert (K : forall c conf e w',
            pipeline ep R fuel audio_bytes lang w = (Ok (c, conf, e), w') -> band c conf).
  { intros c conf e w' H. apply pipeline_ok_inv in H.
    destruct H as (h & k & u1 & u2 & u3 & _ & _ & H3 & _).
    pose proof (genrand_res53_range R (snd (genrand_res53 R (seed_int R h)))) as [D0 D1].
    fold (draw2 R h) in D0, D1.
    split; intros ->; rewrite H3; cbn [confidence_of].
    - apply confidence_ai_range; assumption.
    - apply confidence_human_range; assumption. }
  split; [ | exact K].
  intros F Hs HF.
  destruct (pipeline_returns ep R fuel F audio_bytes lang w Hs HF) as ([[c conf] e] & w' & H).
  exists c, conf, e, w'. split; [exact H | apply (K c conf e w'); exact H].
Qed.

Lemma confidence_band_witness :
  settles MT19937.generator 8 payload_9c89 /\
  (exists c conf e w',
     pipeline m_entry MT19937.generator 16 payload_9c89 "english" mt_world
       = (Ok (c, conf, e), w') /\
     (c = AI_GENERATED -> (lit 75 2 <= conf /\ conf <= lit 98 2)%Q) /\
     (c = HUMAN -> (lit 70 2 <= conf /\ conf <= lit 95 2)%Q)) /\
  (exists c conf e w',
     pipeline main_entry MT19937.generator 16 payload_9c89 "english" mt_world
       = (Ok (c, conf, e), w') /\
     (c = AI_GENERATED -> (lit 75 2 <= conf /\ conf <= lit 98 2)%Q) /\
     (c = HUMAN -> (lit 70 2 <= conf /\ conf <= lit 95 2)%Q)).
Proof.
  assert (HF : (8 <= 17)%nat) by lia.
  split; [exact payload_9c89_settles | ]. split.
  - exact (proj1 (confidence_band m_entry MT19937.generator 16 payload_9c89 "english"
                    mt_world) 8%nat payload_9c89_settles HF).
  - exact (proj1 (confidence_band main_entry MT19937.generator 16 payload_9c89 "english"
                    mt_world) 8%nat payload_9c89_settles HF).
Defined.

(** C3 fails: the payload [ff fb 00 3c fa] is labelled AI_GENERATED with
    confidence exactly 0.98, the excluded upper bound. *)
Lemma confidence_reaches_upper_bound :
  exists c conf e w',
    pipeline m_entry MT19937.generator 16 payload_3cfa "english" mt_world
      = (Ok (c, conf, e), w') /\
    c = AI_GENERATED /\ conf = lit 98 2 /\ ~ (conf < lit 98 2)%Q.
Proof.
  evaluate (pipeline m_entry MT19937.generator 16 payload_3cfa "english" mt_world) H.
  match type of H with
  | _ = (Ok (?c, ?conf, ?e), ?w') => exists c, conf, e, w'
  end.
  split; [exact H | ]. split; [reflexivity | ].
  split; [vm_compute; reflexivity | ].
  vm_compute. discriminate.
Qed.

(** C4. The indicator list has 2 or 3 entries, all from the 5-entry
    catalog of the returned label and none from the other one, without
    repetition; the three sub-scores are values rounded to 3 decimals in
    [0.70, 0.95], [0.65, 0.92] and [0.70, 0.98].  The explanation is
    returned whenever the seeded generator settles within the retry bound,
    and every explanation that is returned is of this form. *)
Theorem explanation_valid (ep : entry_point) (R : Generator) (fuel : nat)
    (audio_bytes : bytes) (lang : string) (w : world R) :
  let valid (c : classification) (e : explanation) :=
    (List.length (primary_indicators e) = 2%nat \/
     List.length (primary_indicators e) = 3%nat) /\
    List.length (catalog c) = 5%nat /\
    (forall x, In x (primary_indicators e) ->
               In x (catalog c) /\ ~ In x (catalog (other c))) /\
    NoDup (primary_indicators e) /\
    (lit 70 2 <= spectral_analysis (factors e) /\
     spectral_analysis (factors e) <= lit 95 2)%Q /\
    (lit 65 2 <= prosodic_features (factors e) /\
     prosodic_features (factors e) <= lit 92 2)%Q /\
    (lit 70 2 <= artifact_detection (factors e) /\
     artifact_detection (factors e) <= lit 98 2)%Q /\
    exists v1 v2 v3, factors e = mkFactors (round v1 3) (round v2 3) (round v3 3) in
  (forall F : nat, settles R F audio_bytes -> (F <= S fuel)%nat ->
     exists c conf e w',
       pipeline ep R fuel audio_bytes lang w = (Ok (c, conf, e), w') /\ valid c e) /\
  (forall c conf e w',
     pipeline ep R fuel audio_bytes lang w = (Ok (c, conf, e), w') -> valid c e).
Proof.
  intros valid.
  assert (K : forall c conf e w',
            pipeline ep R fuel audio_bytes lang w = (Ok (c, conf, e), w') -> valid c e).
  { intros c conf e w' H. apply pipeline_ok_inv in H.
    destruct H as (h & k & u1 & u2 & u3 & _ & _ & _ & Hk & _ & Hl & (rest & Hp) & _ & Hu & Hf & _).
    destruct Hu as ((U1 & U1') & (U2 & U2') & (U3 & U3')).
    destruct (sample_distinct (catalog c) (primary_indicators e) rest (catalog_NoDup c) Hp)
      as [Hnd Hin].
    split; [lia | ]. split; [apply catalog_length | ].
    split.
    { intros x Hx. split; [apply Hin; exact Hx | apply catalogs_disjoint, Hin; exact Hx]. }
    split; [exact Hnd | ].
    rewrite Hf. cbn [spectral_analysis prosodic_features artifact_detection]. unfold subscore.
    split; [apply spectral_range; assumption | ].
    split; [apply prosodic_range; assumption | ].
    split; [apply artifact_range; assumption | ].
    eauto. }
  split; [ | exact K].
  intros F Hs HF.
  destruct (pipeline_returns ep R fuel F audio_bytes lang w Hs HF) as ([[c conf] e] & w' & H).
  exists c, conf, e, w'. split; [exact H | apply (K c conf e w'); exact H].
Qed.

Lemma explanation_valid_witness :
  settles MT19937.generator 8 reference_payload /\
  (exists c conf e w',
     pipeline main_entry MT19937.generator 16 reference_payload "english" mt_world
       = (Ok (c, conf, e), w') /\
     (List.length (primary_indicators e) = 2%nat \/
      List.length (primary_indicators e) = 3%nat) /\
     NoDup (primary_indicators e)) /\
  (exists c conf e w',
     pipeline m_entry MT19937.generator 16 reference_payload "english" mt_world
       = (Ok (c, conf, e), w') /\
     (List.length (primary_indicators e) = 2%nat \/
      List.length (primary_indicators e) = 3%nat) /\
     NoDup (primary_indicators e)).
Proof.
  assert (HF : (8 <= 17)%nat) by lia.
  split; [exact reference_payload_settles | ]. split.
  - destruct (proj1 (explanation_valid main_entry MT19937.generator 16 reference_payload
                       "english" mt_world) 8%nat reference_payload_settles HF)
      as (c & conf & e & w' & H & Hl & _ & _ & Hn & _).
    exists c, conf, e, w'. split; [exact H | ]. split; [exact Hl | exact Hn].
  - destruct (proj1 (explanation_valid m_entry MT19937.generator 16 reference_payload
                       "english" mt_world) 8%nat reference_payload_settles HF)
      as (c & conf & e & w' & H & Hl & _ & _ & Hn & _).
    exists c, conf, e, w'. split; [exact H | ]. split; [exact Hl | exact Hn].
Defined.

(** C5. The label is AI_GENERATED exactly when the first uniform draw of
    the seeded generator is below 0.6, HUMAN otherwise; the confidence is
    [0.75 + d2 * 0.23], respectively [0.70 + d2 * 0.25], of the second
    draw, rounded to 4 decimals.  Both draws lie in [0, 1).  Label and
    confidence are returned whenever the seeded generator settles within
    the retry bound, and every run that returns, returns these. *)
Theorem label_and_confidence (ep : entry_point) (R : Generator) (fuel : nat)
    (audio_bytes : bytes) (lang : string) (w : world R) :
  let computed (c : classification) (conf : Q) :=
    exists h,
      fingerprint audio_bytes = Ok h /\
      (0 <= draw1 R h /\ draw1 R h < 1)%Q /\
      (0 <= draw2 R h /\ draw2 R h < 1)%Q /\
      (c = AI_GENERATED <-> (draw1 R h < lit 6 1)%Q) /\
      (c = HUMAN <-> ~ (draw1 R h < lit 6 1)%Q) /\
      (c = AI_GENERATED ->
       conf = round (fadd (lit 75 2) (fmul (draw2 R h) (lit 23 2))) 4) /\
      (c = HUMAN ->
       conf = round (fadd (lit 70 2) (fmul (draw2 R h) (lit 25 2))) 4) in
  (forall F : nat, settles R F audio_bytes -> (F <= S fuel)%nat ->
     exists c conf e w',
       pipeline ep R fuel audio_bytes lang w = (Ok (c, conf, e), w') /\ computed c conf) /\
  (forall c conf e w',
     pipeline ep R fuel audio_bytes lang w = (Ok (c, conf, e), w') -> computed c conf).
Proof.
  intros computed.
  assert (K : forall c conf e w',
            pipeline ep R fuel audio_bytes lang w = (Ok (c, conf, e), w') ->
            computed c conf).
  { intros c conf e w' H. apply pipeline_ok_inv in H.
    destruct H as (h & k & u1 & u2 & u3 & Hfp & Hc & Hconf & _).
    exists h. split; [exact Hfp | ].
    split; [apply genrand_res53_range | ].
    split; [apply genrand_res53_range | ].
    destruct (label_of_spec (draw1 R h)) as [La Lh]. rewrite <- Hc in La, Lh.
    split; [exact La | ]. split; [exact Lh | ].
    split; intros ->; rewrite Hconf; reflexivity. }
  split; [ | exact K].
  intros F Hs HF.
  destruct (pipeline_returns ep R fuel F audio_bytes lang w Hs HF) as ([[c conf] e] & w' & H).
  exists c, conf, e, w'. split; [exact H | apply (K c conf e w'); exact H].
Qed.

Lemma label_and_confidence_witness :
  settles MT19937.generator 8 reference_payload /\
  (exists c conf e w' h,
     pipeline m_entry MT19937.generator 16 reference_payload "tamil" mt_world
       = (Ok (c, conf, e), w') /\
     fingerprint reference_payload = Ok h /\
     (c = AI_GENERATED <-> (draw1 MT19937.generator h < lit 6 1)%Q)) /\
  (exists c conf e w' h,
     pipeline main_entry MT19937.generator 16 reference_payload "tamil" mt_world
       = (Ok (c, conf, e), w') /\
     fingerprint reference_payload = Ok h /\
     (c = AI_GENERATED <-> (draw1 MT19937.generator h < lit 6 1)%Q)).
Proof.
  assert (HF : (8 <= 17)%nat) by lia.
  split; [exact reference_payload_settles | ]. split.
  - destruct (proj1 (label_and_confidence m_entry MT19937.generator 16 reference_payload
                       "tamil" mt_world) 8%nat reference_payload_settles HF)
      as (c & conf & e & w' & H & h & Hfp & _ & _ & Ha & _).
    exists c, conf, e, w', h. split; [exact H | ]. split; [exact Hfp | exact Ha].
  - destruct (proj1 (label_and_confidence main_entry MT19937.generator 16 reference_payload
                       "tamil" mt_world) 8%nat reference_payload_settles HF)
      as (c & conf & e & w' & H & h & Hfp & _ & _ & Ha & _).
    exists c, conf, e, w', h. split; [exact H | ]. split; [exact Hfp | exact Ha].
Defined.

End PipelineClaims.

Section EntryPointClaims.

Local Open Scope Z_scope.


(** C6, as the code has it.  On the same payload the two entry points
    return the same label and the same confidence, and both take their
    indicators from the catalog of that label; [main.py] returns 3
    indicators, [m.py] 2 or 3.  Both return whenever the seeded generator
    settles within the retry bounds, and any two runs that return agree
    in this way. *)
Theorem entry_points_agree_on_label_and_confidence (R : Generator) (fuel1 fuel2 : nat)
    (audio_bytes : bytes) (l1 l2 : string) (w1 w2 : world R) :
  let alike (c1 : classification) (conf1 : Q) (e1 : explanation)
            (c2 : classification) (conf2 : Q) (e2 : explanation) :=
    c1 = c2 /\ conf1 = conf2 /\
    List.length (primary_indicators e1) = 3%nat /\
    (List.length (primary_indicators e2) = 2%nat \/
     List.length (primary_indicators e2) = 3%nat) /\
    incl (primary_indicators e1) (catalog c1) /\
    incl (primary_indicators e2) (catalog c1) in
  (forall F : nat, settles R F audio_bytes -> (F <= S fuel1)%nat -> (F <= S fuel2)%nat ->
     exists c1 conf1 e1 w1' c2 conf2 e2 w2',
       main_py.mock_ai_detection R fuel1 audio_bytes l1 w1 = (Ok (c1, conf1, e1), w1') /\
       m_py.mock_ai_detection R fuel2 audio_bytes l2 w2 = (Ok (c2, conf2, e2), w2') /\
       alike c1 conf1 e1 c2 conf2 e2) /\
  (forall c1 conf1 e1 w1' c2 conf2 e2 w2',
     main_py.mock_ai_detection R fuel1 audio_bytes l1 w1 = (Ok (c1, conf1, e1), w1') ->
     m_py.mock_ai_detection R fuel2 audio_bytes l2 w2 = (Ok (c2, conf2, e2), w2') ->
     alike c1 conf1 e1 c2 conf2 e2).
Proof.
  intros alike.
  assert (K : forall c1 conf1 e1 w1' c2 conf2 e2 w2',
            main_py.mock_ai_detection R fuel1 audio_bytes l1 w1 = (Ok (c1, conf1, e1), w1') ->
            m_py.mock_ai_detection R fuel2 audio_bytes l2 w2 = (Ok (c2, conf2, e2), w2') ->
            alike c1 conf1 e1 c2 conf2 e2).
  { intros c1 conf1 e1 w1' c2 conf2 e2 w2' H1 H2.
    apply main_py_ok_inv in H1.
    destruct H1 as (h & u1 & u2 & u3 & Hfp & Hc & Hconf & Hl & (rest & Hp) & _).
    apply m_py_ok_inv in H2.
    destruct H2 as (h' & k & v1 & v2 & v3 & Hfp' & Hc' & Hconf' & Hk & Hl' & (rest' & Hp') & _).
    assert (h' = h) by congruence. subst h'.
    assert (Ec : c2 = c1) by congruence.
    rewrite Ec in Hconf', Hp'. clear Hc'.
    split; [symmetry; exact Ec | ]. split; [congruence | ]. split; [exact Hl | ].
    split; [lia | ].
    split.
    - apply (sample_distinct (catalog c1) _ rest (catalog_NoDup c1) Hp).
    - apply (sample_distinct (catalog c1) _ rest' (catalog_NoDup c1) Hp'). }
  split; [ | exact K].
  intros F Hs HF1 HF2.
  destruct (main_py_returns R fuel1 F HF1 audio_bytes l1 w1 Hs) as ([[c1 conf1] e1] & w1' & H1).
  destruct (m_py_returns R fuel2 F HF2 audio_bytes l2 w2 Hs) as ([[c2 conf2] e2] & w2' & H2).
  exists c1, conf1, e1, w1', c2, conf2, e2, w2'.
  split; [exact H1 | ]. split; [exact H2 | ].
  apply (K _ _ _ _ _ _ _ _ H1 H2).
Qed.

Lemma entry_points_agree_witness :
  settles MT19937.generator 8 reference_payload /\
  exists c1 conf1 e1 w1' c2 conf2 e2 w2',
    main_py.mock_ai_detection MT19937.generator 16 reference_payload "english" mt_world
      = (Ok (c1, conf1, e1), w1') /\
    m_py.mock_ai_detection MT19937.generator 16 reference_payload "english" mt_world
      = (Ok (c2, conf2, e2), w2') /\
    c1 = c2 /\ conf1 = conf2.
Proof.
  assert (HF : (8 <= 17)%nat) by lia.
  split; [exact reference_payload_settles | ].
  destruct (proj1 (entry_points_agree_on_label_and_confidence MT19937.generator 16 16
                     reference_payload "english" "english" mt_world mt_world)
              8%nat reference_payload_settles HF HF)
    as (c1 & conf1 & e1 & w1' & c2 & conf2 & e2 & w2' & H1 & H2 & Hc & Hconf & _).
  exists c1, conf1, e1, w1', c2, conf2, e2, w2'.
  split; [exact H1 | ]. split; [exact H2 | ]. split; [exact Hc | exact Hconf].
Defined.

(** C6 fails on the reference payload itself: the two entry points return
    different indicator sets. *)
Lemma entry_points_differ_on_reference :
  exists r1 w1 r2 w2,
    main_py.mock_ai_detection MT19937.generator 16 reference_payload "english" mt_world
      = (Ok r1, w1) /\
    m_py.mock_ai_detection MT19937.generator 16 reference_payload "english" mt_world
      = (Ok r2, w2) /\
    ~ same_triple r1 r2.
Proof.
  evaluate (main_py.mock_ai_detection MT19937.generator 16 reference_payload "english" mt_world) H1.
  evaluate (m_py.mock_ai_detection MT19937.generator 16 reference_payload "english" mt_world) H2.
  match type of H1 with
  | _ = (Ok ?r, ?w') => exists r, w'
  end.
  match type of H2 with
  | _ = (Ok ?r, ?w') => exists r, w'
  end.
  split; [exact H1 | ]. split; [exact H2 | ].
  unfold same_triple, same_set. cbn [primary_indicators].
  intros (_ & _ & Hin & _).
  specialize (Hin "Irregular breathing pattern intervals"%string (or_introl eq_refl)).
  cbn [In] in Hin.
  repeat (destruct Hin as [Hin | Hin]; [discriminate Hin | ]). exact Hin.
Qed.

(** C7. A decoded payload that begins with neither [ff fb] nor ["ID3"]
    makes [decode_audio] raise the client error 400 "Invalid MP3 format";
    the handler then ends in an HTTP error and leaves the generator and
    the record of draws untouched: nothing is classified.  With a valid
    key and a supported language the error is that same 400. *)
Theorem unrecognized_signature_rejected (R : Generator) (fuel : nat) (key : string)
    (b64decode : string -> outcome bytes) (request : AudioRequest) (api_key : string)
    (t_start t_end : Z) (w : world R) (audio_bytes : bytes) :
  b64decode (audio_base64 request) = Ok audio_bytes ->
  startswith audio_bytes MP3_SYNC = false ->
  startswith audio_bytes ID3_TAG = false ->
  main_py.decode_audio b64decode (audio_base64 request) =
    Raise (HTTPException 400 "Invalid audio data: Invalid MP3 format") /\
  (exists status detail,
     main_py.detect_voice R fuel key b64decode request api_key t_start t_end w =
       (Raise (HTTPException status detail), w)) /\
  (api_key = key -> In (language request) SUPPORTED_LANGUAGES ->
   main_py.detect_voice R fuel key b64decode request api_key t_start t_end w =
     (Raise (HTTPException 400 "Invalid audio data: Invalid MP3 format"), w)).
Proof.
  intros Hd H1 H2.
  pose proof (decode_audio_rejects b64decode _ _ Hd H1 H2) as Hr.
  split; [exact Hr | ].
  apply detect_voice_rejects. exact Hr.
Qed.

Lemma unrecognized_signature_rejected_witness :
  startswith not_audio MP3_SYNC = false /\
  startswith not_audio ID3_TAG = false /\
  main_py.detect_voice MT19937.generator 16 "secret" (decode_to not_audio)
    (mkRequest "UklGRg==" "english") "secret" 0 1500 mt_world =
    (Raise (HTTPException 400 "Invalid audio data: Invalid MP3 format"), mt_world).
Proof.
  split; [reflexivity | ]. split; [reflexivity | ].
  apply (unrecognized_signature_rejected MT19937.generator 16 "secret" (decode_to not_audio)
           (mkRequest "UklGRg==" "english") "secret" 0 1500 mt_world not_audio).
  - reflexivity.
  - reflexivity.
  - reflexivity.
  - reflexivity.
  - cbn. auto.
Defined.

(** C8. For a payload with a recognized signature the estimated duration
    is [(len / 1024) / 16]: the float nearest to [len / 16384], and that
    quotient exactly for every length below [2^53].  The response carries
    it rounded to 2 decimals; for 16384 bytes that is exactly 1. *)
Theorem estimated_duration (R : Generator) (fuel : nat) (key : string)
    (b64decode : string -> outcome bytes) (request : AudioRequest) (api_key : string)
    (t_start t_end : Z) (w : world R) (audio_bytes : bytes) :
  b64decode (audio_base64 request) = Ok audio_bytes ->
  startswith audio_bytes MP3_SYNC || startswith audio_bytes ID3_TAG = true ->
  let n := Z.of_nat (List.length audio_bytes) in
  exists d,
    main_py.decode_audio b64decode (audio_base64 request) = Ok (audio_bytes, d) /\
    (d == RN (inject_Z n / 16384))%Q /\
    (n < 2 ^ 53 -> (d == inject_Z n / 1024 / 16)%Q) /\
    forall resp w',
      main_py.detect_voice R fuel key b64decode request api_key t_start t_end w = (Ok resp, w') ->
      audio_duration_seconds resp = round d 2 /\
      (n = 16384 -> audio_duration_seconds resp = 1%Q).
Proof.
  intros Hd Hs n.
  pose proof (decode_audio_accepts b64decode _ _ Hd Hs) as Ha. fold n in Ha.
  destruct (duration_value n ltac:(lia)) as [V1 V2].
  exists (fdiv (int_truediv n 1024) (of_int 16)).
  split; [exact Ha | ]. split; [exact V1 | ].
  split.
  { intros Hn. rewrite (V2 Hn). field. }
  intros resp w' Hr.
  apply detect_voice_ok_inv in Hr.
  destruct Hr as (B & d & c & conf & e & _ & _ & Hdec & _ & ->).
  rewrite Ha in Hdec. inversion Hdec; subst B d. clear Hdec.
  cbn [audio_duration_seconds]. split; [reflexivity | ].
  intros Hn.
  assert (E1 : (fdiv (int_truediv n 1024) (of_int 16) == 1)%Q).
  { rewrite V2 by lia. rewrite Hn. reflexivity. }
  rewrite (round_proper _ _ 2 E1). vm_compute. reflexivity.
Qed.

Lemma estimated_duration_witness :
  exists resp w',
    main_py.detect_voice MT19937.generator 16 "secret" (decode_to payload_16k)
      (mkRequest "" "english") "secret" 0 1500 mt_world = (Ok resp, w') /\
    Z.of_nat (List.length payload_16k) = 16384 /\
    audio_duration_seconds resp = 1%Q.
Proof.
  evaluate (main_py.detect_voice MT19937.generator 16 "secret" (decode_to payload_16k)
              (mkRequest "" "english") "secret" 0 1500 mt_world) H.
  match type of H with
  | _ = (Ok ?r, ?w') => exists r, w'
  end.
  assert (Hn : Z.of_nat (List.length payload_16k) = 16384) by (vm_compute; reflexivity).
  split; [exact H | ]. split; [exact Hn | ].
  destruct (estimated_duration MT19937.generator 16 "secret" (decode_to payload_16k)
              (mkRequest "" "english") "secret" 0 1500 mt_world payload_16k
              eq_refl eq_refl) as (d & _ & _ & _ & Hresp).
  exact (proj2 (Hresp _ _ H) Hn).
Defined.



(** C10. The language tag does not influence detection: for the same
    payload and any two languages (and any two states of the hidden
    generator) the two runs end the same way with the same label,
    confidence, indicator list and sub-scores; only the caption differs,
    being the capitalized tag followed by " phonetic patterns analyzed". *)
Theorem language_independent (ep : entry_point) (R : Generator) (fuel : nat)
    (audio_bytes : bytes) (l1 l2 : string) (w1 w2 : world R) :
  omap scores (fst (pipeline ep R fuel audio_bytes l1 w1)) =
  omap scores (fst (pipeline ep R fuel audio_bytes l2 w2)) /\
  match fst (pipeline ep R fuel audio_bytes l1 w1),
        fst (pipeline ep R fuel audio_bytes l2 w2) with
  | Ok r1, Ok r2 => same_but_caption l1 l2 r1 r2
  | Raise e1, Raise e2 => e1 = e2
  | Diverge, Diverge => True
  | _, _ => False
  end.
Proof.
  pose proof (pipeline_agree ep R fuel audio_bytes l1 l2 w1 w2) as H.
  unfold post in H.
  destruct (fst (pipeline ep R fuel audio_bytes l1 w1)) as [r1 | e1 | ];
    destruct (fst (pipeline ep R fuel audio_bytes l2 w2)) as [r2 | e2 | ];
    try contradiction; cbn [omap].
  - destruct H as [H _]. split; [ | exact H].
    destruct H as (c & conf & ind & f & -> & ->). reflexivity.
  - split; [rewrite H; reflexivity | exact H].
  - split; [reflexivity | exact I].
Qed.

End EntryPointClaims.

Section HandlerSteps.

Local Open Scope Z_scope.

(** ** The two handlers, step by step *)

Lemma decode_audio_same (b64decode : string -> outcome bytes) (s : string) :
  m_py_handler.decode_audio b64decode s = main_py.decode_audio b64decode s.
Proof. reflexivity. Qed.

(** The whole behaviour of either handler: key, language, payload,
    detection, in this order. *)
Lemma handler_run (ep : entry_point) (R : Generator) (fuel : nat) (key : string)
    (b64decode : string -> outcome bytes) (request : AudioRequest) (api_key : string)
    (t_start t_end : Z) (w : world R) :
  handler ep R fuel key b64decode request api_key t_start t_end w =
    if negb (String.eqb api_key (configured_key ep key)) then (Raise (auth_error ep), w)
    else if negb (language_accepted ep (language request)) then (Raise (language_error ep), w)
    else
      match main_py.decode_audio b64decode (audio_base64 request) with
      | Ok (audio_bytes, duration) =>
          match pipeline ep R fuel audio_bytes (language request) w with
          | (Ok r, w') => (Ok (assemble (language request) t_start t_end duration r), w')
          | (Raise e, w') => (Raise e, w')
          | (Diverge, w') => (Diverge, w')
          end
      | Raise e => (Raise e, w)
      | Diverge => (Diverge, w)
      end.
Proof.
  destruct ep; cbn [handler configured_key language_accepted auth_error language_error pipeline].
  - unfold main_py.detect_voice, bind, lift, main_py.verify_api_key.
    destruct (negb (api_key =? key)%string); [reflexivity | ].
    destruct (negb (existsb (String.eqb (language request)) SUPPORTED_LANGUAGES));
      [reflexivity | ].
    unfold ret.
    destruct (main_py.decode_audio b64decode (audio_base64 request)) as [[B d] | e | ];
      try reflexivity.
    destruct (main_py.mock_ai_detection R fuel B (language request) w)
      as [[[[c conf] e] | e | ] w']; reflexivity.
  - unfold m_py_handler.detect_voice, bind, lift, m_py_handler.verify_api_key.
    destruct (negb (api_key =? m_py_handler.VALID_API_KEY)%string); [reflexivity | ].
    destruct (negb (existsb (String.eqb (lower (language request))) SUPPORTED_LANGUAGES));
      [reflexivity | ].
    unfold ret. rewrite decode_audio_same.
    destruct (main_py.decode_audio b64decode (audio_base64 request)) as [[B d] | e | ];
      try reflexivity.
    destruct (m_py.mock_ai_detection R fuel B (language request) w)
      as [[[[c conf] e] | e | ] w']; reflexivity.
Qed.

Lemma decode_audio_cases (b64decode : string -> outcome bytes) (s : string) :
  main_py.decode_audio b64decode s =
    match b64decode s with
    | Ok B =>
        if startswith B MP3_SYNC || startswith B ID3_TAG
        then Ok (B, fdiv (int_truediv (Z.of_nat (List.length B)) 1024) (of_int 16))
        else Raise (HTTPException 400 "Invalid audio data: Invalid MP3 format")
    | Raise e => Raise (HTTPException 400 ("Invalid audio data: " ++ str_exn e))
    | Diverge => Diverge
    end.
Proof.
  unfold main_py.decode_audio.
  destruct (b64decode s) as [B | e | ]; try reflexivity.
  destruct (startswith B MP3_SYNC); destruct (startswith B ID3_TAG); reflexivity.
Qed.

Lemma handler_ok_inv (ep : entry_point) (R : Generator) (fuel : nat) (key : string)
    (b64decode : string -> outcome bytes) (request : AudioRequest) (api_key : string)
    (t_start t_end : Z) (w w' : world R) (resp : DetectionResponse) :
  handler ep R fuel key b64decode request api_key t_start t_end w = (Ok resp, w') ->
  api_key = configured_key ep key /\
  language_accepted ep (language request) = true /\
  exists B d r,
    main_py.decode_audio b64decode (audio_base64 request) = Ok (B, d) /\
    pipeline ep R fuel B (language request) w = (Ok r, w') /\
    resp = assemble (language request) t_start t_end d r.
Proof.
  rewrite handler_run.
  destruct (String.eqb_spec api_key (configured_key ep key)) as [Ek | Nk]; cbn [negb];
    [ | discriminate].
  destruct (language_accepted ep (language request)); cbn [negb]; [ | discriminate].
  destruct (main_py.decode_audio b64decode (audio_base64 request)) as [[B d] | e | ];
    try discriminate.
  destruct (pipeline ep R fuel B (language request) w) as [[r | e | ] w1] eqn:E;
    try discriminate.
  intros H. inversion H; subst. split; [reflexivity | ]. split; [reflexivity | ].
  exists B, d, r. auto.
Qed.

Lemma handler_raise_inv (ep : entry_point) (R : Generator) (fuel : nat) (key : string)
    (b64decode : string -> outcome bytes) (request : AudioRequest) (api_key : string)
    (t_start t_end : Z) (w w' : world R) (e : exn) :
  handler ep R fuel key b64decode request api_key t_start t_end w = (Raise e, w') ->
  w' = w /\
  ((api_key <> configured_key ep key /\ e = auth_error ep) \/
   (api_key = configured_key ep key /\ language_accepted ep (language request) = false /\
    e = language_error ep) \/
   (api_key = configured_key ep key /\ language_accepted ep (language request) = true /\
    main_py.decode_audio b64decode (audio_base64 request) = Raise e)).
Proof.
  rewrite handler_run.
  destruct (String.eqb_spec api_key (configured_key ep key)) as [Ek | Nk]; cbn [negb].
  - destruct (language_accepted ep (language request)); cbn [negb].
    + destruct (main_py.decode_audio b64decode (audio_base64 request)) as [[B d] | e0 | ];
        try discriminate.
      * destruct (pipeline ep R fuel B (language request) w) as [[r | e0 | ] w1] eqn:E;
          try discriminate.
        exfalso. apply (pipeline_never_raises _ _ _ _ _ _ _ _ E).
      * intros H. inversion H; subst. split; [reflexivity | ]. right. right. auto.
    + intros H. inversion H; subst. split; [reflexivity | ]. right. left. auto.
  - intros H. inversion H; subst. split; [reflexivity | ]. left. auto.
Qed.

Lemma handler_returns (ep : entry_point) (R : Generator) (fuel F : nat) (key : string)
    (b64decode : string -> outcome bytes) (request : AudioRequest)
    (t_start t_end : Z) (w : world R) (B : bytes) (d : Q) :
  settles R F B -> (F <= S fuel)%nat ->
  language_accepted ep (language request) = true ->
  main_py.decode_audio b64decode (audio_base64 request) = Ok (B, d) ->
  exists r w',
    pipeline ep R fuel B (language request) w = (Ok r, w') /\
    handler ep R fuel key b64decode request (configured_key ep key) t_start t_end w
      = (Ok (assemble (language request) t_start t_end d r), w').
Proof.
  intros HF Hle Hl Hd. rewrite handler_run.
  rewrite String.eqb_refl, Hl, Hd. cbn [negb].
  destruct (pipeline_returns ep R fuel F B (language request) w HF Hle) as (r & w' & E).
  rewrite E. eauto.
Qed.

(** [decode_audio] on a payload with a signature. *)
Lemma decode_audio_signed (b64decode : string -> outcome bytes) (s : string) (B : bytes) :
  b64decode s = Ok B ->
  startswith B MP3_SYNC || startswith B ID3_TAG = true ->
  main_py.decode_audio b64decode s
    = Ok (B, fdiv (int_truediv (Z.of_nat (List.length B)) 1024) (of_int 16)).
Proof. intros Hb Hs. rewrite decode_audio_cases, Hb, Hs. reflexivity. Qed.

End HandlerSteps.

Section ValueFacts.

Local Open Scope Z_scope.

(** ** Text, fingerprints and decimal grids *)

Lemma supported_lower (l : string) : In l SUPPORTED_LANGUAGES -> lower l = l.
Proof.
  intros H. cbn [SUPPORTED_LANGUAGES In] in H.
  destruct H as [<- | [<- | [<- | [<- | [<- | []]]]]]; reflexivity.
Qed.

(** Reading hexadecimal digits back gives the big-endian value. *)
Lemma hex_accum_value (l : bytes) (acc : Z) :
  hex_accum (SHA256.hex l) acc
    = Some (fold_left (fun a b => 256 * a + byte_val b) l acc).
Proof.
  revert acc. induction l as [ | b l IH]; intros acc; [reflexivity | ].
  pose proof (byte_val_range b) as Hb.
  cbn [SHA256.hex hex_accum fold_left].
  rewrite hex_value_hex_digit
    by (split; [apply Z.div_pos; lia | apply Z.div_lt_upper_bound; lia]).
  rewrite hex_value_hex_digit by (apply Z.mod_pos_bound; lia).
  rewrite IH. do 2 f_equal.
  pose proof (Z.div_mod (byte_val b) 16 ltac:(lia)). lia.
Qed.

Lemma fold_bytes_range (l : bytes) (acc : Z) : 0 <= acc ->
  0 <= fold_left (fun a b => 256 * a + byte_val b) l acc
    < (acc + 1) * 256 ^ Z.of_nat (List.length l).
Proof.
  revert acc. induction l as [ | b l IH]; intros acc Hacc.
  - cbn. lia.
  - pose proof (byte_val_range b) as Hb.
    cbn [fold_left List.length].
    destruct (IH (256 * acc + byte_val b) ltac:(lia)) as [H1 H2].
    split; [exact H1 | ].
    rewrite Nat2Z.inj_succ, Z.pow_succ_r by lia.
    assert (Hp : 0 < 256 ^ Z.of_nat (List.length l)) by (apply Z.pow_pos_nonneg; lia).
    nia.
Qed.

Lemma be_value_range (l : bytes) :
  0 <= be_value l < 256 ^ Z.of_nat (List.length l).
Proof.
  unfold be_value. pose proof (fold_bytes_range l 0 ltac:(lia)). lia.
Qed.

(** [round] lands on the decimal grid. *)
Lemma round_on_grid (x : Q) (n : Z) : round x n = lit (rne (x * 10 ^ n)%Q) n.
Proof. unfold round, lit. reflexivity. Qed.

Lemma round_nonneg (x : Q) (n : Z) : (0 <= x -> 0 <= round x n)%Q.
Proof.
  intros Hx. unfold round. apply RN_nonneg.
  apply Qle_shift_div_l; [apply pow10_pos | ].
  rewrite Qmult_0_l.
  change 0%Q with (inject_Z 0). rewrite <- Zle_Qle. apply rne_nonneg.
  apply Qmult_le_0_compat; [exact Hx | apply Qlt_le_weak, pow10_pos].
Qed.


Lemma rne_between (lo hi x : Q) (n : Z) :
  (lo <= x)%Q -> (x <= hi)%Q ->
  rne (lo * 10 ^ n)%Q <= rne (x * 10 ^ n)%Q <= rne (hi * 10 ^ n)%Q.
Proof.
  intros L U. pose proof (pow10_pos n) as Hp.
  split; apply rne_mono; apply Qmult_le_compat_r; try assumption;
    apply Qlt_le_weak; exact Hp.
Qed.

Lemma confidence_on_grid (c : classification) (d : Q) : (0 <= d)%Q -> (d < 1)%Q ->
  exists n, confidence_of c d = lit n 4 /\
    (c = AI_GENERATED -> 7500 <= n <= 9800) /\
    (c = HUMAN -> 7000 <= n <= 9500).
Proof.
  intros Hd Hd1. destruct c; cbn [confidence_of]; rewrite round_on_grid;
    eexists; (split; [reflexivity | ]); split; intros Hc; try discriminate.
  - assert (Ha : (0 <= lit 75 2)%Q) by (vm_compute; discriminate).
    assert (Hs : (0 <= lit 23 2)%Q) by (vm_compute; discriminate).
    destruct (offset_scale_range (lit 75 2) (lit 23 2) d Ha Hs Hd Hd1) as [L U].
    pose proof (rne_between _ _ _ 4 L U) as H.
    assert (E1 : rne (RN (lit 75 2) * 10 ^ 4)%Q = 7500) by (vm_compute; reflexivity).
    assert (E2 : rne (RN (lit 75 2 + RN (lit 23 2)) * 10 ^ 4)%Q = 9800)
      by (vm_compute; reflexivity).
    rewrite E1, E2 in H. exact H.
  - assert (Ha : (0 <= lit 70 2)%Q) by (vm_compute; discriminate).
    assert (Hs : (0 <= lit 25 2)%Q) by (vm_compute; discriminate).
    destruct (offset_scale_range (lit 70 2) (lit 25 2) d Ha Hs Hd Hd1) as [L U].
    pose proof (rne_between _ _ _ 4 L U) as H.
    assert (E1 : rne (RN (lit 70 2) * 10 ^ 4)%Q = 7000) by (vm_compute; reflexivity).
    assert (E2 : rne (RN (lit 70 2 + RN (lit 25 2)) * 10 ^ 4)%Q = 9500)
      by (vm_compute; reflexivity).
    rewrite E1, E2 in H. exact H.
Qed.

Lemma subscore_on_grid (a b d : Q) (lo hi : Z) :
  (0 <= a)%Q -> (0 <= fsub b a)%Q -> (0 <= d)%Q -> (d < 1)%Q ->
  rne (RN a * 10 ^ 3)%Q = lo ->
  rne (RN (a + RN (fsub b a)) * 10 ^ 3)%Q = hi ->
  exists n, subscore a b d = lit n 3 /\ lo <= n <= hi.
Proof.
  intros Ha Hs Hd Hd1 E1 E2. unfold subscore. rewrite round_on_grid.
  eexists. split; [reflexivity | ].
  destruct (offset_scale_range' a (fsub b a) d Ha Hs Hd Hd1) as [L U].
  pose proof (rne_between _ _ _ 3 L U) as H.
  rewrite E1, E2 in H. exact H.
Qed.

Lemma confidence_of_unit (c : classification) (d : Q) : (0 <= d)%Q -> (d < 1)%Q ->
  (0 <= confidence_of c d /\ confidence_of c d <= 1)%Q.
Proof.
  intros Hd Hd1. destruct c; cbn [confidence_of].
  - destruct (confidence_ai_range d Hd Hd1) as [L U].
    assert (H0 : (0 <= lit 75 2)%Q) by (vm_compute; discriminate).
    assert (H1 : (lit 98 2 <= 1)%Q) by (vm_compute; discriminate).
    split; [apply Qle_trans with (lit 75 2) | apply Qle_trans with (lit 98 2)]; assumption.
  - destruct (confidence_human_range d Hd Hd1) as [L U].
    assert (H0 : (0 <= lit 70 2)%Q) by (vm_compute; discriminate).
    assert (H1 : (lit 95 2 <= 1)%Q) by (vm_compute; discriminate).
    split; [apply Qle_trans with (lit 70 2) | apply Qle_trans with (lit 95 2)]; assumption.
Qed.

Lemma draw2_range (R : Generator) (h : Z) : (0 <= draw2 R h /\ draw2 R h < 1)%Q.
Proof. unfold draw2. apply genrand_res53_range. Qed.

(** The confidence of every response passes the field constraint. *)
Lemma assemble_confidence (ep : entry_point) (R : Generator) (fuel : nat)
    (B : bytes) (l : string) (w w' : world R) (r : detection)
    (t_start t_end : Z) (d : Q) :
  pipeline ep R fuel B l w = (Ok r, w') ->
  confidence_field_ok (assemble l t_start t_end d r) = true.
Proof.
  destruct r as [[c conf] e]. intros Hp.
  apply pipeline_ok_inv in Hp.
  destruct Hp as (h & k & u1 & u2 & u3 & _ & _ & Hconf & _).
  destruct (draw2_range R h) as [D0 D1].
  destruct (confidence_of_unit c (draw2 R h) D0 D1) as [L U].
  unfold confidence_field_ok, assemble. cbn [resp_confidence].
  rewrite Hconf. apply andb_true_intro. split; apply Qle_bool_iff; assumption.
Qed.

Lemma handler_confidence (ep : entry_point) (R : Generator) (fuel : nat) (key : string)
    (b64decode : string -> outcome bytes) (request : AudioRequest) (api_key : string)
    (t_start t_end : Z) (w w' : world R) (resp : DetectionResponse) :
  handler ep R fuel key b64decode request api_key t_start t_end w = (Ok resp, w') ->
  confidence_field_ok resp = true.
Proof.
  intros H. apply handler_ok_inv in H.
  destruct H as (_ & _ & B & d & r & _ & Hp & ->).
  exact (assemble_confidence _ _ _ _ _ _ _ _ _ _ _ Hp).
Qed.

(** Two runs of a handler on one request: the same result, apart from
    the measured time, and the same generator afterwards. *)
Lemma handler_runs_agree (ep : entry_point) (R : Generator) (fuel : nat) (key : string)
    (b64decode : string -> outcome bytes) (request : AudioRequest) (api_key : string)
    (t1 t2 t1' t2' : Z) (w1 w2 : world R) :
  post (fun r1 r2 => without_timing r1 = without_timing r2)
    (handler ep R fuel key b64decode request api_key t1 t2 w1)
    (handler ep R fuel key b64decode request api_key t1' t2' w2).
Proof.
  rewrite !handler_run.
  destruct (negb (api_key =? configured_key ep key)%string); [reflexivity | ].
  destruct (negb (language_accepted ep (language request))); [reflexivity | ].
  destruct (main_py.decode_audio b64decode (audio_base64 request)) as [[B d] | e | ];
    [ | reflexivity | exact I].
  pose proof (pipeline_agree ep R fuel B (language request) (language request) w1 w2) as H.
  unfold post in H |- *.
  destruct (pipeline ep R fuel B (language request) w1) as [[r1 | e1 | ] v1];
    destruct (pipeline ep R fuel B (language request) w2) as [[r2 | e2 | ] v2];
    cbn [fst snd] in H |- *; try contradiction; try assumption.
  destruct H as [(c & conf & ind & f & -> & ->) Hg].
  split; [reflexivity | exact Hg].
Qed.

End ValueFacts.

Section RejectionProperties.

Local Open Scope Z_scope.

(** ** Further properties of the handlers *)

(** X1. A wrong key is answered with 401 before anything else is looked
    at: whatever the language and the audio, and without touching the
    generator ([verify_api_key] and the first step of [detect_voice], both
    files). *)
Theorem wrong_key_rejected_first (ep : entry_point) (R : Generator) (fuel : nat)
    (key : string) (b64decode : string -> outcome bytes) (request : AudioRequest)
    (api_key : string) (t_start t_end : Z) (w : world R) :
  api_key <> configured_key ep key ->
  handler ep R fuel key b64decode request api_key t_start t_end w
    = (Raise (auth_error ep), w).
Proof.
  intros Hk. rewrite handler_run.
  destruct (String.eqb_spec api_key (configured_key ep key)); [contradiction | reflexivity].
Qed.

Lemma wrong_key_rejected_first_witness :
  "guess"%string <> configured_key m_entry "secret" /\
  handler m_entry zero_generator 0 "secret" (decode_to not_audio)
    (mkRequest "" "klingon") "guess" 0 0 zero_world
    = (Raise (HTTPException 401 "Invalid API key"), zero_world).
Proof.
  assert (H : "guess"%string <> configured_key m_entry "secret") by discriminate.
  split; [exact H | ].
  exact (wrong_key_rejected_first m_entry zero_generator 0 "secret" (decode_to not_audio)
           (mkRequest "" "klingon") "guess" 0 0 zero_world H).
Defined.

(** X3. Whatever goes wrong in [decode_audio], a failed base64 decoding
    or an unrecognized signature, it surfaces as HTTP 400 with a detail
    that begins "Invalid audio data: " and carries the message of the
    original exception. *)
Theorem decode_audio_fails_with_400 (b64decode : string -> outcome bytes) (s : string)
    (e : exn) :
  main_py.decode_audio b64decode s = Raise e ->
  exists msg,
    e = HTTPException 400 ("Invalid audio data: " ++ msg) /\
    (msg = "Invalid MP3 format"%string \/
     exists e0, b64decode s = Raise e0 /\ msg = str_exn e0).
Proof.
  rewrite decode_audio_cases.
  destruct (b64decode s) as [B | e0 | ]; try discriminate.
  - destruct (startswith B MP3_SYNC || startswith B ID3_TAG); [discriminate | ].
    intros H. inversion H. exists "Invalid MP3 format"%string. auto.
  - intros H. inversion H. exists (str_exn e0). split; [reflexivity | ]. right. eauto.
Qed.

Lemma decode_audio_fails_with_400_witness :
  main_py.decode_audio (fun _ => Raise (BinasciiError "Incorrect padding")) "abc"
    = Raise (HTTPException 400 "Invalid audio data: Incorrect padding") /\
  exists msg,
    HTTPException 400 "Invalid audio data: Incorrect padding"
      = HTTPException 400 ("Invalid audio data: " ++ msg).
Proof.
  assert (H : main_py.decode_audio (fun _ => Raise (BinasciiError "Incorrect padding")) "abc"
              = Raise (HTTPException 400 "Invalid audio data: Incorrect padding"))
    by reflexivity.
  split; [exact H | ].
  destruct (decode_audio_fails_with_400 _ _ _ H) as (msg & E & _).
  exists msg. exact E.
Defined.

(** X4. Every exception that leaves a handler is an [HTTPException] with
    status 401 or 400, and it leaves before the generator is touched: the
    detection itself never raises. *)
Theorem handler_errors_are_client_errors (ep : entry_point) (R : Generator) (fuel : nat)
    (key : string) (b64decode : string -> outcome bytes) (request : AudioRequest)
    (api_key : string) (t_start t_end : Z) (w w' : world R) (e : exn) :
  handler ep R fuel key b64decode request api_key t_start t_end w = (Raise e, w') ->
  w' = w /\
  exists detail, e = HTTPException 401 detail \/ e = HTTPException 400 detail.
Proof.
  intros H. apply handler_raise_inv in H. destruct H as [Hw H].
  split; [exact Hw | ].
  destruct H as [[_ ->] | [(_ & _ & ->) | (_ & _ & Hd)]].
  - destruct ep; cbn [auth_error]; eauto.
  - destruct ep; cbn [language_error]; eauto.
  - rewrite decode_audio_cases in Hd.
    destruct (b64decode (audio_base64 request)) as [B | e0 | ]; try discriminate.
    + destruct (startswith B MP3_SYNC || startswith B ID3_TAG); [discriminate | ].
      inversion Hd. eauto.
    + inversion Hd. eauto.
Qed.

Lemma handler_errors_are_client_errors_witness :
  handler main_entry zero_generator 0 "secret" (decode_to not_audio)
    (mkRequest "" "english") "secret" 0 0 zero_world
    = (Raise (HTTPException 400 "Invalid audio data: Invalid MP3 format"), zero_world) /\
  exists detail,
    HTTPException 400 "Invalid audio data: Invalid MP3 format" = HTTPException 401 detail \/
    HTTPException 400 "Invalid audio data: Invalid MP3 format" = HTTPException 400 detail.
Proof.
  assert (H : handler main_entry zero_generator 0 "secret" (decode_to not_audio)
                (mkRequest "" "english") "secret" 0 0 zero_world
              = (Raise (HTTPException 400 "Invalid audio data: Invalid MP3 format"),
                 zero_world)) by reflexivity.
  split; [exact H | ].
  exact (proj2 (handler_errors_are_client_errors _ _ _ _ _ _ _ _ _ _ _ _ H)).
Defined.

End RejectionProperties.

Section ReplyProperties.

Local Open Scope Z_scope.

(** ** What the client of the endpoint sees *)

(** X5. The endpoint never fails with an error no handler is registered
    for: a response always passes the constraint [0.0 <= confidence <= 1.0]
    of [DetectionResponse], and every exception is an [HTTPException],
    which [http_exception_handler] turns into a JSON body that repeats the
    HTTP status (400 or 401), the detail and the time of the error. *)
Theorem endpoint_reply_shape (ep : entry_point) (R : Generator) (fuel : nat) (key : string)
    (b64decode : string -> outcome bytes) (request : AudioRequest) (api_key : string)
    (t_start t_end : Z) (w : world R) (now_iso : string) :
  match reply_of (fst (handler ep R fuel key b64decode request api_key t_start t_end w))
          now_iso with
  | Reply200 body =>
      fst (handler ep R fuel key b64decode request api_key t_start t_end w) = Ok body
  | ReplyError body =>
      exists detail,
        fst (handler ep R fuel key b64decode request api_key t_start t_end w)
          = Raise (HTTPException (json_status_code body) detail) /\
        content body = mkErrorContent detail (json_status_code body) now_iso /\
        (json_status_code body = 400 \/ json_status_code body = 401)
  | Unhandled _ => False
  | NoReply =>
      fst (handler ep R fuel key b64decode request api_key t_start t_end w) = Diverge
  end.
Proof.
  destruct (handler ep R fuel key b64decode request api_key t_start t_end w)
    as [[resp | e | ] w'] eqn:E; cbn [fst reply_of].
  - rewrite (handler_confidence _ _ _ _ _ _ _ _ _ _ _ _ E). reflexivity.
  - apply handler_raise_inv in E. destruct E as [_ E].
    destruct E as [[_ ->] | [(_ & _ & ->) | (_ & _ & Hd)]].
    + destruct ep; cbn; eexists; (split; [reflexivity | ]); auto.
    + destruct ep; cbn; eexists; (split; [reflexivity | ]); auto.
    + rewrite decode_audio_cases in Hd.
      destruct (b64decode (audio_base64 request)) as [B | e0 | ]; try discriminate.
      * destruct (startswith B MP3_SYNC || startswith B ID3_TAG); [discriminate | ].
        inversion Hd. cbn. eexists; (split; [reflexivity | ]); auto.
      * inversion Hd. cbn. eexists; (split; [reflexivity | ]); auto.
  - reflexivity.
Qed.

(** X6. Apart from [processing_time_ms], the answer to a request does
    not depend on when it is served or on the state the shared generator
    was left in by earlier requests: the same key, language and audio get
    the same classification, confidence, explanation and duration, or the
    same error. *)
Theorem response_repeatable (ep : entry_point) (R : Generator) (fuel : nat) (key : string)
    (b64decode : string -> outcome bytes) (request : AudioRequest) (api_key : string)
    (t1 t2 t1' t2' : Z) (w1 w2 : world R) :
  omap without_timing
    (fst (handler ep R fuel key b64decode request api_key t1 t2 w1)) =
  omap without_timing
    (fst (handler ep R fuel key b64decode request api_key t1' t2' w2)).
Proof.
  apply post_outcome. apply handler_runs_agree.
Qed.

(** X7. A served request leaves the process-wide generator in a state
    fixed by the audio alone: whatever state it was in before, and
    whatever the language, the key and the clock, it has been reseeded
    from the fingerprint and advanced by the draws of the detection.  Both
    requests are served whenever the seeded generator settles within the
    retry bound. *)
Theorem request_reseeds_generator (ep : entry_point) (R : Generator) (fuel : nat)
    (key1 key2 : string) (b64decode : string -> outcome bytes)
    (a : string) (l1 l2 : string) (t1 t2 t1' t2' : Z) (w1 w2 : world R) :
  (forall (F : nat) (audio_bytes : bytes),
     b64decode a = Ok audio_bytes ->
     startswith audio_bytes MP3_SYNC || startswith audio_bytes ID3_TAG = true ->
     language_accepted ep l1 = true -> language_accepted ep l2 = true ->
     settles R F audio_bytes -> (F <= S fuel)%nat ->
     exists r1 w1' r2 w2',
       handler ep R fuel key1 b64decode (mkRequest a l1) (configured_key ep key1) t1 t2 w1
         = (Ok r1, w1') /\
       handler ep R fuel key2 b64decode (mkRequest a l2) (configured_key ep key2) t1' t2' w2
         = (Ok r2, w2') /\
       rng w1' = rng w2') /\
  (forall (api_key1 api_key2 : string) r1 w1' r2 w2',
     handler ep R fuel key1 b64decode (mkRequest a l1) api_key1 t1 t2 w1 = (Ok r1, w1') ->
     handler ep R fuel key2 b64decode (mkRequest a l2) api_key2 t1' t2' w2 = (Ok r2, w2') ->
     rng w1' = rng w2').
Proof.
  assert (K : forall (api_key1 api_key2 : string) r1 w1' r2 w2',
            handler ep R fuel key1 b64decode (mkRequest a l1) api_key1 t1 t2 w1
              = (Ok r1, w1') ->
            handler ep R fuel key2 b64decode (mkRequest a l2) api_key2 t1' t2' w2
              = (Ok r2, w2') ->
            rng w1' = rng w2').
  { intros api_key1 api_key2 r1 w1' r2 w2' H1 H2.
    apply handler_ok_inv in H1, H2. cbn [language audio_base64] in H1, H2.
    destruct H1 as (_ & _ & B1 & d1 & x1 & D1 & P1 & _).
    destruct H2 as (_ & _ & B2 & d2 & x2 & D2 & P2 & _).
    rewrite D1 in D2. apply (f_equal (omap fst)) in D2. cbn in D2.
    assert (EB : B1 = B2) by congruence. subst B2.
    pose proof (pipeline_agree ep R fuel B1 l1 l2 w1 w2) as H.
    unfold post in H. rewrite P1, P2 in H. cbn [fst snd] in H. apply H. }
  split; [ | exact K].
  intros F B Hb Hsig Hl1 Hl2 Hs HF.
  pose proof (decode_audio_signed b64decode a B Hb Hsig) as Hd.
  destruct (handler_returns ep R fuel F key1 b64decode (mkRequest a l1) t1 t2 w1 B _
              Hs HF Hl1 Hd) as (x1 & w1' & _ & H1).
  destruct (handler_returns ep R fuel F key2 b64decode (mkRequest a l2) t1' t2' w2 B _
              Hs HF Hl2 Hd) as (x2 & w2' & _ & H2).
  do 4 eexists. split; [exact H1 | ]. split; [exact H2 | ].
  exact (K _ _ _ _ _ _ H1 H2).
Qed.

Lemma request_reseeds_generator_witness :
  base64.b64decode "//sAPPo=" = Ok payload_3cfa /\
  settles MT19937.generator 8 payload_3cfa /\
  exists r1 w1' r2 w2',
    handler m_entry MT19937.generator 16 "k" base64.b64decode (mkRequest "//sAPPo=" "english")
      (configured_key m_entry "k") 0 1500 mt_world = (Ok r1, w1') /\
    handler m_entry MT19937.generator 16 "k" base64.b64decode (mkRequest "//sAPPo=" "tamil")
      (configured_key m_entry "k") 5 9
      (mkWorld MT19937.generator (MT19937.seed 1) [DSeed 1]) = (Ok r2, w2') /\
    rng w1' = rng w2'.
Proof.
  assert (Hb : base64.b64decode "//sAPPo=" = Ok payload_3cfa) by (vm_compute; reflexivity).
  assert (HF : (8 <= 17)%nat) by lia.
  split; [exact Hb | ]. split; [exact payload_3cfa_settles | ].
  exact (proj1 (request_reseeds_generator m_entry MT19937.generator 16 "k" "k"
                  base64.b64decode "//sAPPo=" "english" "tamil" 0 1500 5 9 mt_world
                  (mkWorld MT19937.generator (MT19937.seed 1) [DSeed 1]))
           8%nat payload_3cfa Hb eq_refl eq_refl eq_refl payload_3cfa_settles HF).
Defined.

(** X8. When the clock does not step back between the two readings of
    [datetime.utcnow()], the reported [processing_time_ms] is not
    negative, and it is 0.0 when the readings coincide.  The response is
    returned whenever the request is acceptable and the seeded generator
    settles within the retry bound. *)
Theorem processing_time_nonnegative (ep : entry_point) (R : Generator) (fuel : nat)
    (key : string) (b64decode : string -> outcome bytes) (request : AudioRequest)
    (t_start t_end : Z) (w : world R) :
  t_start <= t_end ->
  let timed (resp : DetectionResponse) :=
    (0 <= processing_time_ms resp)%Q /\
    (t_start = t_end -> processing_time_ms resp = 0%Q) in
  (forall (F : nat) (audio_bytes : bytes),
     b64decode (audio_base64 request) = Ok audio_bytes ->
     startswith audio_bytes MP3_SYNC || startswith audio_bytes ID3_TAG = true ->
     language_accepted ep (language request) = true ->
     settles R F audio_bytes -> (F <= S fuel)%nat ->
     exists resp w',
       handler ep R fuel key b64decode request (configured_key ep key) t_start t_end w
         = (Ok resp, w') /\ timed resp) /\
  (forall (api_key : string) resp w',
     handler ep R fuel key b64decode request api_key t_start t_end w = (Ok resp, w') ->
     timed resp).
Proof.
  intros Ht timed.
  assert (K : forall (api_key : string) resp w',
            handler ep R fuel key b64decode request api_key t_start t_end w = (Ok resp, w') ->
            timed resp).
  { intros api_key resp w' H. apply handler_ok_inv in H.
    destruct H as (_ & _ & B & d & [[c conf] e] & _ & _ & ->).
    unfold timed, assemble. cbn [processing_time_ms]. split.
    - apply round_nonneg. unfold fmul. apply RN_nonneg.
      apply Qmult_le_0_compat.
      + unfold main_py.total_seconds, int_truediv. apply RN_nonneg.
        apply Qle_shift_div_l; [reflexivity | ].
        rewrite Qmult_0_l. change 0%Q with (inject_Z 0). rewrite <- Zle_Qle. lia.
      + unfold of_int. apply RN_nonneg. discriminate.
    - intros ->. unfold main_py.total_seconds. rewrite Z.sub_diag. reflexivity. }
  split; [ | exact K].
  intros F B Hb Hsig Hl Hs HF.
  pose proof (decode_audio_signed b64decode _ B Hb Hsig) as Hd.
  destruct (handler_returns ep R fuel F key b64decode request t_start t_end w B _
              Hs HF Hl Hd) as (x & w' & _ & H).
  do 2 eexists. split; [exact H | exact (K _ _ _ H)].
Qed.

Lemma processing_time_nonnegative_witness :
  100 <= 2600 /\
  base64.b64decode "//sAPPo=" = Ok payload_3cfa /\
  settles MT19937.generator 8 payload_3cfa /\
  exists resp w',
    handler main_entry MT19937.generator 16 "k" base64.b64decode
      (mkRequest "//sAPPo=" "hindi") (configured_key main_entry "k") 100 2600 mt_world
      = (Ok resp, w') /\
    (0 <= processing_time_ms resp)%Q.
Proof.
  assert (Ht : 100 <= 2600) by lia.
  assert (Hb : base64.b64decode "//sAPPo=" = Ok payload_3cfa) by (vm_compute; reflexivity).
  assert (HF : (8 <= 17)%nat) by lia.
  split; [exact Ht | ]. split; [exact Hb | ]. split; [exact payload_3cfa_settles | ].
  destruct (proj1 (processing_time_nonnegative main_entry MT19937.generator 16 "k"
                     base64.b64decode (mkRequest "//sAPPo=" "hindi") 100 2600 mt_world Ht)
              8%nat payload_3cfa Hb eq_refl eq_refl payload_3cfa_settles HF)
    as (resp & w' & H & Hp & _).
  exists resp, w'. split; [exact H | exact Hp].
Defined.

(** X9. The estimated duration never decreases with the size of the
    audio: of two accepted payloads, the longer one gets at least the
    duration of the shorter one, before and after rounding to two
    decimals, and no duration is negative. *)
Theorem duration_grows_with_size (b64decode : string -> outcome bytes) (s1 s2 : string)
    (B1 B2 : bytes) (d1 d2 : Q) :
  main_py.decode_audio b64decode s1 = Ok (B1, d1) ->
  main_py.decode_audio b64decode s2 = Ok (B2, d2) ->
  (List.length B1 <= List.length B2)%nat ->
  (0 <= d1 /\ d1 <= d2 /\ 0 <= round d1 2 /\ round d1 2 <= round d2 2)%Q.
Proof.
  intros H1 H2 Hlen. rewrite decode_audio_cases in H1, H2.
  destruct (b64decode s1) as [C1 | | ]; try discriminate.
  destruct (startswith C1 MP3_SYNC || startswith C1 ID3_TAG); [ | discriminate].
  destruct (b64decode s2) as [C2 | | ]; try discriminate.
  destruct (startswith C2 MP3_SYNC || startswith C2 ID3_TAG); [ | discriminate].
  apply (f_equal (omap snd)) in H1 as E1. apply (f_equal (omap fst)) in H1.
  apply (f_equal (omap snd)) in H2 as E2. apply (f_equal (omap fst)) in H2.
  cbn [omap fst snd] in *.
  assert (C1 = B1) by congruence. assert (C2 = B2) by congruence. subst C1 C2.
  assert (D1 : fdiv (int_truediv (Z.of_nat (List.length B1)) 1024) (of_int 16) = d1)
    by congruence.
  assert (D2 : fdiv (int_truediv (Z.of_nat (List.length B2)) 1024) (of_int 16) = d2)
    by congruence.
  clear H1 H2 E1 E2.
  destruct (duration_value (Z.of_nat (List.length B1)) ltac:(lia)) as [V1 _].
  destruct (duration_value (Z.of_nat (List.length B2)) ltac:(lia)) as [V2 _].
  rewrite D1 in V1. rewrite D2 in V2.
  assert (N1 : (0 <= inject_Z (Z.of_nat (List.length B1)) / 16384)%Q).
  { apply Qle_shift_div_l; [reflexivity | ].
    rewrite Qmult_0_l. change 0%Q with (inject_Z 0). rewrite <- Zle_Qle. lia. }
  assert (N12 : (inject_Z (Z.of_nat (List.length B1)) / 16384
                 <= inject_Z (Z.of_nat (List.length B2)) / 16384)%Q).
  { apply Qmult_le_compat_r; [ | discriminate]. rewrite <- Zle_Qle. lia. }
  assert (P1 : (0 <= d1)%Q) by (rewrite V1; apply RN_nonneg; exact N1).
  assert (P12 : (d1 <= d2)%Q) by (rewrite V1, V2; apply RN_mono; assumption).
  split; [exact P1 | ]. split; [exact P12 | ].
  split; [apply round_nonneg; exact P1 | apply round_mono; assumption].
Qed.

Lemma duration_grows_with_size_witness :
  main_py.decode_audio (fun s => if String.eqb s "a" then Ok MP3_SYNC else Ok payload_3cfa)
    "a" = Ok (MP3_SYNC, 1 # 8192) /\
  main_py.decode_audio (fun s => if String.eqb s "a" then Ok MP3_SYNC else Ok payload_3cfa)
    "b" = Ok (payload_3cfa, 5 # 16384) /\
  (1 # 8192 <= 5 # 16384)%Q.
Proof.
  assert (H1 : main_py.decode_audio
                 (fun s => if String.eqb s "a" then Ok MP3_SYNC else Ok payload_3cfa)
                 "a" = Ok (MP3_SYNC, 1 # 8192)) by (vm_compute; reflexivity).
  assert (H2 : main_py.decode_audio
                 (fun s => if String.eqb s "a" then Ok MP3_SYNC else Ok payload_3cfa)
                 "b" = Ok (payload_3cfa, 5 # 16384)) by (vm_compute; reflexivity).
  assert (Hl : (List.length MP3_SYNC <= List.length payload_3cfa)%nat) by (cbn; lia).
  split; [exact H1 | ]. split; [exact H2 | ].
  exact (proj1 (proj2 (duration_grows_with_size _ _ _ _ _ _ _ H1 H2 Hl))).
Defined.

(** X10. A request that passed the validation of [AudioRequest] (the
    [Literal] of the five languages, default "english") is never answered
    with "Unsupported language": in both files that branch of the handler
    is unreachable for validated requests. *)
Theorem validated_language_is_supported (ep : entry_point) (audio lang : option string)
    (request : AudioRequest) :
  AudioRequest_validate audio lang = Some request ->
  language_accepted ep (language request) = true /\
  forall (R : Generator) (fuel : nat) (key : string) (b64decode : string -> outcome bytes)
         (api_key : string) (t_start t_end : Z) (w w' : world R),
    handler ep R fuel key b64decode request api_key t_start t_end w
      <> (Raise (language_error ep), w').
Proof.
  intros H. unfold AudioRequest_validate in H.
  destruct audio as [a | ]; [ | discriminate].
  assert (Hin : In (language request) SUPPORTED_LANGUAGES).
  { destruct lang as [l | ].
    - destruct (existsb (String.eqb l) AudioRequest_languages) eqn:E; [ | discriminate].
      inversion H. cbn [language]. apply supported_language_test. exact E.
    - inversion H. cbn. auto. }
  assert (Hacc : language_accepted ep (language request) = true).
  { destruct ep; cbn [language_accepted].
    - apply supported_language_test. exact Hin.
    - rewrite (supported_lower _ Hin). apply supported_language_test. exact Hin. }
  split; [exact Hacc | ].
  intros R fuel key b64decode api_key t_start t_end w w' E.
  apply handler_raise_inv in E. destruct E as [_ E].
  destruct E as [[_ E] | [(_ & E & _) | (_ & _ & E)]].
  - destruct ep; discriminate.
  - congruence.
  - rewrite decode_audio_cases in E.
    destruct (b64decode (audio_base64 request)) as [B | e0 | ]; try discriminate.
    + destruct (startswith B MP3_SYNC || startswith B ID3_TAG); [discriminate | ].
      destruct ep; discriminate.
    + destruct ep; inversion E.
Qed.

Lemma validated_language_is_supported_witness :
  AudioRequest_validate (Some "//s="%string) None = Some (mkRequest "//s=" "english") /\
  language_accepted m_entry "english" = true.
Proof.
  assert (H : AudioRequest_validate (Some "//s="%string) None
              = Some (mkRequest "//s=" "english")) by reflexivity.
  split; [exact H | ].
  exact (proj1 (validated_language_is_supported m_entry _ _ _ H)).
Defined.

End ReplyProperties.

Section ServiceProperties.

Local Open Scope Z_scope.

(** ** Languages, start-up, fingerprints and the test client *)

Lemma sample_audio_signature : startswith t_py.sample_audio MP3_SYNC = true.
Proof. vm_compute. reflexivity. Qed.

Lemma sample_audio_duration :
  round (fdiv (int_truediv (Z.of_nat (List.length t_py.sample_audio)) 1024) (of_int 16)) 2
    = lit 1 1.
Proof. vm_compute. reflexivity. Qed.

(** X12. [main.py] only starts with a key: when loading succeeds, the
    variable VOICE_API_KEY was set to the key and the key is not empty, so
    a request with an empty X-API-Key header is answered with 401. *)
Theorem startup_requires_key (getenv : option string) (key : string) :
  load_main_py getenv = Loaded key ->
  getenv = Some key /\ key <> ""%string /\
  forall (R : Generator) (fuel : nat) (b64decode : string -> outcome bytes)
         (request : AudioRequest) (t_start t_end : Z) (w : world R),
    handler main_entry R fuel key b64decode request "" t_start t_end w
      = (Raise (HTTPException 401 "Invalid API Key"), w).
Proof.
  intros H. unfold load_main_py in H.
  destruct getenv as [[ | c k] | ]; try discriminate.
  inversion H; subst. split; [reflexivity | ]. split; [discriminate | ].
  intros. rewrite handler_run. reflexivity.
Qed.

Lemma startup_requires_key_witness :
  load_main_py (Some "s3cret"%string) = Loaded "s3cret" /\
  handler main_entry zero_generator 0 "s3cret" (decode_to MP3_SYNC)
    (mkRequest "" "english") "" 0 0 zero_world
    = (Raise (HTTPException 401 "Invalid API Key"), zero_world).
Proof.
  assert (H : load_main_py (Some "s3cret"%string) = Loaded "s3cret") by reflexivity.
  split; [exact H | ].
  exact (proj2 (proj2 (startup_requires_key _ _ H)) zero_generator 0%nat
           (decode_to MP3_SYNC) (mkRequest "" "english") 0 0 zero_world).
Defined.

(** X13. The fingerprint is always defined: it is the first eight bytes
    of the SHA-256 digest read as a big-endian number, so it lies in
    [[0, 2^64)] and the generator is seeded with at most 64 bits of the
    audio. *)
Theorem fingerprint_is_digest_prefix (audio_bytes : bytes) :
  fingerprint audio_bytes = Ok (be_value (firstn 8 (SHA256.digest audio_bytes))) /\
  0 <= be_value (firstn 8 (SHA256.digest audio_bytes)) < 2 ^ 64.
Proof.
  pose proof (digest_length audio_bytes) as Hlen.
  split.
  - unfold fingerprint, SHA256.hexdigest.
    change 16%nat with (2 * 8)%nat. rewrite substring_hex.
    destruct (SHA256.digest audio_bytes) as [ | b l]; [discriminate | ].
    change (firstn 8 (b :: l)) with (b :: firstn 7 l).
    unfold int_base16, be_value.
    rewrite hex_accum_value. reflexivity.
  - pose proof (be_value_range (firstn 8 (SHA256.digest audio_bytes))) as H.
    rewrite length_firstn, Hlen in H.
    change (Z.of_nat (Nat.min 8 32)) with 8 in H.
    change (256 ^ 8) with (2 ^ 64) in H. exact H.
Qed.

(** X14. Every score of a detection is a decimal number of the stated
    precision: the confidence is [n / 10^4] for an integer [n] between
    7500 and 9800 (AI_GENERATED) or 7000 and 9500 (HUMAN), and the three
    confidence factors are thousandths between 700 and 950, 650 and 920,
    700 and 980.  The scores are returned whenever the seeded generator
    settles within the retry bound. *)
Theorem scores_on_decimal_grid (ep : entry_point) (R : Generator) (fuel : nat)
    (audio_bytes : bytes) (lang : string) (w : world R) :
  let gridded (c : classification) (conf : Q) (e : explanation) :=
    (exists n, conf = lit n 4 /\
       (c = AI_GENERATED -> 7500 <= n <= 9800) /\
       (c = HUMAN -> 7000 <= n <= 9500)) /\
    exists s p a,
      factors e = mkFactors (lit s 3) (lit p 3) (lit a 3) /\
      700 <= s <= 950 /\ 650 <= p <= 920 /\ 700 <= a <= 980 in
  (forall F : nat, settles R F audio_bytes -> (F <= S fuel)%nat ->
     exists c conf e w',
       pipeline ep R fuel audio_bytes lang w = (Ok (c, conf, e), w') /\ gridded c conf e) /\
  (forall c conf e w',
     pipeline ep R fuel audio_bytes lang w = (Ok (c, conf, e), w') -> gridded c conf e).
Proof.
  intros gridded.
  assert (K : forall c conf e w',
            pipeline ep R fuel audio_bytes lang w = (Ok (c, conf, e), w') ->
            gridded c conf e).
  { intros c conf e w' H. apply pipeline_ok_inv in H.
    destruct H as (h & k & u1 & u2 & u3 & _ & _ & Hconf & _ & _ & _ & _ & _ & Hu & Hf & _).
    destruct Hu as ((U1 & U1') & (U2 & U2') & (U3 & U3')).
    destruct (draw2_range R h) as [D0 D1].
    split.
    - destruct (confidence_on_grid c (draw2 R h) D0 D1) as (n & En & Hn).
      exists n. split; [rewrite Hconf; exact En | exact Hn].
    - clear Hconf D0 D1.
      assert (A1 : (0 <= lit 7 1)%Q) by (vm_compute; discriminate).
      assert (B1 : (0 <= fsub (lit 95 2) (lit 7 1))%Q) by (vm_compute; discriminate).
      assert (A2 : (0 <= lit 65 2)%Q) by (vm_compute; discriminate).
      assert (B2 : (0 <= fsub (lit 92 2) (lit 65 2))%Q) by (vm_compute; discriminate).
      assert (A3 : (0 <= lit 70 2)%Q) by (vm_compute; discriminate).
      assert (B3 : (0 <= fsub (lit 98 2) (lit 70 2))%Q) by (vm_compute; discriminate).
      destruct (subscore_on_grid (lit 7 1) (lit 95 2) u1 700 950 A1 B1 U1 U1')
        as (s & Es & Hs); [vm_compute; reflexivity | vm_compute; reflexivity | ].
      destruct (subscore_on_grid (lit 65 2) (lit 92 2) u2 650 920 A2 B2 U2 U2')
        as (p & Ep & Hp); [vm_compute; reflexivity | vm_compute; reflexivity | ].
      destruct (subscore_on_grid (lit 70 2) (lit 98 2) u3 700 980 A3 B3 U3 U3')
        as (a & Ea & Ha); [vm_compute; reflexivity | vm_compute; reflexivity | ].
      exists s, p, a. split; [ | auto].
      rewrite Hf, Es, Ep, Ea. reflexivity. }
  split; [ | exact K].
  intros F Hs HF.
  destruct (pipeline_returns ep R fuel F audio_bytes lang w Hs HF) as ([[c conf] e] & w' & H).
  exists c, conf, e, w'. split; [exact H | apply (K c conf e w'); exact H].
Qed.

Lemma scores_on_decimal_grid_witness :
  settles MT19937.generator 8 payload_9c89 /\
  (exists c conf e w',
     pipeline main_entry MT19937.generator 16 payload_9c89 "english" mt_world
       = (Ok (c, conf, e), w') /\
     exists n, conf = lit n 4) /\
  (exists c conf e w',
     pipeline m_entry MT19937.generator 16 payload_9c89 "english" mt_world
       = (Ok (c, conf, e), w') /\
     exists n, conf = lit n 4).
Proof.
  assert (HF : (8 <= 17)%nat) by lia.
  split; [exact payload_9c89_settles | ]. split.
  - destruct (proj1 (scores_on_decimal_grid main_entry MT19937.generator 16 payload_9c89
                       "english" mt_world) 8%nat payload_9c89_settles HF)
      as (c & conf & e & w' & H & (n & En & _) & _).
    exists c, conf, e, w'. split; [exact H | exists n; exact En].
  - destruct (proj1 (scores_on_decimal_grid m_entry MT19937.generator 16 payload_9c89
                       "english" mt_world) 8%nat payload_9c89_settles HF)
      as (c & conf & e & w' & H & (n & En & _) & _).
    exists c, conf, e, w'. split; [exact H | exists n; exact En].
Defined.

(** X15. The test client of [t.py] against the two services: with a
    base64 codec that round-trips the sample file of [create_sample_audio]
    and a generator that settles on that file, [m.py] accepts the request
    for every supported language, echoes the language and reports a
    duration of 0.1 seconds; [main.py] answers 401 unless it was started
    with the client's key. *)
Theorem test_client_sample_request (R : Generator) (fuel F : nat) (key : string)
    (b64encode : bytes -> string) (b64decode : string -> outcome bytes)
    (lang : string) (t_start t_end : Z) (w : world R) :
  settles R F t_py.sample_audio -> (F <= S fuel)%nat ->
  b64decode (b64encode t_py.sample_audio) = Ok t_py.sample_audio ->
  In lang SUPPORTED_LANGUAGES ->
  (exists resp w',
     handler m_entry R fuel key b64decode (t_py.payload b64encode t_py.sample_audio lang)
       t_py.API_KEY t_start t_end w = (Ok resp, w') /\
     resp_language resp = lang /\
     audio_duration_seconds resp = lit 1 1) /\
  (key <> t_py.API_KEY ->
   handler main_entry R fuel key b64decode (t_py.payload b64encode t_py.sample_audio lang)
     t_py.API_KEY t_start t_end w = (Raise (HTTPException 401 "Invalid API Key"), w)).
Proof.
  intros HS Hle Hrt Hin. split.
  - assert (Hacc : language_accepted m_entry
                     (language (t_py.payload b64encode t_py.sample_audio lang)) = true).
    { cbn [language t_py.payload language_accepted].
      rewrite (supported_lower _ Hin). apply supported_language_test. exact Hin. }
    assert (Hd : main_py.decode_audio b64decode
                   (audio_base64 (t_py.payload b64encode t_py.sample_audio lang))
                 = Ok (t_py.sample_audio,
                       fdiv (int_truediv (Z.of_nat (List.length t_py.sample_audio)) 1024)
                            (of_int 16))).
    { cbn [audio_base64 t_py.payload]. rewrite decode_audio_cases, Hrt.
      rewrite sample_audio_signature. reflexivity. }
    destruct (handler_returns m_entry R fuel F key b64decode _ t_start t_end w _ _
                HS Hle Hacc Hd) as ([[c conf] e] & w' & _ & H).
    do 2 eexists. split; [exact H | ].
    unfold assemble. cbn [resp_language audio_duration_seconds].
    split; [reflexivity | ]. rewrite sample_audio_duration. reflexivity.
  - intros Hk. rewrite handler_run. cbn [configured_key].
    destruct (String.eqb_spec t_py.API_KEY key) as [E | _]; [ | reflexivity].
    exfalso. apply Hk. symmetry. exact E.
Qed.

Lemma test_client_sample_request_witness :
  settles MT19937.generator 8 t_py.sample_audio /\
  base64.b64decode (base64.b64encode t_py.sample_audio) = Ok t_py.sample_audio /\
  exists resp w',
    handler m_entry MT19937.generator 16 "k" base64.b64decode
      (t_py.payload base64.b64encode t_py.sample_audio "telugu")
      t_py.API_KEY 0 1500 mt_world = (Ok resp, w') /\
    audio_duration_seconds resp = lit 1 1.
Proof.
  assert (Hrt : base64.b64decode (base64.b64encode t_py.sample_audio)
                = Ok t_py.sample_audio) by (vm_compute; reflexivity).
  assert (Hin : In "telugu"%string SUPPORTED_LANGUAGES) by (cbn; tauto).
  assert (HF : (8 <= 17)%nat) by lia.
  split; [exact sample_audio_settles | ]. split; [exact Hrt | ].
  destruct (proj1 (test_client_sample_request MT19937.generator 16 8 "k"
                     base64.b64encode base64.b64decode "telugu" 0 1500
                     mt_world sample_audio_settles HF Hrt Hin))
    as (resp & w' & H & _ & Hd).
  exists resp, w'. split; [exact H | exact Hd].
Defined.

(** X16. When the seeded generator settles on whatever the base64 text
    decodes to, a handler returns a response exactly when the key is the
    configured one, the language passes the test, the base64 text decodes
    and the bytes carry an MP3 signature; the response then echoes the
    language of the request. *)
Theorem handler_returns_iff (ep : entry_point) (R : Generator) (fuel F : nat) (key : string)
    (b64decode : string -> outcome bytes) (request : AudioRequest) (api_key : string)
    (t_start t_end : Z) (w : world R) :
  (forall audio_bytes,
     b64decode (audio_base64 request) = Ok audio_bytes -> settles R F audio_bytes) ->
  (F <= S fuel)%nat ->
  ((exists resp w',
      handler ep R fuel key b64decode request api_key t_start t_end w = (Ok resp, w')) <->
   (api_key = configured_key ep key /\
    language_accepted ep (language request) = true /\
    exists audio_bytes,
      b64decode (audio_base64 request) = Ok audio_bytes /\
      startswith audio_bytes MP3_SYNC || startswith audio_bytes ID3_TAG = true)) /\
  (forall resp w',
     handler ep R fuel key b64decode request api_key t_start t_end w = (Ok resp, w') ->
     resp_language resp = language request /\
     language_specific_analysis (resp_explanation resp) = caption (language request)).
Proof.
  intros HS Hle. split; [split | ].
  - intros (resp & w' & H). apply handler_ok_inv in H.
    destruct H as (Hk & Hl & B & d & r & Hd & _ & _).
    split; [exact Hk | ]. split; [exact Hl | ].
    rewrite decode_audio_cases in Hd.
    destruct (b64decode (audio_base64 request)) as [C | | ]; try discriminate.
    destruct (startswith C MP3_SYNC || startswith C ID3_TAG) eqn:E; [ | discriminate].
    exists C. auto.
  - intros (-> & Hl & B & Hb & Hs).
    pose proof (decode_audio_signed b64decode _ B Hb Hs) as Hd.
    destruct (handler_returns ep R fuel F key b64decode request t_start t_end w _ _
                (HS B Hb) Hle Hl Hd) as (r & w' & _ & H).
    eauto.
  - intros resp w' H. apply handler_ok_inv in H.
    destruct H as (_ & _ & B & d & [[c conf] e] & _ & Hp & ->).
    apply pipeline_ok_inv in Hp.
    destruct Hp as (h & k & u1 & u2 & u3 & _ & _ & _ & _ & _ & _ & _ & Hc & _).
    unfold assemble. cbn [resp_language resp_explanation]. auto.
Qed.

Lemma handler_returns_iff_witness :
  (forall audio_bytes,
     base64.b64decode "//sAPPo=" = Ok audio_bytes ->
     settles MT19937.generator 8 audio_bytes) /\
  exists resp w',
    handler main_entry MT19937.generator 16 "k" base64.b64decode
      (mkRequest "//sAPPo=" "tamil") "k" 0 0 mt_world = (Ok resp, w').
Proof.
  assert (Hb : base64.b64decode "//sAPPo=" = Ok payload_3cfa) by (vm_compute; reflexivity).
  assert (HS : forall audio_bytes,
             base64.b64decode (audio_base64 (mkRequest "//sAPPo=" "tamil")) = Ok audio_bytes ->
             settles MT19937.generator 8 audio_bytes).
  { intros B HB. cbn [audio_base64] in HB. rewrite Hb in HB.
    injection HB as <-. exact payload_3cfa_settles. }
  assert (HF : (8 <= 17)%nat) by lia.
  split; [exact HS | ].
  apply (proj1 (handler_returns_iff main_entry MT19937.generator 16 8 "k" base64.b64decode
                  (mkRequest "//sAPPo=" "tamil") "k" 0 0 mt_world HS HF)).
  split; [reflexivity | ]. split; [reflexivity | ].
  exists payload_3cfa. split; [exact Hb | reflexivity].
Defined.

End ServiceProperties.

Section DurationAndStatus.

Local Open Scope Z_scope.

(** ** Short audio and the two services side by side *)

(** X17. The reported duration is 0.0 exactly for short audio:
    [decode_audio] accepts every payload with a signature, and the
    estimate it returns rounds to 0.0 for at most 81 bytes and to at least
    0.01 for 82 bytes or more.  Every response carries that rounded value
    as [audio_duration_seconds], and a response is returned whenever the
    language is accepted and the seeded generator settles within the
    retry bound. *)
Theorem short_audio_zero_duration (b64decode : string -> outcome bytes) (s : string)
    (audio_bytes : bytes) :
  b64decode s = Ok audio_bytes ->
  startswith audio_bytes MP3_SYNC || startswith audio_bytes ID3_TAG = true ->
  exists d,
    main_py.decode_audio b64decode s = Ok (audio_bytes, d) /\
    ((List.length audio_bytes <= 81)%nat -> round d 2 = 0%Q) /\
    ((82 <= List.length audio_bytes)%nat -> (lit 1 2 <= round d 2)%Q) /\
    (forall (ep : entry_point) (R : Generator) (fuel : nat) (key api_key lang : string)
            (t_start t_end : Z) (w w' : world R) (resp : DetectionResponse),
       handler ep R fuel key b64decode (mkRequest s lang) api_key t_start t_end w
         = (Ok resp, w') ->
       audio_duration_seconds resp = round d 2) /\
    (forall (ep : entry_point) (R : Generator) (fuel F : nat) (key lang : string)
            (t_start t_end : Z) (w : world R),
       language_accepted ep lang = true ->
       settles R F audio_bytes -> (F <= S fuel)%nat ->
       exists resp w',
         handler ep R fuel key b64decode (mkRequest s lang) (configured_key ep key)
           t_start t_end w = (Ok resp, w') /\
         audio_duration_seconds resp = round d 2).
Proof.
  intros Hb Hsig.
  pose proof (decode_audio_signed b64decode s audio_bytes Hb Hsig) as Hd.
  set (d := fdiv (int_truediv (Z.of_nat (List.length audio_bytes)) 1024) (of_int 16)) in *.
  exists d. split; [exact Hd | ].
  destruct (duration_value (Z.of_nat (List.length audio_bytes)) ltac:(lia)) as [V _].
  fold d in V.
  assert (N0 : (0 <= inject_Z (Z.of_nat (List.length audio_bytes)) / 16384)%Q).
  { apply Qle_shift_div_l; [reflexivity | ].
    rewrite Qmult_0_l. change 0%Q with (inject_Z 0). rewrite <- Zle_Qle. lia. }
  assert (P : (0 <= d)%Q) by (rewrite V; apply RN_nonneg; exact N0).
  split; [ | split; [ | split]].
  - intros Hlen.
    assert (U : (d <= RN (81 / 16384))%Q).
    { rewrite V. apply RN_mono; [exact N0 | ].
      apply Qmult_le_compat_r; [ | discriminate].
      change 81%Q with (inject_Z 81). rewrite <- Zle_Qle. lia. }
    assert (E : rne (d * 10 ^ 2)%Q = 0).
    { assert (H1 : rne (d * 10 ^ 2)%Q <= rne (RN (81 / 16384) * 10 ^ 2)%Q).
      { apply rne_mono. apply Qmult_le_compat_r; [exact U | discriminate]. }
      assert (H2 : rne (RN (81 / 16384) * 10 ^ 2)%Q = 0) by (vm_compute; reflexivity).
      assert (H3 : 0 <= rne (d * 10 ^ 2)%Q).
      { apply rne_nonneg. apply Qmult_le_0_compat; [exact P | discriminate]. }
      lia. }
    unfold round. rewrite E. reflexivity.
  - intros Hlen.
    apply Qle_trans with (round (RN (82 / 16384)) 2); [vm_compute; discriminate | ].
    apply round_mono; [vm_compute; discriminate | ].
    rewrite V. apply RN_mono; [discriminate | ].
    apply Qmult_le_compat_r; [ | discriminate].
    change 82%Q with (inject_Z 82). rewrite <- Zle_Qle. lia.
  - intros ep R fuel key api_key lang t_start t_end w w' resp H.
    apply handler_ok_inv in H. cbn [audio_base64 language] in H.
    destruct H as (_ & _ & B & d' & [[c conf] e] & Hd' & _ & ->).
    rewrite Hd in Hd'. apply (f_equal (omap snd)) in Hd'. cbn [omap snd] in Hd'.
    assert (Ed : d = d') by congruence. rewrite <- Ed.
    unfold assemble. cbn [audio_duration_seconds]. reflexivity.
  - intros ep R fuel F key lang t_start t_end w Hl HS HF.
    destruct (handler_returns ep R fuel F key b64decode (mkRequest s lang) t_start t_end w
                audio_bytes d HS HF Hl Hd) as ([[c conf] e] & w' & _ & H).
    do 2 eexists. split; [exact H | ].
    unfold assemble. cbn [audio_duration_seconds]. reflexivity.
Qed.

Lemma short_audio_zero_duration_witness :
  base64.b64decode "//sAPPo=" = Ok payload_3cfa /\
  base64.b64decode (base64.b64encode payload_82) = Ok payload_82 /\
  settles MT19937.generator 8 payload_3cfa /\
  settles MT19937.generator 8 payload_82 /\
  (exists resp w',
     handler m_entry MT19937.generator 16 "k" base64.b64decode
       (mkRequest "//sAPPo=" "english") (configured_key m_entry "k") 0 1500 mt_world
       = (Ok resp, w') /\
     audio_duration_seconds resp = 0%Q) /\
  (exists resp w',
     handler main_entry MT19937.generator 16 "k" base64.b64decode
       (mkRequest (base64.b64encode payload_82) "english") (configured_key main_entry "k")
       0 1500 mt_world = (Ok resp, w') /\
     (lit 1 2 <= audio_duration_seconds resp)%Q).
Proof.
  assert (Hb1 : base64.b64decode "//sAPPo=" = Ok payload_3cfa) by (vm_compute; reflexivity).
  assert (Hb2 : base64.b64decode (base64.b64encode payload_82) = Ok payload_82)
    by (vm_compute; reflexivity).
  assert (Hl1 : (List.length payload_3cfa <= 81)%nat) by (cbn; lia).
  assert (Hl2 : (82 <= List.length payload_82)%nat) by (cbn; lia).
  assert (HF : (8 <= 17)%nat) by lia.
  split; [exact Hb1 | ]. split; [exact Hb2 | ].
  split; [exact payload_3cfa_settles | ]. split; [exact payload_82_settles | ].
  split.
  - destruct (short_audio_zero_duration base64.b64decode "//sAPPo=" payload_3cfa Hb1 eq_refl)
      as (d & _ & Hz & _ & _ & Hret).
    destruct (Hret m_entry MT19937.generator 16%nat 8%nat "k"%string "english"%string
                0 1500 mt_world eq_refl payload_3cfa_settles HF) as (resp & w' & H & E).
    exists resp, w'. split; [exact H | ]. rewrite E. exact (Hz Hl1).
  - destruct (short_audio_zero_duration base64.b64decode (base64.b64encode payload_82)
                payload_82 Hb2 eq_refl) as (d & _ & _ & Hp & _ & Hret).
    destruct (Hret main_entry MT19937.generator 16%nat 8%nat "k"%string "english"%string
                0 1500 mt_world eq_refl payload_82_settles HF) as (resp & w' & H & E).
    exists resp, w'. split; [exact H | ]. rewrite E. exact (Hp Hl2).
Defined.

(** X18. Started with the key of [m.py], [main.py] answers every
    request whose language is in lower case with the same HTTP status as
    [m.py]: 401, 400 or 200, whatever the clock, the time of the error and
    the state of the generator, when the seeded generator settles on
    whatever the base64 text decodes to. *)
Theorem services_same_status (R : Generator) (fuel F : nat) (key : string)
    (b64decode : string -> outcome bytes) (request : AudioRequest) (api_key : string)
    (t1 t2 t1' t2' : Z) (w1 w2 : world R) (now1 now2 : string) :
  (forall audio_bytes,
     b64decode (audio_base64 request) = Ok audio_bytes -> settles R F audio_bytes) ->
  (F <= S fuel)%nat ->
  lower (language request) = language request ->
  http_status
    (reply_of (fst (handler main_entry R fuel m_py_handler.VALID_API_KEY b64decode request
                      api_key t1 t2 w1)) now1) =
  http_status
    (reply_of (fst (handler m_entry R fuel key b64decode request api_key t1' t2' w2)) now2).
Proof.
  intros HS Hle Hl. rewrite !handler_run.
  cbn [configured_key language_accepted]. rewrite Hl.
  destruct (negb (api_key =? m_py_handler.VALID_API_KEY)%string); [reflexivity | ].
  destruct (negb (existsb (String.eqb (language request)) SUPPORTED_LANGUAGES));
    [reflexivity | ].
  rewrite decode_audio_cases.
  destruct (b64decode (audio_base64 request)) as [B | e0 | ]; [ | reflexivity | reflexivity].
  destruct (startswith B MP3_SYNC || startswith B ID3_TAG); [ | reflexivity].
  destruct (pipeline_returns main_entry R fuel F B (language request) w1 (HS B eq_refl) Hle)
    as (r1 & v1 & E1).
  destruct (pipeline_returns m_entry R fuel F B (language request) w2 (HS B eq_refl) Hle)
    as (r2 & v2 & E2).
  rewrite E1, E2. cbn [fst reply_of].
  rewrite (assemble_confidence _ _ _ _ _ _ _ _ t1 t2 _ E1).
  rewrite (assemble_confidence _ _ _ _ _ _ _ _ t1' t2' _ E2).
  reflexivity.
Qed.

Lemma services_same_status_witness :
  (forall audio_bytes,
     base64.b64decode "//sAPPo=" = Ok audio_bytes ->
     settles MT19937.generator 8 audio_bytes) /\
  lower "english" = "english"%string /\
  http_status
    (reply_of (fst (handler main_entry MT19937.generator 16 m_py_handler.VALID_API_KEY
                      base64.b64decode (mkRequest "//sAPPo=" "english")
                      m_py_handler.VALID_API_KEY 0 0 mt_world)) "t") =
  http_status
    (reply_of (fst (handler m_entry MT19937.generator 16 "k"
                      base64.b64decode (mkRequest "//sAPPo=" "english")
                      m_py_handler.VALID_API_KEY 3 4 mt_world)) "u").
Proof.
  assert (Hb : base64.b64decode "//sAPPo=" = Ok payload_3cfa) by (vm_compute; reflexivity).
  assert (HS : forall audio_bytes,
             base64.b64decode (audio_base64 (mkRequest "//sAPPo=" "english"))
               = Ok audio_bytes ->
             settles MT19937.generator 8 audio_bytes).
  { intros B HB. cbn [audio_base64] in HB. rewrite Hb in HB.
    injection HB as <-. exact payload_3cfa_settles. }
  assert (Hl : lower (language (mkRequest "//sAPPo=" "english"))
               = language (mkRequest "//sAPPo=" "english")) by reflexivity.
  assert (HF : (8 <= 17)%nat) by lia.
  split; [exact HS | ]. split; [exact Hl | ].
  exact (services_same_status MT19937.generator 16 8 "k" base64.b64decode
           (mkRequest "//sAPPo=" "english") m_py_handler.VALID_API_KEY 0 0 3 4
           mt_world mt_world "t" "u" HS HF Hl).
Defined.

End DurationAndStatus.
